(** * lava-dnf: shape handlers, operations and the projection engine

    A shallow embedding of [lava/lib/dnf/operations/shape_handlers.py] and
    [lava/lib/dnf/operations/operations.py].

    Python tuples of ints are [list Z]; methods that read and write the
    attributes of [self] and may raise are computations in a state-and-exception
    monad over the instance; the NumPy arrays are a shape together with the
    row-major (C order) list of their entries.  Entries of weight matrices are
    exact rationals ([Q]) standing for the float64 values. *)

From Stdlib Require Import ZArith List Lia Bool QArith.
From ExtLib Require Import Structures.Monad.
Import ListNotations.
Import MonadNotation.
Local Open Scope monad_scope.
Local Open Scope Z_scope.

(** ** Exceptions and results *)

(** The exception classes the two modules raise, directly or through NumPy
    ([AxisError] is NumPy's, a subclass of both [ValueError] and [IndexError]). *)
Inductive exn : Type :=
| MisconfiguredOpError
| ValueError
| IndexError
| NotImplementedError
| TypeError
| AssertionError
| AxisError.

Inductive result (A : Type) : Type :=
| Ok (a : A)
| Raise (e : exn).
Arguments Ok {A} a.
Arguments Raise {A} e.

#[export] Instance Monad_result : Monad result :=
  {| ret := fun _ a => Ok a;
     bind := fun _ _ r k => match r with Ok a => k a | Raise e => Raise e end |}.

(** A method of an instance of state type [S]: it may update the attributes
    before it raises, and the updates made until then stay. *)
Definition method (S A : Type) : Type := S -> S * result A.

#[export] Instance Monad_method {S : Type} : Monad (method S) :=
  {| ret := fun _ a s => (s, Ok a);
     bind := fun _ _ m k s =>
               match m s with
               | (s', Ok a) => k a s'
               | (s', Raise e) => (s', Raise e)
               end |}.

Definition raise {S A : Type} (e : exn) : method S A := fun s => (s, Raise e).
Definition lift {S A : Type} (r : result A) : method S A := fun s => (s, r).
Definition getattr {S A : Type} (f : S -> A) : method S A := fun s => (s, Ok (f s)).
Definition setattr {S : Type} (upd : S -> S) : method S unit := fun s => (upd s, Ok tt).

(** [if c: raise e] *)
Definition raise_if {S : Type} (c : bool) (e : exn) : method S unit :=
  if c then raise e else ret tt.

(** [for x in xs: body(x)] *)
Fixpoint for_each {S A : Type} (xs : list A) (body : A -> method S unit) : method S unit :=
  match xs with
  | [] => ret tt
  | x :: xs' => body x ;; for_each xs' body
  end.

(** The same loop where the body threads a local value and only may raise. *)
Fixpoint for_fold {A B : Type} (xs : list A) (body : A -> B -> result B) (b : B) : result B :=
  match xs with
  | [] => Ok b
  | x :: xs' => b' <- body x b ;; for_fold xs' body b'
  end.

(** ** Python and NumPy primitives *)

Definition shape : Type := list Z.

(** [len(t)] *)
Definition len {A : Type} (t : list A) : Z := Z.of_nat (length t).

(** [range(n)] *)
Definition range (n : Z) : list Z := map Z.of_nat (seq 0 (Z.to_nat n)).

(** A constructor argument that is an int or a tuple of ints. *)
Inductive int_or_tuple : Type :=
| PyInt (i : Z)
| PyTuple (t : list Z).

(** [if isinstance(x, int): x = (x,)] *)
Definition tuple_of (x : int_or_tuple) : list Z :=
  match x with
  | PyInt i => [i]
  | PyTuple t => t
  end.

(** Reading an attribute that must hold a tuple: [len(None)] and the like raise
    [TypeError].  Every public entry point sets the attribute first. *)
Definition the {A : Type} (o : option A) : result A :=
  match o with
  | Some a => Ok a
  | None => Raise TypeError
  end.

(** Modelled from the spec: [lava.lib.dnf.utils.convenience.num_dims], which is
    imported by both modules and is not among the source files;
    "num_dims(shape) = length(shape)". *)
Definition num_dims (s : shape) : Z := len s.

(** Modelled from the spec: [lava.lib.dnf.utils.convenience.num_neurons], which
    is imported by both modules and is not among the source files;
    "num_neurons(shape) = product of entries (empty product = 1)". *)
Definition num_neurons (s : shape) : Z := fold_right Z.mul 1 s.

(** NumPy's index normalisation for an axis of size [n]: indices in [-n, n) are
    accepted, negative ones count from the end. *)
Definition normalize_index (n idx : Z) : result Z :=
  if (idx <? - n) || (n <=? idx) then Raise IndexError
  else Ok (if idx <? 0 then idx + n else idx).

Fixpoint mapM {A B : Type} (f : A -> result B) (xs : list A) : result (list B) :=
  match xs with
  | [] => Ok []
  | x :: xs' => y <- f x ;; ys <- mapM f xs' ;; ret (y :: ys)
  end.

Definition mem (x : Z) (xs : list Z) : bool := existsb (Z.eqb x) xs.

(** The entries of [arr] whose position (counted from [pos]) is not in [drop]. *)
Fixpoint drop_positions {A : Type} (drop : list Z) (pos : Z) (arr : list A) : list A :=
  match arr with
  | [] => []
  | x :: arr' =>
      if mem pos drop then drop_positions drop (pos + 1) arr'
      else x :: drop_positions drop (pos + 1) arr'
  end.

(** [np.delete(arr, obj)] for a one-dimensional [arr] and a tuple [obj] of
    indices: an index outside [-N, N) raises [IndexError]; the named positions
    are removed (a position named twice is removed once). *)
Definition np_delete {A : Type} (arr : list A) (obj : list Z) : result (list A) :=
  drop <- mapM (normalize_index (len arr)) obj ;;
  ret (drop_positions drop 0 arr).

(** [arr[list(idx)]] for a one-dimensional [arr]: integer-array indexing. *)
Definition np_take (arr : list Z) (idx : list Z) : result (list Z) :=
  mapM (fun i => j <- normalize_index (len arr) i ;; ret (nth (Z.to_nat j) arr 0)) idx.

(** The bounds check every validation loop over axis indices makes:
    [idx_positive = len(shape) + idx if idx < 0 else idx], then
    [idx_positive < 0 or idx_positive >= len(shape)]. *)
Definition out_of_bounds (n idx : Z) : bool :=
  let idx_positive := if idx <? 0 then n + idx else idx in
  (idx_positive <? 0) || (n <=? idx_positive).

(** ** Instances

    An instance of a shape handler or of an operation: the two attributes that
    [AbstractShapeHandler.__init__] and [AbstractOperation.__init__] create, and
    the attributes [params] the subclass adds. *)
Record obj (P : Type) : Type := Obj {
  params : P;
  _input_shape : option shape;
  _output_shape : option shape
}.
Arguments Obj {P} _ _ _.
Arguments params {P} _.
Arguments _input_shape {P} _.
Arguments _output_shape {P} _.

Definition set_input_shape {P : Type} (v : option shape) : method (obj P) unit :=
  setattr (fun self => Obj (params self) v (_output_shape self)).
Definition set_output_shape {P : Type} (v : option shape) : method (obj P) unit :=
  setattr (fun self => Obj (params self) (_input_shape self) v).

(** [self._input_shape] and [self._output_shape] where a tuple is needed. *)
Definition the_input_shape {P : Type} : method (obj P) shape :=
  o <- getattr _input_shape ;; lift (the o).
Definition the_output_shape {P : Type} : method (obj P) shape :=
  o <- getattr _output_shape ;; lift (the o).

(** ** shape_handlers.py *)

Module ShapeHandlers.

(** The abstract methods of [AbstractShapeHandler]. *)
Class AbstractShapeHandler (P : Type) : Type := {
  _compute_output_shape : method (obj P) unit;
  _validate_args : method (obj P) unit;
  _validate_input_shape : shape -> method (obj P) unit
}.

Section AbstractShapeHandler.
Context {P : Type} `{AbstractShapeHandler P}.

(** [AbstractShapeHandler.configure] *)
Definition configure (input_shape : shape) : method (obj P) unit :=
  _validate_input_shape input_shape ;;
  set_input_shape (Some input_shape) ;;
  _validate_args ;;
  _compute_output_shape.

(** [AbstractShapeHandler.assert_configured] *)
Definition assert_configured : method (obj P) unit :=
  i <- getattr _input_shape ;;
  o <- getattr _output_shape ;;
  match i, o with
  | Some _, Some _ => ret tt
  | _, _ => raise AssertionError
  end.
End AbstractShapeHandler.

(** *** KeepShapeHandler *)

Record KeepShape : Type := KeepShapeParams { }.

Definition KeepShapeHandler : obj KeepShape := Obj KeepShapeParams None None.

#[global] Instance KeepShapeHandler_methods : AbstractShapeHandler KeepShape := {|
  _compute_output_shape :=
    i <- getattr _input_shape ;; set_output_shape i;
  _validate_args := ret tt;
  _validate_input_shape := fun _ => ret tt
|}.

(** *** ReduceDimsHandler *)

Record ReduceDims : Type := ReduceDimsParams { _reduce_dims : list Z }.

Definition ReduceDimsHandler (reduce_dims : int_or_tuple) : obj ReduceDims :=
  Obj (ReduceDimsParams (tuple_of reduce_dims)) None None.

Definition reduce_dims : method (obj ReduceDims) (list Z) :=
  getattr (fun self => _reduce_dims (params self)).

#[global] Instance ReduceDimsHandler_methods : AbstractShapeHandler ReduceDims := {|
  _compute_output_shape :=
    i <- the_input_shape ;;
    r <- reduce_dims ;;
    o <- lift (np_delete i r) ;;
    set_output_shape (Some o) ;;
    match o with
    | [] => set_output_shape (Some [1])
    | _ => ret tt
    end;
  _validate_input_shape := fun input_shape =>
    raise_if (num_dims input_shape =? 0) MisconfiguredOpError;
  _validate_args :=
    r <- reduce_dims ;;
    raise_if (len r =? 0) ValueError ;;
    i <- the_input_shape ;;
    raise_if (len i <? len r) ValueError ;;
    for_each r (fun idx => raise_if (out_of_bounds (len i) idx) IndexError)
|}.

(** *** ExpandDimsHandler *)

Record ExpandDims : Type := ExpandDimsParams { _new_dims_shape : list Z }.

Definition ExpandDimsHandler (new_dims_shape : int_or_tuple) : obj ExpandDims :=
  Obj (ExpandDimsParams (tuple_of new_dims_shape)) None None.

Definition new_dims_shape : method (obj ExpandDims) (list Z) :=
  getattr (fun self => _new_dims_shape (params self)).

#[global] Instance ExpandDimsHandler_methods : AbstractShapeHandler ExpandDims := {|
  _compute_output_shape :=
    i <- the_input_shape ;;
    n <- new_dims_shape ;;
    (if num_dims i =? 0 then set_output_shape (Some n)
     else set_output_shape (Some (i ++ n))) ;;
    o <- the_output_shape ;;
    raise_if (3 <? len o) NotImplementedError;
  _validate_args :=
    n <- new_dims_shape ;;
    raise_if (len n =? 0) ValueError ;;
    raise_if (existsb (fun s => s <? 1) n) ValueError;
  _validate_input_shape := fun _ => ret tt
|}.

(** *** ReshapeHandler *)

Record Reshape : Type := ReshapeParams { }.

Definition ReshapeHandler (output_shape : shape) : obj Reshape :=
  Obj ReshapeParams None (Some output_shape).

#[global] Instance ReshapeHandler_methods : AbstractShapeHandler Reshape := {|
  _validate_args :=
    i <- the_input_shape ;;
    o <- the_output_shape ;;
    raise_if (negb (num_neurons i =? num_neurons o)) MisconfiguredOpError;
  _compute_output_shape := ret tt;
  _validate_input_shape := fun _ => ret tt
|}.

(** *** ReorderHandler *)

Record Reorder : Type := ReorderParams { _order : list Z }.

Definition ReorderHandler (order : list Z) : obj Reorder :=
  Obj (ReorderParams order) None None.

Definition order : method (obj Reorder) (list Z) :=
  getattr (fun self => _order (params self)).

#[global] Instance ReorderHandler_methods : AbstractShapeHandler Reorder := {|
  _compute_output_shape :=
    i <- the_input_shape ;;
    r <- order ;;
    o <- lift (np_take i r) ;;
    set_output_shape (Some o);
  _validate_args :=
    i <- the_input_shape ;;
    let num_dims_in := num_dims i in
    r <- order ;;
    raise_if (negb (len r =? num_dims_in)) MisconfiguredOpError ;;
    for_each r (fun idx => raise_if (out_of_bounds (len i) idx) IndexError);
  _validate_input_shape := fun input_shape =>
    let num_dims_in := num_dims input_shape in
    raise_if (num_dims_in <? 2) MisconfiguredOpError
|}.

End ShapeHandlers.

(** ** NumPy arrays *)

(** An n-dimensional array: its shape and its entries in row-major order. *)
Record ndarray : Type := NdArray {
  nd_shape : list Z;
  nd_data : list Q
}.

Definition ndim (a : ndarray) : Z := len (nd_shape a).

(** The number of entries of an array of shape [sh]. *)
Definition size_of (sh : list Z) : Z := fold_right Z.mul 1 sh.

(** NumPy's limit on the number of axes of an array, [NPY_MAXDIMS]: 32 in
    NumPy 1.x, which this code was written for (64 from NumPy 2.0 on). *)
Definition NPY_MAXDIMS : Z := 32.

(** [np.full(sh, v)]: a negative dimension raises [ValueError], and so do
    more than [NPY_MAXDIMS] dimensions.  The memory an array takes is not
    bounded here. *)
Definition np_full (sh : list Z) (v : Q) : result ndarray :=
  if existsb (fun d => d <? 0) sh then Raise ValueError
  else if NPY_MAXDIMS <? len sh then Raise ValueError
  else Ok (NdArray sh (repeat v (Z.to_nat (size_of sh)))).

Definition np_zeros (sh : list Z) : result ndarray := np_full sh 0%Q.
Definition np_ones (sh : list Z) : result ndarray := np_full sh 1%Q.

(** [np.eye(N, M)]: ones where the row and column index agree. *)
Definition np_eye (N M : Z) : result ndarray :=
  if (N <? 0) || (M <? 0) then Raise ValueError
  else Ok (NdArray [N; M]
             (flat_map (fun i => map (fun j => if i =? j then 1%Q else 0%Q) (range M))
                       (range N))).

(** [a * w] and [a / n] with a scalar: entry by entry. *)
Definition np_mul (a : ndarray) (w : Q) : ndarray :=
  NdArray (nd_shape a) (map (fun x => (x * w)%Q) (nd_data a)).
Definition np_div (a : ndarray) (n : Z) : ndarray :=
  NdArray (nd_shape a) (map (fun x => (x / inject_Z n)%Q) (nd_data a)).

(** The multi-index of the entry at row-major position [k]. *)
Fixpoint unravel (sh : list Z) (k : Z) : list Z :=
  match sh with
  | [] => []
  | _ :: rest => (k / size_of rest) :: unravel rest (k mod size_of rest)
  end.

(** [a.reshape(sh)] for an array without negative dimensions and a shape
    without negative entries, which is all [_project_dims] reaches: the entries
    stay in row-major order; a different number of entries raises
    [ValueError]. *)
Definition np_reshape (a : ndarray) (sh : list Z) : result ndarray :=
  if size_of sh =? size_of (nd_shape a) then Ok (NdArray sh (nd_data a))
  else Raise ValueError.

(** [normalize_axis_tuple(axes, ndim)]: each axis in [-ndim, ndim), negative
    ones counted from the end, no axis twice. *)
Definition normalize_axis_index (nd ax : Z) : result Z :=
  if (ax <? - nd) || (nd <=? ax) then Raise AxisError
  else Ok (if ax <? 0 then ax + nd else ax).

Fixpoint has_duplicate (xs : list Z) : bool :=
  match xs with
  | [] => false
  | x :: xs' => mem x xs' || has_duplicate xs'
  end.

Definition normalize_axis_tuple (axes : list Z) (nd : Z) : result (list Z) :=
  axes' <- mapM (normalize_axis_index nd) axes ;;
  if has_duplicate axes' then Raise ValueError else ret axes'.

(** [sorted(pairs)] on pairs of ints: by the first component, then the second. *)
Definition pair_leb (p q : Z * Z) : bool :=
  (fst p <? fst q) || ((fst p =? fst q) && (snd p <=? snd q)).

Fixpoint insert_sorted (p : Z * Z) (l : list (Z * Z)) : list (Z * Z) :=
  match l with
  | [] => [p]
  | q :: l' => if pair_leb p q then p :: l else q :: insert_sorted p l'
  end.

Definition sorted (l : list (Z * Z)) : list (Z * Z) := fold_right insert_sorted [] l.

(** [l.insert(i, x)] for [i >= 0]: past the end it appends. *)
Fixpoint list_insert {A : Type} (i : nat) (x : A) (l : list A) : list A :=
  match i, l with
  | O, _ => x :: l
  | S _, [] => [x]
  | S i', y :: l' => y :: list_insert i' x l'
  end.

(** [np.moveaxis(a, source, destination)] returns a view of [a]; the view is
    the list [order] of the axes of [a] in the order the view shows them
    (its axis [i] is axis [order[i]] of [a]). *)
Definition np_moveaxis (nd : Z) (source destination : list Z) : result (list Z) :=
  source <- normalize_axis_tuple source nd ;;
  destination <- normalize_axis_tuple destination nd ;;
  if negb (len source =? len destination) then Raise ValueError
  else
    let order := filter (fun n => negb (mem n source)) (range nd) in
    ret (fold_left (fun order '(dest, src) => list_insert (Z.to_nat dest) src order)
                   (sorted (combine destination source)) order).

(** [np.size(conn, axis)] of the view [order] of [a]. *)
Definition np_size (a : ndarray) (order : list Z) (axis : nat) : result Z :=
  match nth_error order axis with
  | Some ax => Ok (nth (Z.to_nat ax) (nd_shape a) 0)
  | None => Raise IndexError
  end.

(** Whether the multi-index [m] has, at each pinned axis, the pinned value. *)
Definition pinned (pins : list (Z * Z)) (m : list Z) : bool :=
  forallb (fun '(ax, j) => nth (Z.to_nat ax) m (-1) =? j) pins.

(** [conn[i0, ..., ik, ...] = v] through the view [order] of [a]: the write
    goes to [a] itself, to every entry whose index along the view's first axes
    is [i0, ..., ik].  More indices than axes, or an index outside its axis,
    raise [IndexError]. *)
Definition setitem (a : ndarray) (order : list Z) (idx : list Z) (v : Q) : result ndarray :=
  if len order <? len idx then Raise IndexError
  else
    pins <- mapM (fun '(i, ax) =>
                    j <- normalize_index (nth (Z.to_nat ax) (nd_shape a) 0) i ;;
                    ret (ax, j))
                 (combine idx order) ;;
    ret (NdArray (nd_shape a)
           (map (fun '(k, x) => if pinned pins (unravel (nd_shape a) k) then v else x)
                (combine (range (len (nd_data a))) (nd_data a)))).

(** The rows of a two-dimensional array. *)
Fixpoint chunks {A : Type} (n : nat) (rows : nat) (l : list A) : list (list A) :=
  match rows with
  | O => []
  | S rows' => firstn n l :: chunks n rows' (skipn n l)
  end.

Definition rows (a : ndarray) : list (list Q) :=
  match nd_shape a with
  | [r; c] => chunks (Z.to_nat c) (Z.to_nat r) (nd_data a)
  | _ => []
  end.

(** The entry at row [i], column [j] of a two-dimensional array. *)
Definition entry (a : ndarray) (i j : nat) : Q :=
  nth j (nth i (rows a) []) 0%Q.

Definition column (a : ndarray) (j : nat) : list Q :=
  map (fun r => nth j r 0%Q) (rows a).

(** ** operations.py *)

Module Operations.

(** The abstract methods of [AbstractOperation]. *)
Class AbstractOperation (P : Type) : Type := {
  _compute_weights : method (obj P) ndarray;
  configure : shape -> method (obj P) unit
}.

(** [AbstractOperation.output_shape] *)
Definition output_shape {P : Type} : method (obj P) (option shape) :=
  getattr _output_shape.

(** [AbstractOperation.compute_weights] *)
Definition compute_weights {P : Type} `{AbstractOperation P} : method (obj P) ndarray :=
  i <- getattr _input_shape ;;
  o <- getattr _output_shape ;;
  match i, o with
  | Some _, Some _ => _compute_weights
  | _, _ => raise AssertionError
  end.

(** The abstract method of [AbstractComputedShapeOperation]. *)
Class AbstractComputedShapeOperation (P : Type) : Type := {
  _compute_output_shape : shape -> method (obj P) unit
}.

(** [AbstractComputedShapeOperation.configure] *)
Definition AbstractComputedShapeOperation_configure {P : Type}
    `{AbstractComputedShapeOperation P} (input_shape : shape) : method (obj P) unit :=
  set_input_shape (Some input_shape) ;;
  _compute_output_shape input_shape.

(** The abstract method of [AbstractSpecifiedShapeOperation]. *)
Class AbstractSpecifiedShapeOperation (P : Type) : Type := {
  _validate_output_shape : method (obj P) unit
}.

(** [AbstractSpecifiedShapeOperation.__init__] *)
Definition AbstractSpecifiedShapeOperation_init {P : Type} (p : P) (output_shape : shape)
  : obj P :=
  Obj p None (Some output_shape).

(** [AbstractSpecifiedShapeOperation.configure] *)
Definition AbstractSpecifiedShapeOperation_configure {P : Type}
    `{AbstractSpecifiedShapeOperation P} (input_shape : shape) : method (obj P) unit :=
  set_input_shape (Some input_shape) ;;
  _validate_output_shape.

(** [AbstractKeepShapeOperation._compute_output_shape] *)
Definition AbstractKeepShapeOperation_compute_output_shape {P : Type}
    (input_shape : shape) : method (obj P) unit :=
  set_output_shape (Some input_shape).

(** *** AbstractReduceDimsOperation *)

Inductive ReduceMethod : Type := SUM | MEAN.

Record ReduceDimsOp : Type := ReduceDimsParams {
  reduce_dims : list Z;
  reduce_method : ReduceMethod
}.

Definition AbstractReduceDimsOperation_validate_input_shape
  : method (obj ReduceDimsOp) unit :=
  i <- the_input_shape ;;
  raise_if (num_dims i =? 0) MisconfiguredOpError.

Definition AbstractReduceDimsOperation_validate_reduce_dims
  : method (obj ReduceDimsOp) unit :=
  r <- getattr (fun self => reduce_dims (params self)) ;;
  raise_if (len r =? 0) ValueError ;;
  i <- the_input_shape ;;
  raise_if (len i <? len r) ValueError ;;
  for_each r (fun idx => raise_if (out_of_bounds (len i) idx) IndexError).

#[global] Instance AbstractReduceDimsOperation : AbstractComputedShapeOperation ReduceDimsOp := {|
  _compute_output_shape := fun input_shape =>
    AbstractReduceDimsOperation_validate_input_shape ;;
    AbstractReduceDimsOperation_validate_reduce_dims ;;
    r <- getattr (fun self => reduce_dims (params self)) ;;
    o <- lift (np_delete input_shape r) ;;
    set_output_shape (Some o) ;;
    match o with
    | [] => set_output_shape (Some [1])
    | _ => ret tt
    end
|}.

(** *** AbstractExpandDimsOperation *)

Record ExpandDimsOp : Type := ExpandDimsParams { new_dims_shape : list Z }.

Definition AbstractExpandDimsOperation_validate_new_dims_shape
  : method (obj ExpandDimsOp) unit :=
  n <- getattr (fun self => new_dims_shape (params self)) ;;
  raise_if (len n =? 0) ValueError ;;
  raise_if (existsb (fun s => s <? 1) n) ValueError.

#[global] Instance AbstractExpandDimsOperation : AbstractComputedShapeOperation ExpandDimsOp := {|
  _compute_output_shape := fun input_shape =>
    AbstractExpandDimsOperation_validate_new_dims_shape ;;
    n <- getattr (fun self => new_dims_shape (params self)) ;;
    (if num_dims input_shape =? 0 then set_output_shape (Some n)
     else set_output_shape (Some (input_shape ++ n))) ;;
    o <- the_output_shape ;;
    raise_if (3 <? len o) NotImplementedError
|}.

(** *** AbstractReshapeOperation *)

Record ReshapeOp : Type := ReshapeParams { }.

(** [AbstractReshapeOperation.__init__], as a concrete subclass reaches it (the
    module defines none; the class leaves [_compute_weights] abstract). *)
Definition AbstractReshapeOperation_init (output_shape : shape) : obj ReshapeOp :=
  AbstractSpecifiedShapeOperation_init ReshapeParams output_shape.

#[global] Instance AbstractReshapeOperation : AbstractSpecifiedShapeOperation ReshapeOp := {|
  _validate_output_shape :=
    i <- the_input_shape ;;
    o <- the_output_shape ;;
    raise_if (negb (num_neurons i =? num_neurons o)) MisconfiguredOpError
|}.

(** *** _project_dims *)

Definition _project_dims (input_shape output_shape : shape)
    (out_axes_kept in_axes_kept : option (list Z)) : result ndarray :=
  let num_neurons_in := num_neurons input_shape in
  let num_neurons_out := num_neurons output_shape in
  let num_dims_in := num_dims input_shape in
  let num_dims_out := num_dims output_shape in
  let smaller_num_dims := Z.min num_dims_in num_dims_out in
  if smaller_num_dims =? 0 then
    np_ones [num_neurons_out; num_neurons_in]
  else
    let shape := output_shape ++ input_shape in
    weights <- np_zeros shape ;;
    let in_axes_kept :=
      match in_axes_kept with
      | None => range num_dims_in
      | Some t => t
      end in
    let in_axes_kept := map (fun a => a + num_dims_out) in_axes_kept in
    let out_axes_kept :=
      match out_axes_kept with
      | None => range num_dims_out
      | Some t => t
      end in
    let new_axes_out := range (len out_axes_kept) in
    let new_axes_in := map (fun a => a + len new_axes_out) (range (len in_axes_kept)) in
    conn <- np_moveaxis (ndim weights)
                        (out_axes_kept ++ in_axes_kept)
                        (new_axes_out ++ new_axes_in) ;;
    weights <-
      (if smaller_num_dims =? 1 then
         size0 <- np_size weights conn 0 ;;
         for_fold (range size0) (fun a weights =>
           setitem weights conn [a; a] 1%Q) weights
       else if smaller_num_dims =? 2 then
         size0 <- np_size weights conn 0 ;;
         for_fold (range size0) (fun a weights =>
           size1 <- np_size weights conn 1 ;;
           for_fold (range size1) (fun b weights =>
             setitem weights conn [a; b; a; b] 1%Q) weights) weights
       else if smaller_num_dims =? 3 then
         size0 <- np_size weights conn 0 ;;
         for_fold (range size0) (fun a weights =>
           size1 <- np_size weights conn 1 ;;
           for_fold (range size1) (fun b weights =>
             size2 <- np_size weights conn 2 ;;
             for_fold (range size2) (fun c weights =>
               setitem weights conn [a; b; c; a; b; c] 1%Q) weights) weights) weights
       else Raise NotImplementedError) ;;
    np_reshape weights [num_neurons_out; num_neurons_in].

(** *** Weights *)

Record WeightsOp : Type := WeightsParams { weight : Q }.

Definition Weights (weight : Q) : obj WeightsOp :=
  Obj (WeightsParams weight) None None.

#[global] Instance AbstractKeepShapeOperation_Weights : AbstractComputedShapeOperation WeightsOp := {|
  _compute_output_shape := AbstractKeepShapeOperation_compute_output_shape
|}.

#[global] Instance Weights_methods : AbstractOperation WeightsOp := {|
  _compute_weights :=
    o <- the_output_shape ;;
    i <- the_input_shape ;;
    w <- getattr (fun self => weight (params self)) ;;
    e <- lift (np_eye (num_neurons o) (num_neurons i)) ;;
    ret (np_mul e w);
  configure := AbstractComputedShapeOperation_configure
|}.

(** *** ReduceDims *)

(** [reduce_method] defaults to [ReduceMethod.SUM]. *)
Definition ReduceDims (reduce_dims : int_or_tuple) (reduce_method : option ReduceMethod)
  : obj ReduceDimsOp :=
  Obj (ReduceDimsParams (tuple_of reduce_dims)
         (match reduce_method with Some m => m | None => SUM end))
      None None.

#[global] Instance ReduceDims_methods : AbstractOperation ReduceDimsOp := {|
  _compute_weights :=
    i <- the_input_shape ;;
    o <- the_output_shape ;;
    r <- getattr (fun self => reduce_dims (params self)) ;;
    let in_axes_all := range (num_dims i) in
    in_axes_kept <- lift (np_delete in_axes_all r) ;;
    weights <- lift (_project_dims i o None (Some in_axes_kept)) ;;
    m <- getattr (fun self => reduce_method (params self)) ;;
    match m with
    | MEAN => ret (np_div weights (num_neurons i))
    | SUM => ret weights
    end;
  configure := AbstractComputedShapeOperation_configure
|}.

(** *** ExpandDims *)

Definition ExpandDims (new_dims_shape : int_or_tuple) : obj ExpandDimsOp :=
  Obj (ExpandDimsParams (tuple_of new_dims_shape)) None None.

#[global] Instance ExpandDims_methods : AbstractOperation ExpandDimsOp := {|
  _compute_weights :=
    i <- the_input_shape ;;
    o <- the_output_shape ;;
    let out_axes_kept := range (num_dims i) in
    lift (_project_dims i o (Some out_axes_kept) None);
  configure := AbstractComputedShapeOperation_configure
|}.

(** *** Reorder *)

Record ReorderOp : Type := ReorderParams { _order : list Z }.

Definition Reorder (order : list Z) : obj ReorderOp :=
  Obj (ReorderParams order) None None.

#[global] Instance AbstractKeepShapeOperation_Reorder : AbstractComputedShapeOperation ReorderOp := {|
  _compute_output_shape := AbstractKeepShapeOperation_compute_output_shape
|}.

Definition Reorder_validate_user_inputs : method (obj ReorderOp) unit :=
  i <- the_input_shape ;;
  let num_dims_in := num_dims i in
  raise_if (num_dims_in <? 2) MisconfiguredOpError ;;
  r <- getattr (fun self => _order (params self)) ;;
  raise_if (negb (len r =? num_dims_in)) MisconfiguredOpError ;;
  for_each r (fun idx => raise_if (out_of_bounds (len i) idx) IndexError).

#[global] Instance Reorder_methods : AbstractOperation ReorderOp := {|
  _compute_weights :=
    i <- the_input_shape ;;
    o <- the_output_shape ;;
    r <- getattr (fun self => _order (params self)) ;;
    lift (_project_dims i o (Some r) None);
  configure := fun input_shape =>
    set_input_shape (Some input_shape) ;;
    Reorder_validate_user_inputs ;;
    _compute_output_shape input_shape
|}.

End Operations.


(** ** Vocabulary of the statements *)

(** The data model's invariant on a shape: every entry is at least 1. *)
Definition valid_shape (s : shape) : Prop := Forall (fun d => 1 <= d) s.

(** What a caller sees of [configure(input_shape)] on the instance [self]: the
    exception, or the [output_shape] the instance then has. *)
Definition configured {P : Type} (configure : shape -> method (obj P) unit)
    (self : obj P) (input_shape : shape) : result (option shape) :=
  match configure input_shape self with
  | (self', Ok _) => Ok (_output_shape self')
  | (_, Raise e) => Raise e
  end.

(** The shape handlers and the operations with their constructor arguments. *)
Inductive component : Type :=
| H_KeepShape
| H_ReduceDims (reduce_dims : int_or_tuple)
| H_ExpandDims (new_dims_shape : int_or_tuple)
| H_Reshape (output_shape : shape)
| H_Reorder (order : list Z)
| O_Weights (weight : Q)
| O_ReduceDims (reduce_dims : int_or_tuple) (reduce_method : option Operations.ReduceMethod)
| O_ExpandDims (new_dims_shape : int_or_tuple)
| O_Reshape (output_shape : shape)
| O_Reorder (order : list Z).

(** Construct the component and configure it. *)
Definition configure_component (c : component) (input_shape : shape)
  : result (option shape) :=
  match c with
  | H_KeepShape =>
      configured ShapeHandlers.configure ShapeHandlers.KeepShapeHandler input_shape
  | H_ReduceDims r =>
      configured ShapeHandlers.configure (ShapeHandlers.ReduceDimsHandler r) input_shape
  | H_ExpandDims n =>
      configured ShapeHandlers.configure (ShapeHandlers.ExpandDimsHandler n) input_shape
  | H_Reshape o =>
      configured ShapeHandlers.configure (ShapeHandlers.ReshapeHandler o) input_shape
  | H_Reorder r =>
      configured ShapeHandlers.configure (ShapeHandlers.ReorderHandler r) input_shape
  | O_Weights w =>
      configured Operations.configure (Operations.Weights w) input_shape
  | O_ReduceDims r m =>
      configured Operations.configure (Operations.ReduceDims r m) input_shape
  | O_ExpandDims n =>
      configured Operations.configure (Operations.ExpandDims n) input_shape
  | O_Reshape o =>
      configured Operations.AbstractSpecifiedShapeOperation_configure
                 (Operations.AbstractReshapeOperation_init o) input_shape
  | O_Reorder r =>
      configured Operations.configure (Operations.Reorder r) input_shape
  end.

(** The caller-supplied target shape of a Reshape component has no negative
    entry (no condition on the other components). *)
Definition target_nonnegative (c : component) : Prop :=
  match c with
  | H_Reshape o | O_Reshape o => Forall (fun d => 0 <= d) o
  | _ => True
  end.

(** [configure(input_shape)] followed by [compute_weights()]. *)
Definition weights_of {P : Type} `{Operations.AbstractOperation P}
    (self : obj P) (input_shape : shape) : result ndarray :=
  snd ((Operations.configure input_shape ;; Operations.compute_weights) self).

(** Two calls of [compute_weights()] in a row on [self]: the instance after
    each call and what each call returned or raised. *)
Definition compute_weights_twice {P : Type} `{Operations.AbstractOperation P}
    (self : obj P) : (obj P * result ndarray) * (obj P * result ndarray) :=
  let first := Operations.compute_weights self in
  (first, Operations.compute_weights (fst first)).

(** An axis index that addresses no axis of an [n]-dimensional shape, also
    when counted from the end. *)
Definition out_of_range (n idx : Z) : Prop := idx < - n \/ n <= idx.

(** [t[i]] on a tuple, with Python's end-relative negative indices. *)
Definition py_index (t : list Z) (i : Z) : Z :=
  nth (Z.to_nat (if i <? 0 then len t + i else i)) t 0.

(** The sum of a row, and the number of its nonzero entries. *)
Definition sumQ (l : list Q) : Q := fold_right Qplus 0%Q l.

Definition nonzero (x : Q) : bool := negb (Qeq_bool x 0).

Definition count_nonzero (l : list Q) : nat := length (filter nonzero l).

(** A method that leaves every attribute of the instance as it was. *)
Definition read_only {S A : Type} (m : method S A) : Prop :=
  forall s, fst (m s) = s.

(** Two calls of [compute_weights()] in a row leave the instance as it was
    and return the same matrix (or raise the same exception). *)
Definition repeatable {P : Type} `{Operations.AbstractOperation P} (self : obj P) : Prop :=
  let calls := compute_weights_twice self in
  fst (fst calls) = self /\ fst (snd calls) = self /\ snd (fst calls) = snd (snd calls).

(** ** Vocabulary of the projection proofs *)

(** The entries of [l] at the positions where [mask] is [true]. *)
Fixpoint select {A : Type} (mask : list bool) (l : list A) : list A :=
  match mask, l with
  | b :: mask', x :: l' => if b then x :: select mask' l' else select mask' l'
  | _, _ => []
  end.

(** Which of the [n] positions from [pos] on [np.delete] keeps, given the
    normalised indices [drop]. *)
Fixpoint mask_from (drop : list Z) (pos : Z) (n : nat) : list bool :=
  match n with
  | O => []
  | S n' => negb (mem pos drop) :: mask_from drop (pos + 1) n'
  end.

(** The sizes of the axes of [s] that [reduce_dims] names, each axis once. *)
Definition reduced_sizes (s : shape) (reduce_dims : list Z) : list Z :=
  match mapM (normalize_index (len s)) reduce_dims with
  | Ok drop => select (map negb (mask_from drop 0 (length s))) s
  | Raise _ => []
  end.

(** Equality of two multi-indices. *)
Fixpoint eqb_list (l1 l2 : list Z) : bool :=
  match l1, l2 with
  | [], [] => true
  | x :: l1', y :: l2' => (x =? y) && eqb_list l1' l2'
  | _, _ => false
  end.

(** Write 1 at every entry of an array of shape [sh] whose multi-index
    satisfies [S]. *)
Definition paint (sh : list Z) (S : list Z -> bool) (d : list Q) : list Q :=
  map (fun '(k, x) => if S (unravel sh k) then 1%Q else x) (combine (range (len d)) d).

(** A multi-index within the bounds of a shape. *)
Definition in_box (u : list Z) (sh : list Z) : Prop :=
  Forall2 (fun x d => 0 <= x < d) u sh.

(** The entries [_project_dims] sets to 1 when the kept input axes are those
    of [mask] and every output axis is kept: the multi-indices, output index
    [o] first, whose output part agrees with the kept part of the input part. *)
Definition on_diagonal (o : list Z) (mask : list bool) (m : list Z) : bool :=
  eqb_list (select mask (skipn (length o) m)) (firstn (length o) m).

(** How many elements of [L] satisfy [p]. *)
Definition cnt (p : Z -> bool) (L : list Z) : Z := len (filter p L).

(** ** Vocabulary of the state properties *)

(** The instance with the same constructor arguments and no shape yet. *)
Definition fresh {P : Type} (self : obj P) : obj P := Obj (params self) None None.

(** [configure] does not look at the shapes an earlier [configure] left: it
    raises or returns as on a fresh instance, and when it returns the
    instance is what a fresh one would have become. *)
Definition history_independent {P : Type} (configure : shape -> method (obj P) unit)
  : Prop :=
  forall (self : obj P) (s : shape),
    snd (configure s self) = snd (configure s (fresh self))
    /\ (snd (configure s self) = Ok tt ->
        fst (configure s self) = fst (configure s (fresh self))).

(** A failed [configure] leaves [_output_shape] as it was. *)
Definition keeps_output_on_failure {P : Type} (configure : shape -> method (obj P) unit)
  : Prop :=
  forall (self : obj P) (s : shape) (e : exn),
    snd (configure s self) = Raise e ->
    _output_shape (fst (configure s self)) = _output_shape self.

(** A failed [configure] has already stored the new input shape. *)
Definition stores_input_on_failure {P : Type} (configure : shape -> method (obj P) unit)
  : Prop :=
  forall (self : obj P) (s : shape) (e : exn),
    snd (configure s self) = Raise e ->
    _input_shape (fst (configure s self)) = Some s.

(** ** Vocabulary of the paired axes *)

(** The entries of [l] at the axes [ax], in the order of [ax]. *)
Definition gather (d : Z) (ax : list Z) (l : list Z) : list Z :=
  map (fun a => nth (Z.to_nat a) l d) ax.

(** The entries [_project_dims] sets to 1 when output axis [A[j]] is paired
    with input axis [B[j]]: the multi-indices, output index first ([no]
    entries), whose input part at [B] agrees with the output part at [A]. *)
Definition paired (A B : list Z) (no : nat) (m : list Z) : bool :=
  eqb_list (gather (-1) B (skipn no m)) (gather (-1) A (firstn no m)).

(** [np.ravel_multi_index(u, sh)]: the row-major position of the multi-index
    [u] in an array of shape [sh]. *)
Fixpoint ravel (sh u : list Z) : Z :=
  match sh, u with
  | _ :: sh', x :: u' => x * size_of sh' + ravel sh' u'
  | _, _ => 0
  end.

(** ** inputs/gauss_pattern/process.py *)

From Stdlib Require String.
Import (notations) String.

(** A [mean] or [stddev] argument: a float or an int, or a list of floats.
    Floats are exact rationals here, as the entries of the weight matrices
    are; [float(param)] is then the identity. *)
Inductive float_or_list : Type :=
| PyFloat (x : Q)
| PyList (l : list Q).

Module GaussPattern.

(** [GaussPattern._validate_param(shape, param_name, param)]; [shape] is the
    one-dimensional array of the sizes, so [shape.shape[0]] is its length, and
    [param_name] only appears in the messages. *)
Definition _validate_param (shape : list Z) (param_name : String.string)
    (param : float_or_list) : result (list Q) :=
  let param :=
    match param with
    | PyFloat x => [x]
    | PyList l => l
    end in
  if len param =? 1 then
    let param_val := nth 0 param 0%Q in
    ret (map (fun _ => param_val) (range (len shape)))
  else if 1 <? len param then
    if negb (len param =? len shape) then Raise ValueError
    else ret param
  else Raise ValueError.

End GaussPattern.

(** [compute_weights] on [self] raises AssertionError and leaves [self] as
    it is. *)
Definition guarded {P : Type} `{Operations.AbstractOperation P} (self : obj P) : Prop :=
  Operations.compute_weights self = (self, Raise AssertionError).

(** The same for [assert_configured] of a shape handler. *)
Definition handler_guarded {P : Type} (self : obj P) : Prop :=
  ShapeHandlers.assert_configured self = (self, Raise AssertionError).

(** * Properties *)

(** ** Loops and NumPy primitives *)

Lemma for_each_raise_if {S : Type} (c : Z -> bool) (e : exn) (xs : list Z) (s : S) :
  for_each xs (fun x => raise_if (c x) e) s
  = (s, if existsb c xs then Raise e else Ok tt).
Proof.
  induction xs as [|x xs IH]; [reflexivity|].
  cbn. unfold raise_if at 1. destruct (c x); cbn; [reflexivity|]. exact IH.
Qed.

Lemma out_of_bounds_spec (n idx : Z) :
  0 <= n -> (out_of_bounds n idx = true <-> out_of_range n idx).
Proof.
  unfold out_of_bounds, out_of_range. intros Hn.
  destruct (Z.ltb_spec idx 0);
    rewrite orb_true_iff, Z.ltb_lt, Z.leb_le; lia.
Qed.

Lemma len_nonneg {A : Type} (t : list A) : 0 <= len t.
Proof. unfold len. lia. Qed.

Lemma existsb_out_of_bounds (n : Z) (xs : list Z) :
  0 <= n -> Exists (out_of_range n) xs -> existsb (out_of_bounds n) xs = true.
Proof.
  intros Hn Hex. apply existsb_exists. apply Exists_exists in Hex.
  destruct Hex as [x [Hin Hx]]. exists x. split; [exact Hin|].
  now apply out_of_bounds_spec.
Qed.

Lemma normalize_index_ok (n i j : Z) :
  normalize_index n i = Ok j -> 0 <= j < n.
Proof.
  unfold normalize_index.
  destruct (Z.ltb_spec i (- n)); cbn; [discriminate|].
  destruct (Z.leb_spec n i); cbn; [discriminate|].
  destruct (Z.ltb_spec i 0); intros [= <-]; lia.
Qed.

Lemma drop_positions_Forall {A : Type} (Q : A -> Prop) (drop : list Z) (arr : list A) :
  forall pos, Forall Q arr -> Forall Q (drop_positions drop pos arr).
Proof.
  induction arr as [|x arr IH]; intros pos Hall; cbn; [constructor|].
  inversion Hall; subst. destruct (mem pos drop); auto.
Qed.

Lemma np_delete_Forall {A : Type} (Q : A -> Prop) (arr out : list A) (obj : list Z) :
  np_delete arr obj = Ok out -> Forall Q arr -> Forall Q out.
Proof.
  unfold np_delete. cbn. destruct (mapM _ obj); [|discriminate].
  intros [= <-]. apply drop_positions_Forall.
Qed.

Lemma np_take_Forall (Q : Z -> Prop) (arr : list Z) (idx : list Z) :
  forall out, np_take arr idx = Ok out -> Forall Q arr -> Forall Q out.
Proof.
  unfold np_take. induction idx as [|i idx IH]; cbn; intros out Hout Hall.
  - injection Hout as <-. constructor.
  - destruct (normalize_index (len arr) i) as [j|] eqn:Hj; [|discriminate].
    cbn in Hout. destruct (mapM _ idx) as [ys|]; [|discriminate].
    injection Hout as <-. constructor; [|now apply IH].
    apply normalize_index_ok in Hj. rewrite Forall_forall in Hall.
    apply Hall, nth_In. unfold len in Hj. lia.
Qed.

Ltac unfold_configure :=
  unfold configure_component, configured,
    ShapeHandlers.configure, Operations.configure,
    Operations.AbstractSpecifiedShapeOperation_configure,
    Operations.AbstractComputedShapeOperation_configure,
    Operations.AbstractReshapeOperation_init,
    Operations.AbstractSpecifiedShapeOperation_init,
    ShapeHandlers.KeepShapeHandler, ShapeHandlers.ReduceDimsHandler,
    ShapeHandlers.ExpandDimsHandler, ShapeHandlers.ReshapeHandler,
    ShapeHandlers.ReorderHandler,
    Operations.Weights, Operations.ReduceDims, Operations.ExpandDims,
    Operations.Reorder.

Lemma Reshape_configure_eq (input_shape target : shape) :
  configure_component (H_Reshape target) input_shape
  = (if num_neurons input_shape =? num_neurons target
     then Ok (Some target) else Raise MisconfiguredOpError)
  /\ configure_component (O_Reshape target) input_shape
  = (if num_neurons input_shape =? num_neurons target
     then Ok (Some target) else Raise MisconfiguredOpError).
Proof.
  split; unfold_configure; cbn;
    destruct (num_neurons input_shape =? num_neurons target); reflexivity.
Qed.

Lemma len_app {A : Type} (l1 l2 : list A) : len (l1 ++ l2) = len l1 + len l2.
Proof. unfold len. rewrite length_app. lia. Qed.

Lemma len_zero_nil {A : Type} (l : list A) : (len l =? 0) = true -> l = [].
Proof. destruct l; [reflexivity|]. unfold len. rewrite Z.eqb_eq. cbn [length]. lia. Qed.

Lemma existsb_lt1_valid (n : list Z) : valid_shape n -> existsb (fun s => s <? 1) n = false.
Proof.
  induction 1 as [|x n Hx Hn IH]; [reflexivity|].
  cbn. rewrite IH, orb_false_r. apply Z.ltb_ge. exact Hx.
Qed.

Lemma valid_existsb_lt1 (n : list Z) : existsb (fun s => s <? 1) n = false -> valid_shape n.
Proof.
  induction n as [|x n IH]; cbn; [constructor|].
  rewrite orb_false_iff, Z.ltb_ge. intros [Hx Hn]. constructor; [exact Hx | now apply IH].
Qed.

(** ** What [configure] returns, check by check *)

Lemma KeepShape_configure (input_shape : shape) (w : Q) :
  configure_component H_KeepShape input_shape = Ok (Some input_shape)
  /\ configure_component (O_Weights w) input_shape = Ok (Some input_shape).
Proof. split; reflexivity. Qed.

Lemma ReduceDims_configure (input_shape : shape) (a : int_or_tuple)
    (m : option Operations.ReduceMethod) :
  forall c, c = H_ReduceDims a \/ c = O_ReduceDims a m ->
  configure_component c input_shape
  = if num_dims input_shape =? 0 then Raise MisconfiguredOpError
    else if len (tuple_of a) =? 0 then Raise ValueError
    else if len input_shape <? len (tuple_of a) then Raise ValueError
    else if existsb (out_of_bounds (len input_shape)) (tuple_of a) then Raise IndexError
    else match np_delete input_shape (tuple_of a) with
         | Ok [] => Ok (Some [1])
         | Ok o => Ok (Some o)
         | Raise e => Raise e
         end.
Proof.
  intros c [-> | ->]; unfold_configure; cbn;
    (destruct (num_dims input_shape =? 0); cbn; [reflexivity|]);
    (destruct (len (tuple_of a) =? 0); cbn; [reflexivity|]);
    (destruct (len input_shape <? len (tuple_of a)); cbn; [reflexivity|]);
    rewrite for_each_raise_if;
    (destruct (existsb _ (tuple_of a)); cbn; [reflexivity|]);
    unfold np_delete; cbn;
    (destruct (mapM _ (tuple_of a)); cbn; [|reflexivity]);
    destruct (drop_positions _ 0 input_shape); reflexivity.
Qed.

Lemma ExpandDims_configure (input_shape : shape) (a : int_or_tuple) :
  forall c, c = H_ExpandDims a \/ c = O_ExpandDims a ->
  configure_component c input_shape
  = if len (tuple_of a) =? 0 then Raise ValueError
    else if existsb (fun s => s <? 1) (tuple_of a) then Raise ValueError
    else if 3 <? num_dims input_shape + num_dims (tuple_of a)
    then Raise NotImplementedError
    else Ok (Some (input_shape ++ tuple_of a)).
Proof.
  intros c [-> | ->]; unfold_configure; cbn;
    (destruct (len (tuple_of a) =? 0); cbn; [reflexivity|]);
    (destruct (existsb _ (tuple_of a)); cbn; [reflexivity|]);
    (destruct (num_dims input_shape =? 0) eqn:Hdim;
     [apply len_zero_nil in Hdim; subst input_shape|]);
    cbn; unfold num_dims; rewrite ?len_app; cbn;
    match goal with |- context [3 <? ?n] => destruct (3 <? n) end; reflexivity.
Qed.

Lemma Reorder_configure (input_shape order : list Z) :
  forall c, c = H_Reorder order \/ c = O_Reorder order ->
  configure_component c input_shape
  = if num_dims input_shape <? 2 then Raise MisconfiguredOpError
    else if negb (len order =? num_dims input_shape) then Raise MisconfiguredOpError
    else if existsb (out_of_bounds (len input_shape)) order then Raise IndexError
    else match c with
         | H_Reorder _ =>
             match np_take input_shape order with
             | Ok o => Ok (Some o)
             | Raise e => Raise e
             end
         | _ => Ok (Some input_shape)
         end.
Proof.
  intros c [-> | ->]; unfold_configure; cbn;
    (destruct (num_dims input_shape <? 2); cbn; [reflexivity|]);
    (destruct (len order =? num_dims input_shape); cbn; [|reflexivity]);
    rewrite for_each_raise_if;
    (destruct (existsb _ order); cbn; [reflexivity|]);
    try reflexivity.
  unfold np_take; cbn. destruct (mapM _ order); reflexivity.
Qed.

(** C7.  For every input shape and every non-empty [new_dims_shape] whose
    entries are all at least 1, [configure] of the ExpandDims handler and of the
    ExpandDims operation raises [NotImplementedError] exactly when
    [num_dims(input_shape) + num_dims(new_dims_shape)] exceeds 3; otherwise it
    succeeds with the new dimensions appended to the input shape. *)
Theorem ExpandDims_dimensionality_ceiling (input_shape : shape) (a : int_or_tuple) :
  tuple_of a <> [] -> valid_shape (tuple_of a) ->
  forall c, c = H_ExpandDims a \/ c = O_ExpandDims a ->
  (configure_component c input_shape = Raise NotImplementedError
   <-> 3 < num_dims input_shape + num_dims (tuple_of a))
  /\ (num_dims input_shape + num_dims (tuple_of a) <= 3
      -> configure_component c input_shape = Ok (Some (input_shape ++ tuple_of a))).
Proof.
  intros Hne Hvalid c Hc.
  rewrite (ExpandDims_configure input_shape a c Hc).
  destruct (len (tuple_of a) =? 0) eqn:Hlen;
    [apply len_zero_nil in Hlen; contradiction|].
  rewrite (existsb_lt1_valid _ Hvalid).
  destruct (Z.ltb_spec 3 (num_dims input_shape + num_dims (tuple_of a))); split.
  - split; [lia | reflexivity].
  - lia.
  - split; [discriminate | lia].
  - reflexivity.
Qed.

(** C3, as amended.  For every input shape of dimensionality at least 2,
    [configure] of the Reorder handler and of the Reorder operation with an
    [order] that holds an index out of range (also when counted from the end)
    raises [IndexError] when [order] has as many entries as the input shape,
    and [MisconfiguredOpError] when it has not. *)
Theorem Reorder_rejects_out_of_range (input_shape order : list Z) :
  2 <= num_dims input_shape ->
  Exists (out_of_range (num_dims input_shape)) order ->
  forall c, c = H_Reorder order \/ c = O_Reorder order ->
  configure_component c input_shape
  = Raise (if len order =? num_dims input_shape then IndexError
           else MisconfiguredOpError).
Proof.
  intros Hdims Hex c Hc.
  rewrite (Reorder_configure input_shape order c Hc).
  destruct (Z.ltb_spec (num_dims input_shape) 2); [lia|].
  destruct (len order =? num_dims input_shape); cbn; [|reflexivity].
  rewrite existsb_out_of_bounds; auto using len_nonneg.
Qed.

(** Case analysis on the next test or call a [configure] run depends on. *)
Ltac next_case H :=
  match type of H with
  | context [if ?b then _ else _] =>
      let E := fresh "E" in destruct b eqn:E; cbv beta iota in H
  | context [match ?r with Ok _ => _ | Raise _ => _ end] =>
      let E := fresh "E" in destruct r eqn:E; cbv beta iota in H
  | context [match ?l with [] => _ | _ :: _ => _ end] =>
      let E := fresh "E" in destruct l eqn:E; cbv beta iota in H
  end.

Lemma valid_shape_app (s1 s2 : shape) :
  valid_shape s1 -> valid_shape s2 -> valid_shape (s1 ++ s2).
Proof. unfold valid_shape. intros. apply Forall_app. now split. Qed.

Lemma valid_shape_one : valid_shape [1].
Proof. constructor; [lia | constructor]. Qed.

Create HintDb shapes.
#[local] Hint Resolve valid_shape_app valid_shape_one valid_existsb_lt1 : shapes.
#[local] Hint Extern 1 (valid_shape _) =>
  match goal with
  | H : np_delete _ _ = Ok _ |- _ => eapply np_delete_Forall; [exact H|]
  | H : np_take _ _ = Ok _ |- _ => eapply np_take_Forall; [exact H|]
  end : shapes.

Lemma num_neurons_valid (s : shape) : valid_shape s -> 1 <= num_neurons s.
Proof.
  induction 1 as [|d s Hd Hs IH]; cbn; [lia|].
  change (fold_right Z.mul 1 s) with (num_neurons s). nia.
Qed.

Lemma num_neurons_nonnegative (t : shape) :
  Forall (fun d => 0 <= d) t -> 0 <= num_neurons t.
Proof.
  induction 1 as [|d t Hd Ht IH]; cbn; [lia|].
  change (fold_right Z.mul 1 t) with (num_neurons t). nia.
Qed.

(** A shape without negative entries and with at least one neuron has no
    zero entry either. *)
Lemma nonnegative_target_valid (t : shape) :
  Forall (fun d => 0 <= d) t -> 1 <= num_neurons t -> valid_shape t.
Proof.
  induction 1 as [|d t Hd Ht IH]; intros Hp; [constructor|].
  cbn in Hp. change (fold_right Z.mul 1 t) with (num_neurons t) in Hp.
  pose proof (num_neurons_nonnegative t Ht) as Hn.
  constructor; [nia | apply IH; nia].
Qed.

Lemma Reshape_target_valid (input_shape target : shape) :
  valid_shape input_shape -> Forall (fun d => 0 <= d) target ->
  (num_neurons input_shape =? num_neurons target) = true -> valid_shape target.
Proof.
  intros Hin Ht E. apply Z.eqb_eq in E. apply nonnegative_target_valid; [exact Ht|].
  rewrite <- E. now apply num_neurons_valid.
Qed.

(** C5, as amended.  For every shape handler and operation, with any
    constructor argument, and every input shape whose entries are all at least
    1: when [configure] succeeds, every entry of the resulting [output_shape]
    is at least 1, provided that the target shape given to a Reshape component
    has no negative entry.  A zero in the target needs no proviso: the check
    of the element count refuses it. *)
Theorem configure_preserves_valid_shape
    (c : component) (input_shape : shape) (o : option shape) :
  valid_shape input_shape -> target_nonnegative c ->
  configure_component c input_shape = Ok o ->
  exists out, o = Some out /\ valid_shape out.
Proof.
  intros Hin Htarget Hconf.
  destruct c as [|reduce_dims|new_dims_shape|target|order
                |weight|reduce_dims reduce_method|new_dims_shape|target|order];
    cbn in Htarget;
    [ rewrite (proj1 (KeepShape_configure input_shape 0%Q)) in Hconf
    | rewrite (ReduceDims_configure input_shape reduce_dims None _ (or_introl eq_refl)) in Hconf
    | rewrite (ExpandDims_configure input_shape new_dims_shape _ (or_introl eq_refl)) in Hconf
    | rewrite (proj1 (Reshape_configure_eq input_shape target)) in Hconf
    | rewrite (Reorder_configure input_shape order _ (or_introl eq_refl)) in Hconf
    | rewrite (proj2 (KeepShape_configure input_shape weight)) in Hconf
    | rewrite (ReduceDims_configure input_shape reduce_dims reduce_method _ (or_intror eq_refl)) in Hconf
    | rewrite (ExpandDims_configure input_shape new_dims_shape _ (or_intror eq_refl)) in Hconf
    | rewrite (proj2 (Reshape_configure_eq input_shape target)) in Hconf
    | rewrite (Reorder_configure input_shape order _ (or_intror eq_refl)) in Hconf ];
    repeat next_case Hconf; try discriminate;
    injection Hconf as <-; eexists; (split; [reflexivity|]);
    eauto using Reshape_target_valid with shapes.
Qed.

(** ** Weights *)

Lemma range_length (n : Z) : length (range n) = Z.to_nat n.
Proof. unfold range. now rewrite length_map, length_seq. Qed.

Lemma range_nth (n : Z) (i : nat) (d : Z) :
  (i < Z.to_nat n)%nat -> nth i (range n) d = Z.of_nat i.
Proof.
  intros Hi. unfold range.
  rewrite (nth_indep _ d (Z.of_nat 0)) by now rewrite length_map, length_seq.
  rewrite map_nth, seq_nth by exact Hi. reflexivity.
Qed.

Lemma firstn_length_app {A : Type} (l r : list A) : firstn (length l) (l ++ r) = l.
Proof. induction l as [|x l IH]; cbn; [reflexivity | now rewrite IH]. Qed.

Lemma skipn_length_app {A : Type} (l r : list A) : skipn (length l) (l ++ r) = r.
Proof. induction l as [|x l IH]; cbn; [reflexivity | exact IH]. Qed.

Lemma chunks_flat_map {A B : Type} (f : A -> list B) (n : nat) (xs : list A) :
  (forall x, length (f x) = n) ->
  chunks n (length xs) (flat_map f xs) = map f xs.
Proof.
  intros Hlen. induction xs as [|x xs IH]; cbn; [reflexivity|].
  rewrite <- (Hlen x) at 1 3.
  rewrite firstn_length_app, skipn_length_app. now rewrite IH.
Qed.

Lemma map_flat_map {A B C : Type} (g : B -> C) (f : A -> list B) (xs : list A) :
  map g (flat_map f xs) = flat_map (fun x => map g (f x)) xs.
Proof.
  induction xs as [|x xs IH]; cbn; [reflexivity|]. now rewrite map_app, IH.
Qed.

Lemma np_eye_scaled_entry (N : Z) (w : Q) (e : ndarray) (i j : nat) :
  np_eye N N = Ok e ->
  (i < Z.to_nat N)%nat -> (j < Z.to_nat N)%nat ->
  (entry (np_mul e w) i j == if Nat.eqb i j then w else 0)%Q.
Proof.
  unfold np_eye. destruct ((N <? 0) || (N <? 0)); [discriminate|].
  intros [= <-] Hi Hj. unfold entry, rows, np_mul. cbn [nd_shape nd_data].
  rewrite map_flat_map.
  rewrite <- (range_length N) at 2.
  rewrite chunks_flat_map by (intros; now rewrite !length_map, range_length).
  rewrite (nth_indep _ [] ((fun x => map (fun x0 => (x0 * w)%Q)
             (map (fun j0 => if x =? j0 then 1%Q else 0%Q) (range N))) 0))
    by now rewrite length_map, range_length.
  rewrite (map_nth (fun x => map _ (map _ (range N)))), range_nth by exact Hi.
  rewrite map_map.
  rewrite (nth_indep _ 0%Q ((fun x => ((if Z.of_nat i =? x then 1 else 0) * w)%Q) 0))
    by now rewrite length_map, range_length.
  rewrite (map_nth (fun x => ((if Z.of_nat i =? x then 1 else 0) * w)%Q)),
    range_nth by exact Hj.
  destruct (Nat.eqb_spec i j) as [->|Hne].
  - rewrite Z.eqb_refl. ring.
  - destruct (Z.eqb_spec (Z.of_nat i) (Z.of_nat j)); [lia|]. ring.
Qed.

(** C8.  For a Weights operation with weight [w] configured with an input
    shape [s]: [output_shape] is [s], and [compute_weights] returns the
    [N]-by-[N] matrix, [N = num_neurons(s)], whose entry at row [i] and column
    [j] is [w] when [i = j] and 0 otherwise. *)
Theorem Weights_scaled_identity (w : Q) (s : shape) :
  valid_shape s ->
  configure_component (O_Weights w) s = Ok (Some s)
  /\ exists m, weights_of (Operations.Weights w) s = Ok m
       /\ nd_shape m = [num_neurons s; num_neurons s]
       /\ forall i j : nat,
            (i < Z.to_nat (num_neurons s))%nat -> (j < Z.to_nat (num_neurons s))%nat ->
            (entry m i j == if Nat.eqb i j then w else 0)%Q.
Proof.
  intros Hs. apply num_neurons_valid in Hs. split; [reflexivity|].
  unfold weights_of. cbn.
  destruct (np_eye (num_neurons s) (num_neurons s)) as [e|] eqn:He; cbn.
  - exists (np_mul e w). split; [reflexivity|]. split.
    + unfold np_eye in He. destruct (_ || _); [discriminate|].
      now injection He as <-.
    + intros i j. now apply np_eye_scaled_entry.
  - unfold np_eye in He.
    destruct (Z.ltb_spec (num_neurons s) 0); [lia|]. discriminate.
Qed.

(** ** Methods that only read *)

Section ReadOnly.
Context {S : Type}.

Lemma read_only_ret {A : Type} (a : A) : read_only (ret a : method S A).
Proof. intros s. reflexivity. Qed.

Lemma read_only_raise {A : Type} (e : exn) : read_only (raise e : method S A).
Proof. intros s. reflexivity. Qed.

Lemma read_only_lift {A : Type} (r : result A) : read_only (lift r : method S A).
Proof. intros s. reflexivity. Qed.

Lemma read_only_getattr {A : Type} (f : S -> A) : read_only (getattr f).
Proof. intros s. reflexivity. Qed.

Lemma read_only_bind {A B : Type} (m : method S A) (k : A -> method S B) :
  read_only m -> (forall a, read_only (k a)) -> read_only (x <- m ;; k x).
Proof.
  intros Hm Hk s. cbn. specialize (Hm s).
  destruct (m s) as [s' [a|e]]; cbn in Hm; subst s'; [apply Hk | reflexivity].
Qed.
End ReadOnly.

Create HintDb read_only.
#[local] Hint Resolve read_only_ret read_only_raise read_only_lift read_only_getattr
  : read_only.
#[local] Hint Extern 2 (read_only (bind _ _)) =>
  apply read_only_bind; [| intro] : read_only.
#[local] Hint Extern 3 (read_only (match ?x with _ => _ end)) => destruct x : read_only.

Lemma the_input_shape_read_only {P : Type} :
  read_only (the_input_shape : method (obj P) shape).
Proof. unfold the_input_shape. auto with read_only. Qed.

Lemma the_output_shape_read_only {P : Type} :
  read_only (the_output_shape : method (obj P) shape).
Proof. unfold the_output_shape. auto with read_only. Qed.

#[local] Hint Resolve the_input_shape_read_only the_output_shape_read_only : read_only.

Lemma compute_weights_read_only {P : Type} `{Operations.AbstractOperation P} :
  read_only Operations._compute_weights -> read_only Operations.compute_weights.
Proof. intros Hw. unfold Operations.compute_weights. auto 8 with read_only. Qed.

Lemma read_only_repeatable {P : Type} `{Operations.AbstractOperation P} :
  read_only Operations._compute_weights -> forall self : obj P, repeatable self.
Proof.
  intros Hw self. pose proof (compute_weights_read_only Hw self) as Hfst.
  unfold repeatable, compute_weights_twice. cbn [fst snd].
  rewrite Hfst. auto.
Qed.

(** C10.  For every instance of Weights, ReduceDims, ExpandDims and Reorder,
    configured or not: two calls of [compute_weights()] in a row return the
    same matrix (or raise the same exception), and the instance, its shapes
    included, is after each call what it was before. *)
Theorem compute_weights_repeatable :
  (forall self : obj Operations.WeightsOp, repeatable self)
  /\ (forall self : obj Operations.ReduceDimsOp, repeatable self)
  /\ (forall self : obj Operations.ExpandDimsOp, repeatable self)
  /\ (forall self : obj Operations.ReorderOp, repeatable self).
Proof.
  repeat split; apply read_only_repeatable;
    cbv [Operations._compute_weights Operations.Weights_methods
         Operations.ReduceDims_methods Operations.ExpandDims_methods
         Operations.Reorder_methods];
    auto 12 with read_only.
Qed.

(** ** Reorder *)

Lemma np_take_spec (arr idx : list Z) :
  forall out, np_take arr idx = Ok out ->
  length out = length idx
  /\ forall i : nat, (i < length idx)%nat ->
       nth i out 0 = py_index arr (nth i idx 0).
Proof.
  unfold np_take. induction idx as [|x idx IH]; cbn; intros out Hout.
  - injection Hout as <-. split; [reflexivity | intros i Hi; lia].
  - destruct (normalize_index (len arr) x) as [j|] eqn:Hj; [|discriminate].
    cbn in Hout. destruct (mapM _ idx) as [ys|]; [|discriminate].
    injection Hout as <-. destruct (IH ys eq_refl) as [Hlen Hnth].
    split; [cbn; now rewrite Hlen|].
    intros [|i] Hi; cbn.
    + unfold normalize_index in Hj. destruct (_ || _); [discriminate|].
      injection Hj as <-. unfold py_index.
      destruct (x <? 0); [now rewrite Z.add_comm | reflexivity].
    + apply Hnth. lia.
Qed.

(** The Reorder shape handler: when [configure] succeeds, the output shape has
    as many entries as the input shape and [output_shape[i]] is
    [input_shape[order[i]]] at every position [i]. *)
Theorem ReorderHandler_output_shape (input_shape order out : list Z) :
  configure_component (H_Reorder order) input_shape = Ok (Some out) ->
  len out = len input_shape
  /\ forall i : nat, (i < length out)%nat ->
       nth i out 0 = py_index input_shape (nth i order 0).
Proof.
  rewrite (Reorder_configure input_shape order _ (or_introl eq_refl)).
  destruct (num_dims input_shape <? 2); [discriminate|].
  destruct (len order =? num_dims input_shape) eqn:Hlen; [|discriminate].
  cbn. destruct (existsb _ order); [discriminate|].
  destruct (np_take input_shape order) as [o|] eqn:Htake; [|discriminate].
  intros [= ->]. destruct (np_take_spec _ _ _ Htake) as [Hl Hnth].
  apply Z.eqb_eq in Hlen. unfold num_dims in Hlen. split.
  - unfold len in *. lia.
  - intros i Hi. apply Hnth. lia.
Qed.

(** The handler at input shape (2, 3, 4) and order (2, 0, 1). *)
Lemma ReorderHandler_output_shape_witness :
  len [4; 2; 3] = len [2; 3; 4]
  /\ forall i : nat, (i < length [4; 2; 3])%nat ->
       nth i [4; 2; 3] 0 = py_index [2; 3; 4] (nth i [2; 0; 1] 0).
Proof. apply (ReorderHandler_output_shape [2; 3; 4] [2; 0; 1] [4; 2; 3]). reflexivity. Defined.

(** C1, on the code.  Configured with input shape (2, 3, 4) and order
    (2, 0, 1), the Reorder operation has output shape (2, 3, 4): it inherits
    [AbstractKeepShapeOperation._compute_output_shape].  The Reorder shape
    handler, with the same arguments, has (4, 2, 3).  With the shape kept,
    [compute_weights] of the operation then indexes past the end of an axis
    and raises [IndexError]. *)
Theorem Reorder_operation_output_shape_234 :
  configure_component (O_Reorder [2; 0; 1]) [2; 3; 4] = Ok (Some [2; 3; 4])
  /\ configure_component (H_Reorder [2; 0; 1]) [2; 3; 4] = Ok (Some [4; 2; 3])
  /\ weights_of (Operations.Reorder [2; 0; 1]) [2; 3; 4] = Raise IndexError.
Proof. repeat split; vm_compute; reflexivity. Qed.

(** The Reorder operation: whenever [configure] succeeds, the output shape is
    the input shape, whatever the order. *)
Theorem Reorder_operation_keeps_shape (input_shape order : list Z) :
  match configure_component (O_Reorder order) input_shape with
  | Ok o => o = Some input_shape
  | Raise _ => True
  end.
Proof.
  rewrite (Reorder_configure input_shape order _ (or_intror eq_refl)).
  repeat match goal with |- context [if ?b then _ else _] => destruct b end;
    exact I || reflexivity.
Qed.

(** ** ReduceDims, Reshape and ExpandDims on concrete shapes *)

(** C2, on the code.  ReduceDims with [reduce_dims = (1,)] on input shape
    (2, 3): with SUM every row of the 2-by-6 weight matrix sums to 3, the size
    of the reduced axis; with MEAN every row sums to 1/2, not to 1, since the
    weights are divided by [num_neurons(input_shape) = 6]. *)
Theorem ReduceDims_row_sums_23 :
  (exists m, weights_of (Operations.ReduceDims (PyTuple [1]) (Some Operations.SUM)) [2; 3] = Ok m
     /\ nd_shape m = [2; 6]
     /\ map sumQ (rows m) = [3%Q; 3%Q])
  /\ (exists m, weights_of (Operations.ReduceDims (PyTuple [1]) (Some Operations.MEAN)) [2; 3] = Ok m
     /\ nd_shape m = [2; 6]
     /\ map (fun r => Qred (sumQ r)) (rows m) = [1 # 2; 1 # 2]
     /\ Forall (fun r => ~ (sumQ r == 1)%Q) (rows m)).
Proof.
  split; eexists; (split; [vm_compute; reflexivity|]); repeat split;
    try (vm_compute; reflexivity).
  vm_compute. repeat constructor; discriminate.
Qed.

(** ReduceDims with every axis reduced, on input shape (5,): the output shape
    is (1,), which has one dimension, so [_project_dims] pairs the output axis
    with input axis 0 and the one row of the SUM matrix is (1, 0, 0, 0, 0). *)
Example ReduceDims_full_reduction_5 :
  exists m, weights_of (Operations.ReduceDims (PyInt 0) (Some Operations.SUM)) [5] = Ok m
    /\ rows m = [[1; 0; 0; 0; 0]]%Q.
Proof. eexists. split; vm_compute; reflexivity. Qed.

(** Reshape from (2, 6): to (3, 4) it succeeds, to (3, 5) it raises
    [MisconfiguredOpError]. *)
Example Reshape_26_34 :
  configure_component (H_Reshape [3; 4]) [2; 6] = Ok (Some [3; 4])
  /\ configure_component (O_Reshape [3; 4]) [2; 6] = Ok (Some [3; 4])
  /\ configure_component (H_Reshape [3; 5]) [2; 6] = Raise MisconfiguredOpError
  /\ configure_component (O_Reshape [3; 5]) [2; 6] = Raise MisconfiguredOpError.
Proof. repeat split. Qed.

(** C6.  For every input shape and target output shape, [configure] of the
    Reshape handler and of the Reshape operation succeeds if and only if
    [num_neurons(input_shape) = num_neurons(output_shape)]; then the output
    shape is the one given; otherwise it raises [MisconfiguredOpError]. *)
Theorem Reshape_configure_element_count (input_shape target : shape) :
  let handler := configure_component (H_Reshape target) input_shape in
  let operation := configure_component (O_Reshape target) input_shape in
  (((exists o, handler = Ok o) <-> num_neurons input_shape = num_neurons target)
   /\ ((exists o, operation = Ok o) <-> num_neurons input_shape = num_neurons target))
  /\ (num_neurons input_shape = num_neurons target
      -> handler = Ok (Some target) /\ operation = Ok (Some target))
  /\ (num_neurons input_shape <> num_neurons target
      -> handler = Raise MisconfiguredOpError /\ operation = Raise MisconfiguredOpError).
Proof.
  cbv zeta. destruct (Reshape_configure_eq input_shape target) as [-> ->].
  destruct (Z.eqb_spec (num_neurons input_shape) (num_neurons target)) as [He|Hne].
  - repeat split; eauto; contradiction.
  - repeat split; try contradiction; intros [o Ho]; discriminate.
Qed.

(** C4, as amended.  ExpandDims with input shape (2,) and
    [new_dims_shape = (3,)]: the output shape is (2, 3); the weight matrix is
    6-by-2 and has [num_neurons(output) = 6] nonzero entries in all, 3 in the
    column of each input unit, each equal to 1. *)
Theorem ExpandDims_2_3_weights :
  configure_component (H_ExpandDims (PyTuple [3])) [2] = Ok (Some [2; 3])
  /\ configure_component (O_ExpandDims (PyTuple [3])) [2] = Ok (Some [2; 3])
  /\ exists m, weights_of (Operations.ExpandDims (PyTuple [3])) [2] = Ok m
       /\ nd_shape m = [num_neurons [2; 3]; num_neurons [2]]
       /\ rows m = [[1; 0]; [1; 0]; [1; 0]; [0; 1]; [0; 1]; [0; 1]]%Q
       /\ count_nonzero (nd_data m) = Z.to_nat (num_neurons [2; 3])
       /\ forall j : nat, (j < 2)%nat ->
            count_nonzero (column m j) = 3%nat
            /\ Forall (fun x => nonzero x = true -> x = 1%Q) (column m j).
Proof.
  split; [reflexivity|]. split; [reflexivity|].
  eexists. split; [vm_compute; reflexivity|].
  split; [reflexivity|]. split; [reflexivity|]. split; [reflexivity|].
  intros [|[|j]] Hj; [| | lia]; (split; [reflexivity|]);
    repeat constructor; discriminate.
Qed.

(** C4, as stated, fails: the column of an input unit does not have
    [num_neurons(output) = 6] nonzero entries. *)
Lemma ExpandDims_2_3_column_count :
  exists m, weights_of (Operations.ExpandDims (PyTuple [3])) [2] = Ok m
    /\ ~ (forall j : nat, (j < 2)%nat ->
            count_nonzero (column m j) = Z.to_nat (num_neurons [2; 3])).
Proof.
  eexists. split; [vm_compute; reflexivity|].
  intros Hall. specialize (Hall 0%nat ltac:(lia)). vm_compute in Hall. discriminate.
Qed.

(** C9.  On input shape (5,), ReduceDims with [reduce_dims = -1] and with
    [reduce_dims = 0], handler and operation, with either reduce method: both
    configurations succeed, with the same output shape (1,), and the two
    operations compute the same weight matrix. *)
Theorem ReduceDims_negative_index_5 (m : option Operations.ReduceMethod) :
  configure_component (H_ReduceDims (PyInt (-1))) [5] = Ok (Some [1])
  /\ configure_component (H_ReduceDims (PyInt 0)) [5] = Ok (Some [1])
  /\ configure_component (O_ReduceDims (PyInt (-1)) m) [5] = Ok (Some [1])
  /\ configure_component (O_ReduceDims (PyInt 0) m) [5] = Ok (Some [1])
  /\ exists w, weights_of (Operations.ReduceDims (PyInt (-1)) m) [5] = Ok w
       /\ weights_of (Operations.ReduceDims (PyInt 0) m) [5] = Ok w.
Proof.
  repeat (split; [reflexivity|]).
  destruct m as [[|]|]; eexists; split; vm_compute; reflexivity.
Qed.

(** ** Counterexamples and instances *)

(** C3, as stated, fails: on input shape (2, 3) the order (0, 0), which names
    axis 0 twice, is accepted by [configure] of the handler and of the
    operation. *)
Lemma Reorder_accepts_repeated_index :
  2 <= num_dims [2; 3]
  /\ has_duplicate [0; 0] = true
  /\ configure_component (H_Reorder [0; 0]) [2; 3] = Ok (Some [2; 2])
  /\ configure_component (O_Reorder [0; 0]) [2; 3] = Ok (Some [2; 3]).
Proof. repeat split. cbn. lia. Qed.

(** The rejection of out-of-range indices at input shape (2, 3). *)
Lemma Reorder_rejects_out_of_range_witness :
  configure_component (H_Reorder [0; 2]) [2; 3] = Raise IndexError
  /\ configure_component (O_Reorder [0; -3]) [2; 3] = Raise IndexError
  /\ configure_component (O_Reorder [0; 1; 7]) [2; 3] = Raise MisconfiguredOpError.
Proof.
  split; [|split].
  - apply (Reorder_rejects_out_of_range [2; 3] [0; 2]);
      [ vm_compute; discriminate
      | apply Exists_cons_tl, Exists_cons_hd; right; vm_compute; discriminate
      | left; reflexivity ].
  - apply (Reorder_rejects_out_of_range [2; 3] [0; -3]);
      [ vm_compute; discriminate
      | apply Exists_cons_tl, Exists_cons_hd; left; vm_compute; reflexivity
      | right; reflexivity ].
  - apply (Reorder_rejects_out_of_range [2; 3] [0; 1; 7]);
      [ vm_compute; discriminate
      | apply Exists_cons_tl, Exists_cons_tl, Exists_cons_hd; right;
        vm_compute; discriminate
      | right; reflexivity ].
Defined.

(** C5, as stated, fails: Reshape accepts the target (-2, -3) for the input
    shape (6,), both having product 6, and its output shape then has entries
    below 1. *)
Lemma Reshape_accepts_invalid_target :
  valid_shape [6]
  /\ configure_component (H_Reshape [-2; -3]) [6] = Ok (Some [-2; -3])
  /\ configure_component (O_Reshape [-2; -3]) [6] = Ok (Some [-2; -3])
  /\ ~ valid_shape [-2; -3].
Proof.
  split; [repeat constructor; lia|]. split; [reflexivity|]. split; [reflexivity|].
  intros H. inversion H; subst. lia.
Qed.

(** The invariant at ReduceDims(0) on (2, 3) and at Reshape to (3, 4) on
    (2, 6), where the target has no negative entry. *)
Lemma configure_preserves_valid_shape_witness :
  (exists out, Some [3] = Some out /\ valid_shape out)
  /\ (exists out, Some [3; 4] = Some out /\ valid_shape out).
Proof.
  split.
  - apply (configure_preserves_valid_shape (O_ReduceDims (PyInt 0) None) [2; 3] (Some [3]));
      [ repeat constructor; lia | exact I | reflexivity ].
  - apply (configure_preserves_valid_shape (H_Reshape [3; 4]) [2; 6] (Some [3; 4]));
      [ repeat constructor; lia | repeat constructor; lia | reflexivity ].
Defined.

(** The ceiling at input shape (2, 3): with new dimensions (4, 5) it is
    exceeded, with the new dimension 4 it is not. *)
Lemma ExpandDims_dimensionality_ceiling_witness :
  configure_component (H_ExpandDims (PyTuple [4; 5])) [2; 3] = Raise NotImplementedError
  /\ configure_component (O_ExpandDims (PyTuple [4; 5])) [2; 3] = Raise NotImplementedError
  /\ configure_component (O_ExpandDims (PyInt 4)) [2; 3] = Ok (Some [2; 3; 4]).
Proof.
  split; [|split].
  - apply (ExpandDims_dimensionality_ceiling [2; 3] (PyTuple [4; 5]));
      [ discriminate | repeat constructor; lia | left; reflexivity
      | vm_compute; reflexivity ].
  - apply (ExpandDims_dimensionality_ceiling [2; 3] (PyTuple [4; 5]));
      [ discriminate | repeat constructor; lia | right; reflexivity
      | vm_compute; reflexivity ].
  - apply (ExpandDims_dimensionality_ceiling [2; 3] (PyInt 4));
      [ discriminate | repeat constructor; lia | right; reflexivity
      | vm_compute; discriminate ].
Defined.

(** Weights(weight=2.5) on input shape (4,): 2.5 times the 4-by-4 identity. *)
Lemma Weights_scaled_identity_witness :
  configure_component (O_Weights (5 # 2)) [4] = Ok (Some [4])
  /\ exists m, weights_of (Operations.Weights (5 # 2)) [4] = Ok m
       /\ nd_shape m = [4; 4]
       /\ forall i j : nat, (i < 4)%nat -> (j < 4)%nat ->
            (entry m i j == if Nat.eqb i j then 5 # 2 else 0)%Q.
Proof.
  apply (Weights_scaled_identity (5 # 2) [4]). repeat constructor. lia.
Defined.

(** ** Negative axis indices *)

Lemma normalize_index_negative (n idx : Z) :
  0 <= idx < n ->
  normalize_index n (idx - n) = Ok idx /\ normalize_index n idx = Ok idx.
Proof.
  intros H. unfold normalize_index.
  destruct (Z.ltb_spec (idx - n) (- n)); [lia|].
  destruct (Z.leb_spec n (idx - n)); [lia|].
  destruct (Z.ltb_spec (idx - n) 0); [|lia].
  destruct (Z.ltb_spec idx (- n)); [lia|].
  destruct (Z.leb_spec n idx); [lia|].
  destruct (Z.ltb_spec idx 0); [lia|].
  cbn. split; f_equal; lia.
Qed.

Lemma np_delete_negative {A : Type} (arr : list A) (idx : Z) :
  0 <= idx < len arr ->
  np_delete arr [idx - len arr] = np_delete arr [idx].
Proof.
  intros H. unfold np_delete. cbn.
  destruct (normalize_index_negative (len arr) idx H) as [-> ->]. reflexivity.
Qed.

Lemma out_of_bounds_negative (n idx : Z) :
  0 <= idx < n ->
  out_of_bounds n (idx - n) = false /\ out_of_bounds n idx = false.
Proof.
  intros H. unfold out_of_bounds.
  destruct (Z.ltb_spec (idx - n) 0); [|lia].
  destruct (Z.ltb_spec idx 0); [lia|].
  replace (n + (idx - n)) with idx by lia.
  destruct (Z.ltb_spec idx 0); [lia|].
  destruct (Z.leb_spec n idx); [lia|]. split; reflexivity.
Qed.

Lemma range_len (n : Z) : 0 <= n -> len (range n) = n.
Proof. intros H. unfold len, range. rewrite length_map, length_seq. lia. Qed.

(** Negative-index normalisation in general: on any input shape, ReduceDims
    with the axis index [idx - num_dims(input_shape)], counted from the end,
    behaves as with [idx]: the same outcome of [configure], handler and
    operation, and the same weight matrix. *)
Theorem ReduceDims_negative_index (s : shape) (idx : Z)
    (m : option Operations.ReduceMethod) :
  0 <= idx < num_dims s ->
  configure_component (H_ReduceDims (PyInt (idx - num_dims s))) s
  = configure_component (H_ReduceDims (PyInt idx)) s
  /\ configure_component (O_ReduceDims (PyInt (idx - num_dims s)) m) s
     = configure_component (O_ReduceDims (PyInt idx) m) s
  /\ weights_of (Operations.ReduceDims (PyInt (idx - num_dims s)) m) s
     = weights_of (Operations.ReduceDims (PyInt idx) m) s.
Proof.
  intros H. unfold num_dims in *.
  pose proof (out_of_bounds_negative _ _ H) as [Hb1 Hb2].
  pose proof (np_delete_negative s idx H) as Hd.
  assert (Hr : np_delete (range (len s)) [idx - len s] = np_delete (range (len s)) [idx]).
  { rewrite <- (range_len (len s)) at 2 by lia. apply np_delete_negative.
    rewrite range_len; lia. }
  unfold weights_of, configure_component, configured,
    ShapeHandlers.configure, Operations.configure,
    Operations.AbstractComputedShapeOperation_configure,
    ShapeHandlers.ReduceDimsHandler, Operations.ReduceDims.
  cbn -[np_delete]. unfold num_dims.
  destruct (len s =? 0); cbn -[np_delete]; [repeat split|].
  destruct (len s <? 1); cbn -[np_delete]; [repeat split|].
  rewrite Hb1, Hb2. cbn -[np_delete]. rewrite Hd.
  destruct (np_delete s [idx]) as [[|d o]|]; cbn -[np_delete]; unfold num_dims;
    rewrite ?Hr; repeat split;
    destruct (np_delete (range (len s)) [idx]); cbn; try reflexivity;
    match goal with |- context [Operations._project_dims ?i ?o ?a ?b] =>
      destruct (Operations._project_dims i o a b) end;
    cbn; try reflexivity; destruct m as [[|]|]; reflexivity.
Qed.

(** The normalisation at input shape (4, 5), axis 1 named as -1. *)
Lemma ReduceDims_negative_index_witness :
  configure_component (H_ReduceDims (PyInt (-1))) [4; 5]
  = configure_component (H_ReduceDims (PyInt 1)) [4; 5]
  /\ configure_component (O_ReduceDims (PyInt (-1)) None) [4; 5]
     = configure_component (O_ReduceDims (PyInt 1) None) [4; 5]
  /\ weights_of (Operations.ReduceDims (PyInt (-1)) None) [4; 5]
     = weights_of (Operations.ReduceDims (PyInt 1) None) [4; 5].
Proof. apply (ReduceDims_negative_index [4; 5] 1 None). unfold num_dims, len. simpl. lia. Defined.

(** ** The projection engine on ReduceDims *)

(** *** Ranges *)

Lemma range_app (a b : Z) :
  0 <= a -> 0 <= b -> range (a + b) = range a ++ map (fun x => x + a) (range b).
Proof.
  intros Ha Hb. unfold range. rewrite Z2Nat.inj_add by lia.
  rewrite seq_app, map_app. f_equal. cbn [Nat.add].
  rewrite map_map. rewrite <- (Nat.add_0_r (Z.to_nat a)) at 1.
  generalize 0%nat as c. generalize (Z.to_nat b) as m.
  induction m as [|m IH]; intros c; cbn; [reflexivity|].
  f_equal; [lia|]. rewrite <- IH. f_equal. f_equal. lia.
Qed.

Lemma range_In (n x : Z) : In x (range n) <-> 0 <= x < n.
Proof.
  unfold range. rewrite in_map_iff. split.
  - intros [k [<- Hk]]. apply in_seq in Hk. lia.
  - intros H. exists (Z.to_nat x). split; [lia|]. apply in_seq. lia.
Qed.

Lemma range_mul (d sr : Z) :
  0 <= d -> 0 <= sr ->
  range (d * sr) = flat_map (fun x => map (fun y => x * sr + y) (range sr)) (range d).
Proof.
  intros Hd Hsr. rewrite <- (Z2Nat.id d) by lia.
  generalize (Z.to_nat d) as k. clear d Hd.
  induction k as [|k IH]; [reflexivity|].
  rewrite Nat2Z.inj_succ, <- Z.add_1_r, Z.mul_add_distr_r, Z.mul_1_l.
  rewrite range_app by lia. rewrite IH.
  rewrite (range_app (Z.of_nat k) 1) by lia.
  rewrite flat_map_app. f_equal.
  change (range 1) with [0]. cbn [map flat_map]. rewrite app_nil_r.
  apply map_ext. intros y. lia.
Qed.

(** *** Multi-indices *)

Lemma size_of_app (s1 s2 : list Z) : size_of (s1 ++ s2) = size_of s1 * size_of s2.
Proof.
  induction s1 as [|d s1 IH].
  - cbn [app]. change (size_of []) with 1. lia.
  - cbn [app]. change (size_of (d :: s1 ++ s2)) with (d * size_of (s1 ++ s2)).
    change (size_of (d :: s1)) with (d * size_of s1). rewrite IH. lia.
Qed.

Lemma size_of_valid (s : list Z) : valid_shape s -> 1 <= size_of s.
Proof.
  induction 1 as [|d s Hd Hs IH]; cbn; [lia|]. fold (size_of s). nia.
Qed.

Lemma unravel_length (sh : list Z) : forall k, length (unravel sh k) = length sh.
Proof. induction sh as [|d sh IH]; intros k; cbn; [reflexivity | now rewrite IH]. Qed.

Lemma unravel_cons (d : Z) (rest : list Z) (x y : Z) :
  0 <= y < size_of rest ->
  unravel (d :: rest) (x * size_of rest + y) = x :: unravel rest y.
Proof.
  intros Hy. cbn [unravel]. f_equal.
  - rewrite Z.div_add_l by lia. rewrite Z.div_small by lia. lia.
  - f_equal. rewrite Z.add_comm, Z.mod_add by lia. apply Z.mod_small. lia.
Qed.

Lemma unravel_app (o i : list Z) :
  valid_shape o -> forall u c,
  0 <= u < size_of o -> 0 <= c < size_of i ->
  unravel (o ++ i) (u * size_of i + c) = unravel o u ++ unravel i c.
Proof.
  induction 1 as [|d o Hd Ho IH]; intros u c Hu Hc.
  - cbn in Hu. assert (u = 0) as -> by lia. reflexivity.
  - pose proof (size_of_valid o Ho) as Hso.
    cbn [app unravel]. rewrite size_of_app.
    set (so := size_of o) in *. set (si := size_of i) in *.
    pose proof (Z.div_mod u so ltac:(lia)) as Hdm.
    pose proof (Z.mod_pos_bound u so ltac:(lia)) as Hmb.
    assert (Hq : (u * si + c) / (so * si) = u / so).
    { symmetry. apply (Z.div_unique_pos _ _ _ ((u mod so) * si + c)); nia. }
    assert (Hr : (u * si + c) mod (so * si) = (u mod so) * si + c).
    { symmetry. apply (Z.mod_unique_pos _ _ (u / so)); nia. }
    rewrite Hq, Hr. cbn [app]. f_equal. apply IH; [|exact Hc].
    apply Z.mod_pos_bound. lia.
Qed.

Lemma unravel_in_box (sh : list Z) :
  valid_shape sh -> forall k, 0 <= k < size_of sh -> in_box (unravel sh k) sh.
Proof.
  induction 1 as [|d sh Hd Hs IH]; intros k Hk; cbn [unravel]; [constructor|].
  pose proof (size_of_valid sh Hs) as Hpos.
  change (size_of (d :: sh)) with (d * size_of sh) in Hk.
  constructor.
  - split; [apply Z.div_pos; lia | apply Z.div_lt_upper_bound; lia].
  - apply IH. apply Z.mod_pos_bound. lia.
Qed.

Lemma eqb_list_eq (l1 l2 : list Z) : eqb_list l1 l2 = true <-> l1 = l2.
Proof.
  revert l2. induction l1 as [|x l1 IH]; intros [|y l2]; cbn; try easy.
  rewrite andb_true_iff, Z.eqb_eq, IH. split; [intros [-> ->]; reflexivity | now intros [= -> ->]].
Qed.

(** *** Painting *)

Lemma nth_map_in {A B : Type} (f : A -> B) (l : list A) (t : nat) (d : B) (d' : A) :
  (t < length l)%nat -> nth t (map f l) d = f (nth t l d').
Proof.
  intros Ht. rewrite (nth_indep _ d (f d')) by now rewrite length_map.
  apply map_nth.
Qed.

Lemma combine_range_nth {A : Type} (d : list A) (t : nat) (x0 : A) :
  (t < length d)%nat ->
  nth t (combine (range (len d)) d) (0, x0) = (Z.of_nat t, nth t d x0).
Proof.
  intros Ht. rewrite combine_nth.
  - f_equal. apply range_nth. unfold len. lia.
  - rewrite range_length. unfold len. lia.
Qed.

Lemma paint_length (sh : list Z) (S : list Z -> bool) (d : list Q) :
  length (paint sh S d) = length d.
Proof.
  unfold paint. rewrite length_map, length_combine, range_length.
  unfold len. lia.
Qed.

Lemma paint_nth (sh : list Z) (S : list Z -> bool) (d : list Q) (t : nat) :
  (t < length d)%nat ->
  nth t (paint sh S d) 0%Q
  = if S (unravel sh (Z.of_nat t)) then 1%Q else nth t d 0%Q.
Proof.
  intros Ht. unfold paint.
  rewrite (nth_map_in _ _ _ _ (0, 0%Q))
    by (rewrite length_combine, range_length; unfold len; lia).
  now rewrite combine_range_nth.
Qed.

Lemma paint_paint (sh : list Z) (S1 S2 : list Z -> bool) (d : list Q) :
  paint sh S2 (paint sh S1 d) = paint sh (fun m => S1 m || S2 m) d.
Proof.
  apply (nth_ext _ _ 0%Q 0%Q); [now rewrite !paint_length|].
  intros t Ht. rewrite !paint_length in Ht.
  rewrite !paint_nth by (rewrite ?paint_length; exact Ht).
  destruct (S1 _), (S2 _); reflexivity.
Qed.

Lemma paint_ext (sh : list Z) (S1 S2 : list Z -> bool) (d : list Q) :
  (forall t, (t < length d)%nat ->
     S1 (unravel sh (Z.of_nat t)) = S2 (unravel sh (Z.of_nat t))) ->
  paint sh S1 d = paint sh S2 d.
Proof.
  intros H. apply (nth_ext _ _ 0%Q 0%Q); [now rewrite !paint_length|].
  intros t Ht. rewrite paint_length in Ht. rewrite !paint_nth by exact Ht.
  now rewrite H.
Qed.

Lemma paint_none (sh : list Z) (d : list Q) : paint sh (fun _ => false) d = d.
Proof.
  apply (nth_ext _ _ 0%Q 0%Q); [now rewrite paint_length|].
  intros t Ht. rewrite paint_length in Ht. now rewrite paint_nth.
Qed.

Lemma paint_zeros (sh : list Z) (S : list Z -> bool) (N : nat) :
  paint sh S (repeat 0%Q N)
  = map (fun k => if S (unravel sh k) then 1%Q else 0%Q) (range (Z.of_nat N)).
Proof.
  apply (nth_ext _ _ 0%Q 0%Q).
  - rewrite paint_length, repeat_length, length_map, range_length. lia.
  - intros t Ht. rewrite paint_length, repeat_length in Ht.
    rewrite paint_nth by now rewrite repeat_length.
    rewrite (nth_map_in _ _ _ _ 0) by (rewrite range_length; lia).
    rewrite range_nth by lia. now rewrite nth_repeat.
Qed.

Lemma for_fold_paint {A : Type} (sh : list Z) (S : A -> list Z -> bool)
    (body : A -> ndarray -> result ndarray) (xs : list A) :
  (forall x d, In x xs -> body x (NdArray sh d) = Ok (NdArray sh (paint sh (S x) d))) ->
  forall d,
  for_fold xs body (NdArray sh d)
  = Ok (NdArray sh (paint sh (fun m => existsb (fun x => S x m) xs) d)).
Proof.
  induction xs as [|x xs IH]; intros Hbody d; cbn [for_fold existsb].
  - now rewrite paint_none.
  - cbn. rewrite Hbody by now left. rewrite IH by (intros; apply Hbody; now right).
    now rewrite paint_paint.
Qed.

(** *** Masks *)

Lemma drop_positions_select {A : Type} (drop : list Z) (arr : list A) :
  forall pos, drop_positions drop pos arr = select (mask_from drop pos (length arr)) arr.
Proof.
  induction arr as [|x arr IH]; intros pos; cbn; [reflexivity|].
  rewrite IH. now destruct (mem pos drop).
Qed.

Lemma mask_from_length (drop : list Z) (n : nat) :
  forall pos, length (mask_from drop pos n) = n.
Proof. induction n as [|n IH]; intros pos; cbn; [reflexivity | now rewrite IH]. Qed.

Lemma select_length_negb {A : Type} (mask : list bool) :
  forall l : list A, length mask = length l ->
  (length (select mask l) + length (select (map negb mask) l) = length l)%nat.
Proof.
  induction mask as [|b mask IH]; intros [|x l] Hl; cbn in *; try lia.
  specialize (IH l ltac:(lia)). destruct b; cbn; lia.
Qed.

Lemma select_positions_bound (mask : list bool) :
  forall a, Forall (fun p => Z.of_nat a <= p < Z.of_nat (a + length mask))
                   (select mask (map Z.of_nat (seq a (length mask)))).
Proof.
  induction mask as [|b mask IH]; intros a; cbn; [constructor|].
  assert (Htl : Forall (fun p => Z.of_nat a <= p < Z.of_nat (a + S (length mask)))
                       (select mask (map Z.of_nat (seq (S a) (length mask))))).
  { eapply Forall_impl; [|apply (IH (S a))]. cbn. intros p Hp. lia. }
  destruct b; [constructor; [lia | exact Htl] | exact Htl].
Qed.

Lemma select_positions_NoDup (mask : list bool) :
  forall a, NoDup (select mask (map Z.of_nat (seq a (length mask)))).
Proof.
  induction mask as [|b mask IH]; intros a; cbn; [constructor|].
  destruct b; [|apply IH]. constructor; [|apply IH].
  intros Hin. pose proof (select_positions_bound mask (S a)) as Hb.
  rewrite Forall_forall in Hb. apply Hb in Hin. lia.
Qed.

Lemma select_positions_nth {A : Type} (mask : list bool) (d : A) :
  forall a (pre v : list A), length pre = a -> length v = length mask ->
  map (fun p => nth (Z.to_nat p) (pre ++ v) d)
      (select mask (map Z.of_nat (seq a (length mask))))
  = select mask v.
Proof.
  induction mask as [|b mask IH]; intros a pre [|x v] Hpre Hv; cbn in *; try lia;
    [reflexivity|].
  assert (Htl : map (fun p => nth (Z.to_nat p) (pre ++ x :: v) d)
                    (select mask (map Z.of_nat (seq (S a) (length mask))))
                = select mask v).
  { rewrite <- (IH (S a) (pre ++ [x]) v); [| rewrite length_app; cbn; lia | lia].
    apply map_ext. intros p. now rewrite <- app_assoc. }
  destruct b; cbn; [|exact Htl].
  rewrite Htl. f_equal. rewrite Nat2Z.id, <- Hpre, nth_middle. reflexivity.
Qed.

Lemma mem_In (x : Z) (l : list Z) : mem x l = true <-> In x l.
Proof.
  unfold mem. rewrite existsb_exists. split.
  - intros [y [Hin Hy]]. apply Z.eqb_eq in Hy. now subst.
  - intros Hin. exists x. split; [exact Hin | apply Z.eqb_refl].
Qed.

Lemma has_duplicate_NoDup (l : list Z) : NoDup l -> has_duplicate l = false.
Proof.
  induction 1 as [|x l Hx Hl IH]; cbn; [reflexivity|].
  rewrite IH, orb_false_r. destruct (mem x l) eqn:E; [|reflexivity].
  apply mem_In in E. contradiction.
Qed.

(** *** Moving axes to the front *)

Lemma NoDup_map_inj {A B : Type} (f : A -> B) (l : list A) :
  (forall x y, f x = f y -> x = y) -> NoDup l -> NoDup (map f l).
Proof.
  intros Hf. induction 1 as [|x l Hx Hl IH]; cbn; constructor; [|exact IH].
  rewrite in_map_iff. intros [y [Hy Hin]]. apply Hf in Hy. now subst.
Qed.


Lemma mapM_normalize_axis (nd : Z) (l : list Z) :
  Forall (fun x => 0 <= x < nd) l -> mapM (normalize_axis_index nd) l = Ok l.
Proof.
  induction 1 as [|x l Hx Hl IH]; cbn [mapM]; [reflexivity|].
  unfold normalize_axis_index at 1.
  destruct (Z.ltb_spec x (- nd)); [lia|]. destruct (Z.leb_spec nd x); [lia|].
  destruct (Z.ltb_spec x 0); [lia|]. cbn -[mapM]. now rewrite IH.
Qed.

Lemma normalize_axis_tuple_id (nd : Z) (l : list Z) :
  Forall (fun x => 0 <= x < nd) l -> NoDup l -> normalize_axis_tuple l nd = Ok l.
Proof.
  intros Hb Hn. unfold normalize_axis_tuple. cbn.
  rewrite mapM_normalize_axis by exact Hb. now rewrite has_duplicate_NoDup.
Qed.

Lemma sorted_combine_seq (src : list Z) :
  forall a, sorted (combine (map Z.of_nat (seq a (length src))) src)
            = combine (map Z.of_nat (seq a (length src))) src.
Proof.
  induction src as [|x src IH]; intros a; cbn [length seq map combine]; [reflexivity|].
  unfold sorted in *. cbn [fold_right]. rewrite IH.
  destruct src as [|y src]; [reflexivity|].
  cbn [length seq map combine insert_sorted]. unfold pair_leb. cbn [fst snd].
  destruct (Z.ltb_spec (Z.of_nat a) (Z.of_nat (S a))); [reflexivity | lia].
Qed.

Lemma list_insert_end {A : Type} (pre rest : list A) (x : A) :
  list_insert (length pre) x (pre ++ rest) = pre ++ x :: rest.
Proof.
  induction pre as [|y pre IH]; cbn; [now destruct rest | now rewrite IH].
Qed.

Lemma fold_insert_seq (src : list Z) :
  forall a pre rest, length pre = a ->
  fold_left (fun order '(dest, s) => list_insert (Z.to_nat dest) s order)
            (combine (map Z.of_nat (seq a (length src))) src) (pre ++ rest)
  = pre ++ src ++ rest.
Proof.
  induction src as [|x src IH]; intros a pre rest Hpre; cbn [length seq map combine fold_left];
    [reflexivity|].
  rewrite Nat2Z.id, <- Hpre, list_insert_end.
  replace (pre ++ x :: rest) with ((pre ++ [x]) ++ rest) by now rewrite <- app_assoc.
  rewrite (IH (S (length pre))) by (rewrite length_app; cbn; lia).
  now rewrite <- app_assoc.
Qed.

Lemma np_moveaxis_front (nd : Z) (source : list Z) :
  Forall (fun x => 0 <= x < nd) source -> NoDup source -> len source <= nd ->
  np_moveaxis nd source (range (len source))
  = Ok (source ++ filter (fun n => negb (mem n source)) (range nd)).
Proof.
  intros Hb Hn Hlen. unfold np_moveaxis.
  rewrite normalize_axis_tuple_id by assumption.
  cbn [bind Monad_result].
  rewrite normalize_axis_tuple_id.
  - cbn [bind ret Monad_result].
    replace (len source =? len (range (len source))) with true.
    + cbn [negb]. f_equal. unfold range at 1. unfold len at 1. rewrite Nat2Z.id.
      rewrite sorted_combine_seq.
      apply (fold_insert_seq source 0%nat [] _ eq_refl).
    + symmetry. apply Z.eqb_eq. unfold len. rewrite range_length. lia.
  - apply Forall_forall. intros x Hx. apply range_In in Hx. lia.
  - unfold range. apply NoDup_map_inj; [|apply seq_NoDup].
    intros x y Hxy. lia.
Qed.

(** *** Indexing through the view *)

Lemma map_nth_range {A : Type} (l r : list A) (d : A) :
  map (fun ax => nth (Z.to_nat ax) (l ++ r) d) (range (len l)) = l.
Proof.
  apply (nth_ext _ _ d d).
  - rewrite length_map, range_length. unfold len. lia.
  - intros t Ht. rewrite length_map, range_length in Ht. unfold len in Ht.
    rewrite (nth_map_in _ _ _ _ 0) by (rewrite range_length; unfold len; lia).
    rewrite range_nth by (unfold len; lia).
    rewrite Nat2Z.id. apply app_nth1. lia.
Qed.

Lemma gather_front {A : Type} (mask : list bool) (uu v : list A) (d : A) :
  length v = length mask ->
  map (fun ax => nth (Z.to_nat ax) (uu ++ v) d)
      (range (len uu)
       ++ map (fun a => a + len uu) (select mask (map Z.of_nat (seq 0 (length mask)))))
  = uu ++ select mask v.
Proof.
  intros Hv. rewrite map_app, map_nth_range. f_equal.
  rewrite map_map.
  rewrite <- (select_positions_nth mask d 0%nat [] v eq_refl Hv).
  apply map_ext_in. intros p Hp.
  pose proof (select_positions_bound mask 0%nat) as Hb.
  rewrite Forall_forall in Hb. apply Hb in Hp.
  replace (Z.to_nat (p + len uu)) with (length uu + Z.to_nat p)%nat
    by (unfold len; lia).
  now rewrite app_nth2_plus.
Qed.

Lemma mapM_pins (sh : list Z) (vals axes : list Z) :
  in_box vals (map (fun ax => nth (Z.to_nat ax) sh 0) axes) ->
  mapM (fun '(i, ax) =>
          j <- normalize_index (nth (Z.to_nat ax) sh 0) i ;; ret (ax, j))
       (combine vals axes)
  = Ok (combine axes vals).
Proof.
  revert vals. induction axes as [|ax axes IH]; intros vals Hbox;
    inversion Hbox as [|x d vals' ds Hx Hrest]; subst; [reflexivity|].
  cbn [combine mapM]. unfold normalize_index at 1.
  destruct (Z.ltb_spec x (- nth (Z.to_nat ax) sh 0)); [lia|].
  destruct (Z.leb_spec (nth (Z.to_nat ax) sh 0) x); [lia|].
  destruct (Z.ltb_spec x 0); [lia|].
  cbn -[mapM]. now rewrite IH.
Qed.

Lemma pinned_gather (axes vals m : list Z) :
  length axes = length vals ->
  pinned (combine axes vals) m
  = eqb_list (map (fun ax => nth (Z.to_nat ax) m (-1)) axes) vals.
Proof.
  revert vals. induction axes as [|ax axes IH]; intros [|x vals] Hlen;
    cbn in Hlen; try lia; [reflexivity|].
  unfold pinned in *. cbn [combine forallb map eqb_list]. now rewrite IH by lia.
Qed.

Lemma eqb_list_app (l1 l2 r1 r2 : list Z) :
  length l1 = length r1 ->
  eqb_list (l1 ++ l2) (r1 ++ r2) = eqb_list l1 r1 && eqb_list l2 r2.
Proof.
  revert r1. induction l1 as [|x l1 IH]; intros [|y r1] Hlen; cbn in Hlen; try lia;
    [reflexivity|].
  cbn. rewrite IH by lia. now rewrite andb_assoc.
Qed.

Lemma in_box_length (u sh : list Z) : in_box u sh -> length u = length sh.
Proof. induction 1; cbn; lia. Qed.

Lemma in_box_app (u1 u2 s1 s2 : list Z) :
  in_box u1 s1 -> in_box u2 s2 -> in_box (u1 ++ u2) (s1 ++ s2).
Proof. intros H1 H2. now apply Forall2_app. Qed.

Lemma combine_front {A B : Type} (l : list A) (l1 l2 : list B) :
  length l = length l1 -> combine l (l1 ++ l2) = combine l l1.
Proof.
  revert l1. induction l as [|x l IH]; intros [|y l1] Hlen; cbn in Hlen; try lia;
    [reflexivity|].
  cbn. now rewrite IH by lia.
Qed.

Section Diagonal.
Variables (o i : list Z) (mask : list bool).
Hypothesis Hmask : length mask = length i.
Hypothesis Ho : select mask i = o.

Let K := select mask (map Z.of_nat (seq 0 (length mask))).
Let source := range (len o) ++ map (fun a => a + len o) K.

Lemma K_length : length K = length o.
Proof.
  subst K. rewrite <- Ho.
  rewrite <- (select_positions_nth mask 0 0%nat [] i eq_refl (eq_sym Hmask)).
  now rewrite length_map.
Qed.

Lemma source_length : length source = (length o + length o)%nat.
Proof.
  subst source. rewrite length_app, length_map, range_length, K_length.
  unfold len. lia.
Qed.

Lemma setitem_diag (rest u : list Z) (d : list Q) :
  in_box u o ->
  setitem (NdArray (o ++ i) d) (source ++ rest) (u ++ u) 1%Q
  = Ok (NdArray (o ++ i)
          (paint (o ++ i)
             (fun m => eqb_list (firstn (length o) m) u
                       && eqb_list (select mask (skipn (length o) m)) u) d)).
Proof.
  intros Hu. pose proof (in_box_length _ _ Hu) as Hlen.
  unfold setitem. cbn [nd_shape nd_data].
  replace (len (source ++ rest) <? len (u ++ u)) with false.
  2:{ symmetry. apply Z.ltb_ge. unfold len.
      rewrite !length_app, source_length. lia. }
  replace (combine (u ++ u) (source ++ rest)) with (combine (u ++ u) source).
  2:{ symmetry. apply combine_front. rewrite length_app, source_length. lia. }
  rewrite mapM_pins.
  2:{ subst source K. rewrite gather_front by now rewrite Hmask.
      rewrite Ho. now apply in_box_app. }
  cbn [bind ret Monad_result]. f_equal. f_equal.
  apply paint_ext. intros t Ht.
  rewrite pinned_gather by (rewrite length_app, source_length; lia).
  set (m := unravel (o ++ i) (Z.of_nat t)).
  assert (Hm : length m = (length o + length i)%nat)
    by (subst m; now rewrite unravel_length, length_app).
  assert (Hf : length (firstn (length o) m) = length o)
    by (rewrite length_firstn; lia).
  assert (Hg : map (fun ax => nth (Z.to_nat ax) m (-1)) source
               = firstn (length o) m ++ select mask (skipn (length o) m)).
  { subst source K.
    replace (len o) with (len (firstn (length o) m)) by (unfold len; now rewrite Hf).
    rewrite <- (gather_front mask (firstn (length o) m) (skipn (length o) m) (-1))
      by (rewrite length_skipn; lia).
    now rewrite firstn_skipn. }
  rewrite Hg. apply eqb_list_app. lia.
Qed.
End Diagonal.

Lemma range_NoDup (n : Z) : NoDup (range n).
Proof.
  unfold range. apply NoDup_map_inj; [|apply seq_NoDup]. intros x y Hxy. lia.
Qed.

Lemma select_length_le {A : Type} (mask : list bool) :
  forall l : list A, (length (select mask l) <= length l)%nat.
Proof.
  induction mask as [|b mask IH]; intros [|x l]; cbn; try lia.
  specialize (IH l). destruct b; cbn; lia.
Qed.

Lemma select_valid (mask : list bool) :
  forall s, valid_shape s -> valid_shape (select mask s).
Proof.
  induction mask as [|b mask IH]; intros s Hs; [constructor|].
  destruct Hs as [|d s Hd Hs]; cbn; [constructor|].
  destruct b; [constructor; [exact Hd|] |]; now apply IH.
Qed.

Section Source.
Variables (o i : list Z) (mask : list bool).
Hypothesis Hmask : length mask = length i.
Hypothesis Ho : select mask i = o.

Let K := select mask (map Z.of_nat (seq 0 (length mask))).
Let source := range (len o) ++ map (fun a => a + len o) K.

Lemma source_bound : Forall (fun x => 0 <= x < len (o ++ i)) source.
Proof.
  subst source. apply Forall_app. split.
  - apply Forall_forall. intros x Hx. apply range_In in Hx.
    unfold len in *. rewrite length_app. lia.
  - apply Forall_map. eapply Forall_impl; [|apply (select_positions_bound mask 0%nat)].
    cbn. intros p Hp. unfold len. rewrite length_app, <- Hmask. lia.
Qed.

Lemma source_NoDup : NoDup source.
Proof.
  subst source. apply NoDup_app.
  - apply range_NoDup.
  - apply NoDup_map_inj; [intros x y Hxy; lia | apply select_positions_NoDup].
  - intros a Ha Hin. apply range_In in Ha. apply in_map_iff in Hin.
    destruct Hin as [p [<- Hp]].
    pose proof (select_positions_bound mask 0%nat) as Hb.
    rewrite Forall_forall in Hb. apply Hb in Hp. lia.
Qed.

Lemma source_len : len source = len o + len o.
Proof. subst source K. unfold len at 1. rewrite (source_length o i mask Hmask Ho). unfold len. lia. Qed.

Lemma source_moveaxis :
  np_moveaxis (len (o ++ i)) source (range (len o + len o))
  = Ok (source ++ filter (fun n => negb (mem n source)) (range (len (o ++ i)))).
Proof.
  rewrite <- source_len. apply np_moveaxis_front.
  - apply source_bound.
  - apply source_NoDup.
  - rewrite source_len. unfold len. rewrite length_app, <- Ho.
    pose proof (select_length_le mask i). lia.
Qed.

Lemma source_size (d : list Q) (rest : list Z) (j : nat) :
  (j < length o)%nat ->
  np_size (NdArray (o ++ i) d) (source ++ rest) j = Ok (nth j o 0).
Proof.
  intros Hj. unfold np_size. subst source.
  rewrite <- app_assoc, nth_error_app1 by (rewrite range_length; unfold len; lia).
  unfold range. rewrite nth_error_map, nth_error_seq.
  destruct (Nat.ltb_spec j (Z.to_nat (len o))) as [_|Hge]; [|unfold len in Hge; lia].
  cbn [option_map nd_shape Nat.add]. rewrite Nat2Z.id. now rewrite app_nth1.
Qed.
End Source.

(** *** The loops of [_project_dims] *)

Lemma existsb_diag {A : Type} (L : list A) (f : A -> list Z) (uu sv : list Z) :
  (exists a, In a L /\ f a = uu) ->
  existsb (fun a => eqb_list uu (f a) && eqb_list sv (f a)) L = eqb_list sv uu.
Proof.
  intros [a [Ha Hf]]. destruct (eqb_list sv uu) eqn:E.
  - apply existsb_exists. exists a. split; [exact Ha|].
    rewrite Hf, E. rewrite (proj2 (eqb_list_eq uu uu) eq_refl). reflexivity.
  - apply not_true_is_false. intros Hex. apply existsb_exists in Hex.
    destruct Hex as [b [_ Hb]]. apply andb_true_iff in Hb. destruct Hb as [H1 H2].
    apply eqb_list_eq in H1, H2.
    assert (Heq : sv = uu) by congruence.
    apply eqb_list_eq in Heq. congruence.
Qed.

Lemma in_box_firstn (m o i : list Z) :
  in_box m (o ++ i) -> in_box (firstn (length o) m) o.
Proof.
  intros H. apply Forall2_app_inv_r in H.
  destruct H as [m1 [m2 [H1 [H2 ->]]]].
  rewrite <- (in_box_length _ _ H1), firstn_app, Nat.sub_diag, firstn_all.
  cbn. now rewrite app_nil_r.
Qed.

(** Nested searches for the one index on which both sides agree. *)
Ltac collapse_diagonal :=
  match goal with
  | |- _ = eqb_list ?sv ?uu =>
      let E := fresh "E" in
      destruct (eqb_list sv uu) eqn:E;
      [ apply eqb_list_eq in E; subst;
        repeat (apply existsb_exists; eexists; split; [apply range_In; eassumption|]);
        rewrite !(proj2 (eqb_list_eq _ _) eq_refl); reflexivity
      | apply not_true_is_false; intros Hex;
        repeat (apply existsb_exists in Hex; destruct Hex as [? [_ Hex]]);
        apply andb_true_iff in Hex; destruct Hex as [H1 H2];
        apply eqb_list_eq in H1, H2;
        assert (Heq : sv = uu) by congruence;
        apply eqb_list_eq in Heq; congruence ]
  end.

Section Loops.
Variables (o i : list Z) (mask : list bool).
Hypothesis Hmask : length mask = length i.
Hypothesis Ho : select mask i = o.
Variable rest : list Z.

Local Abbreviation K := (select mask (map Z.of_nat (seq 0 (length mask)))).
Local Abbreviation conn := ((range (len o) ++ map (fun a => a + len o) K) ++ rest).
Local Abbreviation sh := (o ++ i).

Local Abbreviation on_diagonal := (on_diagonal o mask).

Local Abbreviation diag u :=
  (fun m => eqb_list (firstn (length o) m) u
            && eqb_list (select mask (skipn (length o) m)) u).

Lemma setitem_conn (u : list Z) (d : list Q) :
  in_box u o ->
  setitem (NdArray sh d) conn (u ++ u) 1%Q = Ok (NdArray sh (paint sh (diag u) d)).
Proof. apply (setitem_diag o i mask Hmask Ho). Qed.

Lemma paint_on_diagonal (S : list Z -> bool) (d : list Q) :
  valid_shape sh -> length d = Z.to_nat (size_of sh) ->
  (forall m, in_box (firstn (length o) m) o -> S m = on_diagonal m) ->
  paint sh S d = paint sh on_diagonal d.
Proof.
  intros Hv Hd HS. apply paint_ext. intros t Ht. apply HS.
  apply (in_box_firstn _ o i). apply unravel_in_box; [exact Hv | lia].
Qed.

Lemma loop1 (o0 : Z) (d : list Q) :
  o = [o0] -> valid_shape sh -> length d = Z.to_nat (size_of sh) ->
  (size0 <- np_size (NdArray sh d) conn 0 ;;
   for_fold (range size0) (fun a weights => setitem weights conn [a; a] 1%Q)
            (NdArray sh d))
  = Ok (NdArray sh (paint sh on_diagonal d)).
Proof.
  intros Eo Hv Hd.
  rewrite (source_size o i mask Hmask) by (rewrite Eo; cbn; lia).
  cbn [bind Monad_result]. replace (nth 0 o 0) with o0 by now rewrite Eo.
  rewrite (for_fold_paint (o ++ i) (fun a => diag [a])).
  - f_equal. f_equal. apply paint_on_diagonal; [exact Hv | exact Hd|].
    intros m Hm. cbn beta. unfold on_diagonal.
    remember (firstn (length o) m) as uu eqn:Euu. clear Euu.
    rewrite Eo in Hm. inversion Hm as [|x d0 uu' ds Hx Hnil]; subst.
    inversion Hnil; subst.
    apply (existsb_diag (range o0) (fun a => [a])).
    exists x. split; [now apply range_In | reflexivity].
  - intros a d' Ha. apply range_In in Ha.
    apply (setitem_conn [a] d'). rewrite Eo. repeat constructor; lia.
Qed.

Lemma loop2 (o0 o1 : Z) (d : list Q) :
  o = [o0; o1] -> valid_shape sh -> length d = Z.to_nat (size_of sh) ->
  (size0 <- np_size (NdArray sh d) conn 0 ;;
   for_fold (range size0) (fun a weights =>
     size1 <- np_size weights conn 1 ;;
     for_fold (range size1) (fun b weights =>
       setitem weights conn [a; b; a; b] 1%Q) weights)
     (NdArray sh d))
  = Ok (NdArray sh (paint sh on_diagonal d)).
Proof.
  intros Eo Hv Hd.
  rewrite (source_size o i mask Hmask) by (rewrite Eo; cbn; lia).
  cbn [bind Monad_result]. replace (nth 0 o 0) with o0 by now rewrite Eo.
  rewrite (for_fold_paint (o ++ i)
             (fun a m => existsb (fun b => diag [a; b] m) (range o1))).
  - f_equal. f_equal. apply paint_on_diagonal; [exact Hv | exact Hd|].
    intros m Hm. cbn beta. unfold on_diagonal.
    remember (firstn (length o) m) as uu eqn:Euu. clear Euu.
    remember (select mask (skipn (length o) m)) as sv eqn:Esv. clear Esv.
    rewrite Eo in Hm. inversion Hm as [|x d0 u1 ds Hx Hrest]; subst.
    inversion Hrest as [|y d1 u2 ds1 Hy Hnil]; subst. inversion Hnil; subst.
    collapse_diagonal.
  - intros a d1 Ha. apply range_In in Ha.
    rewrite (source_size o i mask Hmask) by (rewrite Eo; cbn; lia).
    cbn [bind Monad_result]. replace (nth 1 o 0) with o1 by now rewrite Eo.
    apply (for_fold_paint (o ++ i) (fun b => diag [a; b])).
    intros b d2 Hb. apply range_In in Hb.
    apply (setitem_conn [a; b] d2). rewrite Eo. repeat constructor; lia.
Qed.

Lemma loop3 (o0 o1 o2 : Z) (d : list Q) :
  o = [o0; o1; o2] -> valid_shape sh -> length d = Z.to_nat (size_of sh) ->
  (size0 <- np_size (NdArray sh d) conn 0 ;;
   for_fold (range size0) (fun a weights =>
     size1 <- np_size weights conn 1 ;;
     for_fold (range size1) (fun b weights =>
       size2 <- np_size weights conn 2 ;;
       for_fold (range size2) (fun c weights =>
         setitem weights conn [a; b; c; a; b; c] 1%Q) weights) weights)
     (NdArray sh d))
  = Ok (NdArray sh (paint sh on_diagonal d)).
Proof.
  intros Eo Hv Hd.
  rewrite (source_size o i mask Hmask) by (rewrite Eo; cbn; lia).
  cbn [bind Monad_result]. replace (nth 0 o 0) with o0 by now rewrite Eo.
  rewrite (for_fold_paint (o ++ i)
             (fun a m => existsb (fun b =>
                existsb (fun c => diag [a; b; c] m) (range o2)) (range o1))).
  - f_equal. f_equal. apply paint_on_diagonal; [exact Hv | exact Hd|].
    intros m Hm. cbn beta. unfold on_diagonal.
    remember (firstn (length o) m) as uu eqn:Euu. clear Euu.
    remember (select mask (skipn (length o) m)) as sv eqn:Esv. clear Esv.
    rewrite Eo in Hm. inversion Hm as [|x d0 u1 ds Hx Hrest]; subst.
    inversion Hrest as [|y d1 u2 ds1 Hy Hrest2]; subst.
    inversion Hrest2 as [|z d2 u3 ds2 Hz Hnil]; subst. inversion Hnil; subst.
    collapse_diagonal.
  - intros a d1 Ha. apply range_In in Ha.
    rewrite (source_size o i mask Hmask) by (rewrite Eo; cbn; lia).
    cbn [bind Monad_result]. replace (nth 1 o 0) with o1 by now rewrite Eo.
    apply (for_fold_paint (o ++ i)
             (fun b m => existsb (fun c => diag [a; b; c] m) (range o2))).
    intros b d2 Hb. apply range_In in Hb.
    rewrite (source_size o i mask Hmask) by (rewrite Eo; cbn; lia).
    cbn [bind Monad_result]. replace (nth 2 o 0) with o2 by now rewrite Eo.
    apply (for_fold_paint (o ++ i) (fun c => diag [a; b; c])).
    intros c d3 Hc. apply range_In in Hc.
    apply (setitem_conn [a; b; c] d3). rewrite Eo. repeat constructor; lia.
Qed.
End Loops.

Lemma np_zeros_valid (sh : list Z) :
  valid_shape sh -> len sh <= NPY_MAXDIMS ->
  np_zeros sh = Ok (NdArray sh (repeat 0%Q (Z.to_nat (size_of sh)))).
Proof.
  intros Hv Hdims. unfold np_zeros, np_full.
  replace (NPY_MAXDIMS <? len sh) with false by (symmetry; now apply Z.ltb_ge).
  replace (existsb (fun d => d <? 0) sh) with false; [reflexivity|].
  symmetry. apply not_true_is_false. intros Hex. apply existsb_exists in Hex.
  destruct Hex as [d [Hin Hd]]. unfold valid_shape in Hv. rewrite Forall_forall in Hv.
  apply Hv in Hin. apply Z.ltb_lt in Hd. lia.
Qed.

Lemma np_zeros_beyond (sh : list Z) :
  NPY_MAXDIMS < len sh -> np_zeros sh = Raise ValueError.
Proof.
  intros Hdims. unfold np_zeros, np_full.
  destruct (existsb (fun d => d <? 0) sh); [reflexivity|].
  now replace (NPY_MAXDIMS <? len sh) with true by (symmetry; now apply Z.ltb_lt).
Qed.

(** The tensor of [_project_dims] has the output and the input axes; when
    these are more than NumPy allows, [np.zeros] raises ValueError before
    anything else is looked at. *)
Lemma project_dims_beyond_maxdims (i o : list Z) (oa ib : option (list Z)) :
  i <> [] -> o <> [] -> NPY_MAXDIMS < len (o ++ i) ->
  Operations._project_dims i o oa ib = Raise ValueError.
Proof.
  intros Hi Ho Hdims. unfold Operations._project_dims. cbv zeta.
  replace (Z.min (num_dims i) (num_dims o) =? 0) with false.
  - now rewrite np_zeros_beyond.
  - symmetry. apply Z.eqb_neq. unfold num_dims, len.
    destruct i; [contradiction|]. destruct o; [contradiction|]. cbn [length]. lia.
Qed.

Lemma project_dims_reduce (i : list Z) (mask : list bool) :
  length mask = length i -> valid_shape i ->
  (1 <= length (select mask i) <= 3)%nat ->
  len (select mask i ++ i) <= NPY_MAXDIMS ->
  Operations._project_dims i (select mask i) None
    (Some (select mask (range (num_dims i))))
  = Ok (NdArray [num_neurons (select mask i); num_neurons i]
          (map (fun t => if on_diagonal (select mask i) mask
                              (unravel (select mask i ++ i) t)
                         then 1%Q else 0%Q)
               (range (size_of (select mask i ++ i))))).
Proof.
  intros Hmask Hi Hk. remember (select mask i) as o eqn:Ho. symmetry in Ho.
  intros Hdims.
  assert (Hov : valid_shape o) by (rewrite <- Ho; now apply select_valid).
  assert (Hsh : valid_shape (o ++ i)) by now apply valid_shape_app.
  assert (Hle : (length o <= length i)%nat) by (rewrite <- Ho; apply select_length_le).
  assert (HK : select mask (range (num_dims i))
               = select mask (map Z.of_nat (seq 0 (length mask)))).
  { unfold range, num_dims, len. now rewrite Nat2Z.id, Hmask. }
  assert (HKlen : len (select mask (map Z.of_nat (seq 0 (length mask)))) = len o).
  { unfold len. now rewrite (K_length o i mask Hmask Ho). }
  assert (Hmin : Z.min (num_dims i) (num_dims o) = len o)
    by (unfold num_dims, len; lia).
  unfold Operations._project_dims. cbv zeta. rewrite Hmin.
  replace (len o =? 0) with false by (symmetry; apply Z.eqb_neq; unfold len; lia).
  rewrite np_zeros_valid by assumption. cbn [bind Monad_result].
  rewrite HK. unfold ndim. cbn [nd_shape]. unfold num_dims.
  assert (Hlr : len (range (len o)) = len o)
    by (unfold len; rewrite range_length; lia).
  rewrite !Hlr.
  replace (len (map (fun a => a + len o)
                    (select mask (map Z.of_nat (seq 0 (length mask))))))
    with (len o) by (rewrite <- HKlen; unfold len; now rewrite length_map).
  rewrite <- range_app by apply len_nonneg.
  rewrite (source_moveaxis o i mask Hmask Ho). cbn [bind Monad_result].
  set (rest := filter _ (range (len (o ++ i)))).
  assert (Hd : length (repeat 0%Q (Z.to_nat (size_of (o ++ i))))
               = Z.to_nat (size_of (o ++ i))) by apply repeat_length.
  assert (Hsize : (size_of [num_neurons o; num_neurons i] =? size_of (o ++ i)) = true).
  { apply Z.eqb_eq. rewrite size_of_app. unfold num_neurons, size_of. cbn. lia. }
  destruct o as [|o0 [|o1 [|o2 [|o3 o]]]]; cbn [length] in Hk; try lia.
  - pose proof (loop1 _ i mask Hmask Ho rest o0 _ eq_refl Hsh Hd) as Hloop.
    cbn [bind Monad_result] in Hloop. change (len [o0] =? 1) with true. cbv iota.
    rewrite Hloop. unfold np_reshape. cbn [nd_shape nd_data]. rewrite Hsize.
    now rewrite paint_zeros, Z2Nat.id by (pose proof (size_of_valid _ Hsh); lia).
  - pose proof (loop2 _ i mask Hmask Ho rest o0 o1 _ eq_refl Hsh Hd) as Hloop.
    cbn [bind Monad_result] in Hloop.
    change (len [o0; o1] =? 1) with false. change (len [o0; o1] =? 2) with true.
    cbv iota.
    rewrite Hloop. unfold np_reshape. cbn [nd_shape nd_data]. rewrite Hsize.
    now rewrite paint_zeros, Z2Nat.id by (pose proof (size_of_valid _ Hsh); lia).
  - pose proof (loop3 _ i mask Hmask Ho rest o0 o1 o2 _ eq_refl Hsh Hd) as Hloop.
    cbn [bind Monad_result] in Hloop.
    change (len [o0; o1; o2] =? 1) with false.
    change (len [o0; o1; o2] =? 2) with false.
    change (len [o0; o1; o2] =? 3) with true. cbv iota.
    rewrite Hloop. unfold np_reshape. cbn [nd_shape nd_data]. rewrite Hsize.
    now rewrite paint_zeros, Z2Nat.id by (pose proof (size_of_valid _ Hsh); lia).
Qed.

(** *** Counting the entries of a row *)

Lemma cnt_app (p : Z -> bool) (l1 l2 : list Z) : cnt p (l1 ++ l2) = cnt p l1 + cnt p l2.
Proof. unfold cnt, len. rewrite filter_app, length_app. lia. Qed.

Lemma cnt_ext_in (p q : Z -> bool) (L : list Z) :
  (forall y, In y L -> p y = q y) -> cnt p L = cnt q L.
Proof. intros H. unfold cnt. now rewrite (filter_ext_in p q L H). Qed.

Lemma cnt_map (p : Z -> bool) (g : Z -> Z) (L : list Z) :
  cnt p (map g L) = cnt (fun y => p (g y)) L.
Proof.
  unfold cnt, len. induction L as [|y L IH]; cbn; [reflexivity|].
  destruct (p (g y)); cbn; lia.
Qed.

Lemma cnt_none (p : Z -> bool) (L : list Z) :
  (forall y, In y L -> p y = false) -> cnt p L = 0.
Proof.
  intros H. rewrite (cnt_ext_in p (fun _ => false) L H). clear H.
  unfold cnt, len. induction L as [|y L IH]; cbn; [reflexivity | exact IH].
Qed.

Lemma cnt_flat_map_const (p : Z -> bool) (f : Z -> list Z) (L : list Z) (c : Z) :
  (forall x, In x L -> cnt p (f x) = c) -> cnt p (flat_map f L) = len L * c.
Proof.
  induction L as [|x L IH]; intros H; [reflexivity|].
  cbn [flat_map]. rewrite cnt_app, H by now left.
  rewrite IH by (intros; apply H; now right). unfold len. cbn [length]. lia.
Qed.

Lemma cnt_flat_map_single (p : Z -> bool) (f : Z -> list Z) (L : list Z) (x0 c : Z) :
  NoDup L -> In x0 L -> cnt p (f x0) = c ->
  (forall x, In x L -> x <> x0 -> cnt p (f x) = 0) ->
  cnt p (flat_map f L) = c.
Proof.
  induction 1 as [|x L Hx Hnd IH]; intros Hin Hc Hrest; [destruct Hin|].
  cbn [flat_map]. rewrite cnt_app. destruct Hin as [-> | Hin].
  - rewrite Hc.
    rewrite (cnt_flat_map_const p f L 0); [lia|].
    intros y Hy. apply Hrest; [now right | intros ->; contradiction].
  - rewrite (Hrest x) by (now left || (intros ->; contradiction)).
    rewrite IH; [lia | exact Hin | exact Hc |].
    intros y Hy Hne. apply Hrest; [now right | exact Hne].
Qed.

Lemma count_agree (mask : list bool) :
  forall i u, length mask = length i -> valid_shape i ->
  in_box u (select mask i) ->
  cnt (fun y => eqb_list (select mask (unravel i y)) u) (range (size_of i))
  = size_of (select (map negb mask) i).
Proof.
  induction mask as [|b mask IH]; intros [|d i] u Hlen Hi Hu; cbn in Hlen; try lia.
  - inversion Hu; subst. reflexivity.
  - inversion Hi as [|d' i' Hd Hi']; subst.
    pose proof (size_of_valid i Hi') as Hpos.
    change (size_of (d :: i)) with (d * size_of i).
    rewrite range_mul by lia.
    assert (Hstep : forall x y, In y (range (size_of i)) ->
              unravel (d :: i) (x * size_of i + y) = x :: unravel i y).
    { intros x y Hy. apply range_In in Hy. now apply unravel_cons. }
    destruct b; cbn [select map negb] in *.
    + inversion Hu as [|u0 d0 u' ds Hu0 Hu']; subst.
      rewrite (cnt_flat_map_single _ _ _ u0 (size_of (select (map negb mask) i))).
      * reflexivity.
      * apply range_NoDup.
      * apply range_In. lia.
      * rewrite cnt_map. rewrite <- (IH i u') by (assumption || lia).
        apply cnt_ext_in. intros y Hy. rewrite Hstep by exact Hy.
        cbn [select eqb_list]. now rewrite Z.eqb_refl.
      * intros x Hx Hne. rewrite cnt_map. apply cnt_none. intros y Hy.
        rewrite Hstep by exact Hy. cbn [select eqb_list].
        destruct (Z.eqb_spec x u0); [contradiction | reflexivity].
    + rewrite (cnt_flat_map_const _ _ _ (size_of (select (map negb mask) i))).
      * unfold len. rewrite range_length.
        change (size_of (d :: select (map negb mask) i))
          with (d * size_of (select (map negb mask) i)). lia.
      * intros x Hx. rewrite cnt_map. rewrite <- (IH i u) by (assumption || lia).
        apply cnt_ext_in. intros y Hy. now rewrite Hstep by exact Hy.
Qed.

Lemma sumQ_indicator (p : Z -> bool) (L : list Z) :
  (sumQ (map (fun y => if p y then 1 else 0) L) == inject_Z (cnt p L))%Q.
Proof.
  unfold cnt, len. induction L as [|y L IH]; cbn [map sumQ fold_right filter];
    [reflexivity|].
  fold (sumQ (map (fun y => if p y then 1%Q else 0%Q) L)). rewrite IH.
  destruct (p y); cbn [length].
  - rewrite Nat2Z.inj_succ, <- Z.add_1_l, inject_Z_plus. reflexivity.
  - ring.
Qed.

Lemma sumQ_div (l : list Q) (n : Q) :
  (sumQ (map (fun x => x / n) l) == sumQ l / n)%Q.
Proof.
  induction l as [|x l IH]; cbn [map sumQ fold_right].
  - unfold Qdiv. ring.
  - fold (sumQ (map (fun x => (x / n)%Q) l)) (sumQ l). rewrite IH.
    unfold Qdiv. ring.
Qed.

(** *** The rows of the projection *)

Lemma rows_flat (F : Z -> Q) (r c : Z) :
  0 <= r -> 0 <= c ->
  rows (NdArray [r; c] (map F (range (r * c))))
  = map (fun x => map (fun y => F (x * c + y)) (range c)) (range r).
Proof.
  intros Hr Hc. unfold rows. cbn [nd_shape nd_data].
  rewrite range_mul, map_flat_map by lia.
  rewrite <- (range_length r) at 1.
  rewrite chunks_flat_map by (intros; now rewrite !length_map, range_length).
  apply map_ext. intros x. now rewrite map_map.
Qed.

Lemma select_size_split (mask : list bool) :
  forall s, length mask = length s ->
  size_of (select mask s) * size_of (select (map negb mask) s) = size_of s.
Proof.
  induction mask as [|b mask IH]; intros [|d s] Hlen; cbn in Hlen; try lia;
    [reflexivity|].
  specialize (IH s ltac:(lia)). destruct b; cbn [select map negb];
    change (size_of (d :: ?l)) with (d * size_of l);
    change (size_of (d :: s)) with (d * size_of s); nia.
Qed.

Lemma on_diagonal_app (o i : list Z) (mask : list bool) (x y : Z) :
  valid_shape o -> 0 <= x < size_of o -> 0 <= y < size_of i ->
  on_diagonal o mask (unravel (o ++ i) (x * size_of i + y))
  = eqb_list (select mask (unravel i y)) (unravel o x).
Proof.
  intros Ho Hx Hy. rewrite unravel_app by assumption. unfold on_diagonal.
  rewrite <- (unravel_length o x) at 1 2.
  rewrite firstn_app, skipn_app, Nat.sub_diag, firstn_all, skipn_all.
  cbn. now rewrite app_nil_r.
Qed.

Lemma projection_rows (i : list Z) (mask : list bool) :
  length mask = length i -> valid_shape i ->
  Forall (fun row => (sumQ row == inject_Z (size_of (select (map negb mask) i)))%Q)
    (rows (NdArray [num_neurons (select mask i); num_neurons i]
             (map (fun t => if on_diagonal (select mask i) mask
                                 (unravel (select mask i ++ i) t)
                            then 1%Q else 0%Q)
                  (range (size_of (select mask i ++ i)))))).
Proof.
  intros Hmask Hi.
  assert (Ho : valid_shape (select mask i)) by now apply select_valid.
  pose proof (size_of_valid _ Hi) as Hpi. pose proof (size_of_valid _ Ho) as Hpo.
  change num_neurons with size_of. rewrite size_of_app, rows_flat by lia.
  apply Forall_map, Forall_forall. intros x Hx. apply range_In in Hx.
  rewrite <- (count_agree mask i (unravel (select mask i) x) Hmask Hi)
    by now apply unravel_in_box.
  rewrite <- sumQ_indicator.
  rewrite (map_ext_in _ (fun y => if eqb_list (select mask (unravel i y))
                                       (unravel (select mask i) x)
                                  then 1%Q else 0%Q)); [reflexivity|].
  intros y Hy. apply range_In in Hy. now rewrite on_diagonal_app.
Qed.

Lemma rows_length (r c : Z) (d : list Q) : length (rows (NdArray [r; c] d)) = Z.to_nat r.
Proof.
  unfold rows. cbn [nd_shape nd_data]. generalize (Z.to_nat c) as n.
  generalize (Z.to_nat r) as k. intros k. revert d.
  induction k as [|k IH]; intros d n; cbn; [reflexivity | now rewrite IH].
Qed.

Lemma rows_np_div (r c n : Z) (d : list Q) :
  rows (np_div (NdArray [r; c] d) n)
  = map (map (fun x => (x / inject_Z n)%Q)) (rows (NdArray [r; c] d)).
Proof.
  unfold rows, np_div. cbn [nd_shape nd_data]. generalize (Z.to_nat c) as k.
  generalize (Z.to_nat r) as m. intros m. revert d.
  induction m as [|m IH]; intros d k; cbn [chunks map]; [reflexivity|].
  rewrite <- IH. f_equal.
  - apply firstn_map.
  - f_equal. apply skipn_map.
Qed.

(** Row sums of ReduceDims in general.  For a valid input shape and a
    [reduce_dims] that [configure] accepts and that leaves between one and
    three axes, the output and input axes together being no more than NumPy
    allows for the tensor of [_project_dims]: the weight matrix has one row per output unit and one column
    per input unit; with SUM every row sums to the product of the sizes of the
    reduced axes; with MEAN every row sums to that product divided by
    [num_neurons(input_shape)], which is 1 over [num_neurons(output_shape)]. *)
Theorem ReduceDims_row_sums (s : shape) (a : int_or_tuple)
    (method : option Operations.ReduceMethod) (o : shape) :
  valid_shape s ->
  np_delete s (tuple_of a) = Ok o -> o <> [] -> len o <= 3 ->
  len o + len s <= NPY_MAXDIMS ->
  configure_component (O_ReduceDims a method) s = Ok (Some o) ->
  let reduced := num_neurons (reduced_sizes s (tuple_of a)) in
  reduced * num_neurons o = num_neurons s
  /\ exists m, weights_of (Operations.ReduceDims a method) s = Ok m
       /\ nd_shape m = [num_neurons o; num_neurons s]
       /\ length (rows m) = Z.to_nat (num_neurons o)
       /\ Forall (fun row =>
                    (sumQ row == match method with
                                 | Some Operations.MEAN =>
                                     inject_Z reduced / inject_Z (num_neurons s)
                                 | _ => inject_Z reduced
                                 end)%Q)
                 (rows m).
Proof.
  intros Hs Hdel Hne Hlen Hdims Hconf reduced. subst reduced.
  unfold reduced_sizes. unfold np_delete in Hdel. cbn [bind ret Monad_result] in Hdel.
  destruct (mapM (normalize_index (len s)) (tuple_of a)) as [drop|] eqn:Hdrop;
    [|discriminate].
  injection Hdel as Hdel. rewrite drop_positions_select in Hdel.
  set (mask := mask_from drop 0 (length s)) in *.
  assert (Hmask : length mask = length s) by apply mask_from_length.
  split.
  { change num_neurons with size_of. rewrite <- Hdel, Z.mul_comm.
    now apply select_size_split. }
  assert (HK : np_delete (range (num_dims s)) (tuple_of a)
               = Ok (select mask (range (num_dims s)))).
  { unfold np_delete. cbn [bind ret Monad_result].
    replace (len (range (num_dims s))) with (len s)
      by (unfold len, num_dims; rewrite range_length; unfold len; lia).
    rewrite Hdrop. rewrite drop_positions_select.
    unfold num_dims at 1. rewrite range_length. unfold len. now rewrite Nat2Z.id. }
  assert (Hproj := project_dims_reduce s mask Hmask Hs).
  rewrite Hdel in Hproj.
  specialize (Hproj ltac:(destruct o; [contradiction | unfold len in Hlen; cbn in *; lia])).
  specialize (Hproj ltac:(now rewrite len_app)).
  assert (Hrows := projection_rows s mask Hmask Hs). rewrite Hdel in Hrows.
  rewrite (ReduceDims_configure s a method _ (or_intror eq_refl)) in Hconf.
  destruct (num_dims s =? 0) eqn:E0; [discriminate|].
  destruct (len (tuple_of a) =? 0) eqn:E1; [discriminate|].
  destruct (len s <? len (tuple_of a)) eqn:E2; [discriminate|].
  destruct (existsb (out_of_bounds (len s)) (tuple_of a)) eqn:E3; [discriminate|].
  unfold weights_of, Operations.configure, Operations.ReduceDims_methods,
    Operations.AbstractComputedShapeOperation_configure, Operations.ReduceDims,
    Operations.compute_weights.
  cbn -[np_delete Operations._project_dims range num_neurons np_div].
  rewrite E0. cbn -[np_delete Operations._project_dims range num_neurons np_div].
  rewrite E1. cbn -[np_delete Operations._project_dims range num_neurons np_div].
  rewrite E2. cbn -[np_delete Operations._project_dims range num_neurons np_div].
  rewrite for_each_raise_if, E3.
  cbn -[np_delete Operations._project_dims range num_neurons np_div].
  unfold np_delete at 1. cbn [bind ret Monad_result]. rewrite Hdrop.
  rewrite drop_positions_select. fold mask. rewrite Hdel.
  destruct o as [|o0 o']; [contradiction|].
  cbn -[np_delete Operations._project_dims range num_neurons np_div].
  rewrite HK. cbn -[np_delete Operations._project_dims range num_neurons np_div].
  rewrite Hproj.
  destruct method as [[|]|];
    cbn -[np_delete Operations._project_dims range num_neurons np_div];
    eexists; (split; [reflexivity|]); (split; [reflexivity|]).
  - split; [apply rows_length | exact Hrows].
  - split.
    + rewrite rows_np_div, length_map. apply rows_length.
    + rewrite rows_np_div. apply Forall_map.
      eapply Forall_impl; [|exact Hrows]. cbn beta. intros row Hrow.
      now rewrite sumQ_div, Hrow.
  - split; [apply rows_length | exact Hrows].
Qed.

(** The row sums at input shape (2, 3, 4) with axes 0 and 2 reduced and
    MEAN: 8 positions are reduced per output unit, and each row sums to 8/24. *)
Lemma ReduceDims_row_sums_witness :
  num_neurons (reduced_sizes [2; 3; 4] [0; 2]) * num_neurons [3] = num_neurons [2; 3; 4]
  /\ exists m,
       weights_of (Operations.ReduceDims (PyTuple [0; 2]) (Some Operations.MEAN)) [2; 3; 4]
       = Ok m
       /\ nd_shape m = [num_neurons [3]; num_neurons [2; 3; 4]]
       /\ length (rows m) = Z.to_nat (num_neurons [3])
       /\ Forall (fun row =>
                    Qeq (sumQ row)
                        (Qdiv (inject_Z (num_neurons (reduced_sizes [2; 3; 4] [0; 2])))
                              (inject_Z (num_neurons [2; 3; 4]))))
                 (rows m).
Proof.
  apply (ReduceDims_row_sums [2; 3; 4] (PyTuple [0; 2]) (Some Operations.MEAN) [3]);
    [ repeat constructor; lia
    | reflexivity
    | discriminate
    | vm_compute; discriminate
    | vm_compute; discriminate
    | reflexivity ].
Defined.

(** The reduced axes of (2, 3, 4): axes 0 and 2 have sizes 2 and 4; an axis
    named twice, once from the end, counts once. *)
Example reduced_sizes_234 :
  reduced_sizes [2; 3; 4] [0; 2] = [2; 4] /\ reduced_sizes [2; 3; 4] [-1; 2] = [4].
Proof. split; reflexivity. Qed.

(** ** Validation is enough for NumPy's indexing *)

Lemma mapM_succeeds {A B : Type} (f : A -> result B) (l : list A) :
  Forall (fun x => exists y, f x = Ok y) l -> exists ys, mapM f l = Ok ys.
Proof.
  induction 1 as [|x l [y Hy] Hl [ys IH]]; [now exists []|].
  exists (y :: ys). cbn [mapM]. rewrite Hy. cbn [bind Monad_result].
  rewrite IH. reflexivity.
Qed.

Lemma normalize_index_validated (n x : Z) :
  out_of_bounds n x = false ->
  normalize_index n x = Ok (if x <? 0 then x + n else x).
Proof.
  unfold out_of_bounds, normalize_index. intros H.
  apply orb_false_iff in H. destruct H as [H1 H2].
  destruct (Z.ltb_spec x 0).
  - apply Z.ltb_ge in H1. apply Z.leb_gt in H2.
    destruct (Z.ltb_spec x (- n)); [lia|].
    destruct (Z.leb_spec n x); [lia|]. reflexivity.
  - apply Z.leb_gt in H2.
    destruct (Z.ltb_spec x (- n)); [lia|].
    destruct (Z.leb_spec n x); [lia|]. reflexivity.
Qed.

Lemma existsb_false_Forall {A : Type} (p : A -> bool) (l : list A) :
  existsb p l = false <-> Forall (fun x => p x = false) l.
Proof.
  induction l as [|x l IH]; cbn; [split; [constructor | reflexivity]|].
  rewrite orb_false_iff, IH. split.
  - intros [Hx Hl]. now constructor.
  - intros H. inversion H; subst. now split.
Qed.

Lemma validated_normalizes (n : Z) (r : list Z) :
  existsb (out_of_bounds n) r = false ->
  exists drop, mapM (normalize_index n) r = Ok drop.
Proof.
  intros H. apply mapM_succeeds. apply existsb_false_Forall in H.
  eapply Forall_impl; [|exact H]. cbn. intros x Hx.
  rewrite (normalize_index_validated n x Hx). now eexists.
Qed.

Lemma validated_take (s order : list Z) :
  existsb (out_of_bounds (len s)) order = false ->
  exists o, np_take s order = Ok o.
Proof.
  intros H. apply mapM_succeeds. apply existsb_false_Forall in H.
  eapply Forall_impl; [|exact H]. cbn. intros x Hx.
  rewrite (normalize_index_validated _ x Hx). now eexists.
Qed.

(** ** Handlers and operations side by side *)

(** Each shape handler and the operation of the same kind run the same
    checks: on every input shape, [configure] of KeepShapeHandler and Weights,
    of ReduceDimsHandler and ReduceDims, of ExpandDimsHandler and ExpandDims,
    of ReshapeHandler and a reshape operation end the same way, with the same
    exception or the same output shape.  ReorderHandler and Reorder raise the
    same exceptions on the same inputs; the output shapes they compute differ. *)
Theorem handler_operation_agree (s : shape) :
  (forall w, configure_component H_KeepShape s = configure_component (O_Weights w) s)
  /\ (forall a m,
        configure_component (H_ReduceDims a) s = configure_component (O_ReduceDims a m) s)
  /\ (forall a, configure_component (H_ExpandDims a) s = configure_component (O_ExpandDims a) s)
  /\ (forall t, configure_component (H_Reshape t) s = configure_component (O_Reshape t) s)
  /\ (forall order e,
        configure_component (H_Reorder order) s = Raise e
        <-> configure_component (O_Reorder order) s = Raise e).
Proof.
  split; [intros w; now destruct (KeepShape_configure s w) as [-> ->]|].
  split; [intros a m;
          now rewrite (ReduceDims_configure s a m _ (or_introl eq_refl)),
                      (ReduceDims_configure s a m _ (or_intror eq_refl))|].
  split; [intros a;
          now rewrite (ExpandDims_configure s a _ (or_introl eq_refl)),
                      (ExpandDims_configure s a _ (or_intror eq_refl))|].
  split; [intros t; now destruct (Reshape_configure_eq s t) as [-> ->]|].
  intros order e.
  rewrite (Reorder_configure s order _ (or_introl eq_refl)),
          (Reorder_configure s order _ (or_intror eq_refl)).
  destruct (num_dims s <? 2) eqn:E2; [reflexivity|].
  destruct (negb (len order =? num_dims s)) eqn:El; [reflexivity|].
  destruct (existsb (out_of_bounds (len s)) order) eqn:Eb; [reflexivity|].
  destruct (validated_take s order Eb) as [o ->]. split; discriminate.
Qed.

(** ** The outcome of [configure], condition by condition *)

Lemma len_zero_iff {A : Type} (l : list A) : (len l =? 0) = true <-> l = [].
Proof.
  split; [apply len_zero_nil | intros ->; reflexivity].
Qed.

Lemma out_of_bounds_false_iff (n idx : Z) :
  0 <= n -> (out_of_bounds n idx = false <-> - n <= idx < n).
Proof.
  intros Hn. destruct (out_of_bounds n idx) eqn:E.
  - apply out_of_bounds_spec in E; [|exact Hn]. unfold out_of_range in E.
    split; [discriminate | lia].
  - split; [intros _ | reflexivity].
    destruct (Z_lt_ge_dec idx (- n)) as [H|H].
    + assert (Ht : out_of_bounds n idx = true)
        by (apply out_of_bounds_spec; [exact Hn | left; exact H]). congruence.
    + destruct (Z_lt_ge_dec idx n) as [H'|H']; [lia|].
      assert (Ht : out_of_bounds n idx = true)
        by (apply out_of_bounds_spec; [exact Hn | right; lia]). congruence.
Qed.

Lemma in_range_validated (n : Z) (r : list Z) :
  0 <= n -> Forall (fun idx => - n <= idx < n) r -> existsb (out_of_bounds n) r = false.
Proof.
  intros Hn H. apply existsb_false_Forall. eapply Forall_impl; [|exact H].
  intros idx Hidx. now apply out_of_bounds_false_iff.
Qed.

Lemma validated_in_range (n : Z) (r : list Z) :
  0 <= n -> existsb (out_of_bounds n) r = false -> Forall (fun idx => - n <= idx < n) r.
Proof.
  intros Hn H. apply existsb_false_Forall in H. eapply Forall_impl; [|exact H].
  intros idx Hidx. now apply out_of_bounds_false_iff in Hidx.
Qed.

(** What [configure] of ReduceDimsHandler and ReduceDims does, in the order
    of its checks: a zero-dimensional input raises MisconfiguredOpError; an
    empty [reduce_dims], or one longer than the input shape, raises
    ValueError; an index outside [-n, n) raises IndexError; everything else is
    accepted, and the output shape is never empty and never longer than the
    input shape. *)
Theorem ReduceDims_configure_outcome (s : shape) (a : int_or_tuple)
    (m : option Operations.ReduceMethod) (c : component) :
  c = H_ReduceDims a \/ c = O_ReduceDims a m ->
  (s = [] -> configure_component c s = Raise MisconfiguredOpError)
  /\ (s <> [] -> tuple_of a = [] \/ len s < len (tuple_of a) ->
      configure_component c s = Raise ValueError)
  /\ (s <> [] -> tuple_of a <> [] -> len (tuple_of a) <= len s ->
      Exists (out_of_range (len s)) (tuple_of a) ->
      configure_component c s = Raise IndexError)
  /\ (s <> [] -> tuple_of a <> [] -> len (tuple_of a) <= len s ->
      Forall (fun idx => - len s <= idx < len s) (tuple_of a) ->
      exists o, configure_component c s = Ok (Some o)
                /\ o <> [] /\ len o <= len s).
Proof.
  intros Hc. rewrite (ReduceDims_configure s a m c Hc). unfold num_dims.
  set (r := tuple_of a).
  assert (Hs : s <> [] -> (len s =? 0) = false).
  { intros Hne. destruct (len s =? 0) eqn:E; [|reflexivity].
    apply len_zero_iff in E. contradiction. }
  assert (Hr : r <> [] -> (len r =? 0) = false).
  { intros Hne. destruct (len r =? 0) eqn:E; [|reflexivity].
    apply len_zero_iff in E. contradiction. }
  split; [intros ->; reflexivity|].
  split.
  { intros Hne [Hempty | Hlong]; rewrite (Hs Hne).
    - now rewrite Hempty.
    - destruct (len r =? 0); [reflexivity|].
      destruct (Z.ltb_spec (len s) (len r)); [reflexivity | lia]. }
  split.
  { intros Hne Hrne Hle Hex. rewrite (Hs Hne), (Hr Hrne).
    destruct (Z.ltb_spec (len s) (len r)); [lia|].
    now rewrite existsb_out_of_bounds by (apply len_nonneg || exact Hex). }
  intros Hne Hrne Hle Hall. rewrite (Hs Hne), (Hr Hrne).
  destruct (Z.ltb_spec (len s) (len r)); [lia|].
  pose proof (in_range_validated (len s) r (len_nonneg s) Hall) as Hv.
  rewrite Hv. destruct (validated_normalizes _ _ Hv) as [drop Hdrop].
  unfold np_delete. rewrite Hdrop. cbn [bind ret Monad_result].
  pose proof (select_length_le (mask_from drop 0 (length s)) s) as Hsel.
  rewrite <- drop_positions_select in Hsel.
  destruct (drop_positions drop 0 s) as [|d o] eqn:Eo.
  - exists [1]. split; [reflexivity|]. split; [discriminate|].
    destruct s; [contradiction|]. unfold len. cbn. lia.
  - exists (d :: o). split; [reflexivity|]. split; [discriminate|].
    unfold len. lia.
Qed.

(** When [configure] of ReduceDimsHandler or ReduceDims succeeds, the sizes
    of the reduced axes times the number of neurons of the output shape is the
    number of neurons of the input shape, also when an axis is named twice and
    when every axis is reduced and the output shape is (1,). *)
Theorem ReduceDims_conserves_neurons (s o : shape) (a : int_or_tuple)
    (m : option Operations.ReduceMethod) (c : component) :
  c = H_ReduceDims a \/ c = O_ReduceDims a m ->
  configure_component c s = Ok (Some o) ->
  num_neurons (reduced_sizes s (tuple_of a)) * num_neurons o = num_neurons s.
Proof.
  intros Hc. rewrite (ReduceDims_configure s a m c Hc).
  destruct (num_dims s =? 0); [discriminate|].
  destruct (len (tuple_of a) =? 0); [discriminate|].
  destruct (len s <? len (tuple_of a)); [discriminate|].
  destruct (existsb _ (tuple_of a)); [discriminate|].
  unfold np_delete, reduced_sizes.
  destruct (mapM (normalize_index (len s)) (tuple_of a)) as [drop|]; [|discriminate].
  cbn [bind ret Monad_result]. rewrite drop_positions_select.
  pose proof (select_size_split (mask_from drop 0 (length s)) s
                (mask_from_length drop (length s) 0)) as Hsplit.
  change num_neurons with size_of.
  destruct (select (mask_from drop 0 (length s)) s) as [|d o'] eqn:Eo;
    intros [= <-]; [|lia].
  change (size_of []) with 1 in Hsplit. change (size_of [1]) with 1. lia.
Qed.

Lemma existsb_lt1_Exists (n : list Z) :
  existsb (fun s => s <? 1) n = true <-> Exists (fun d => d < 1) n.
Proof.
  rewrite existsb_exists, Exists_exists.
  split; intros [x [Hin Hx]]; exists x; (split; [exact Hin|]);
    [now apply Z.ltb_lt | now apply Z.ltb_lt].
Qed.

Lemma valid_not_Exists (n : list Z) : valid_shape n <-> ~ Exists (fun d => d < 1) n.
Proof.
  unfold valid_shape. rewrite Forall_forall, Exists_exists. split.
  - intros H [x [Hin Hx]]. apply H in Hin. lia.
  - intros H x Hin. destruct (Z_lt_ge_dec x 1) as [Hlt|Hge]; [|lia].
    exfalso. apply H. now exists x.
Qed.

(** Closing the cases of an outcome table once the tests are decided. *)
Ltac outcome :=
  repeat split; intros;
  repeat match goal with
         | H : exists _, _ |- _ => destruct H
         | H : _ /\ _ |- _ => destruct H
         | H : _ \/ _ |- _ => destruct H
         | H : Raise _ = Raise _ |- _ => injection H as H
         | H : Ok _ = Ok _ |- _ => injection H as H
         end;
  subst; try discriminate; try contradiction; try congruence; try lia;
  eauto 6.

(** What [configure] of ExpandDimsHandler and ExpandDims does, exactly:
    ValueError if and only if [new_dims_shape] is empty or has an entry below
    1; NotImplementedError if and only if [new_dims_shape] is acceptable and
    input and new axes together are more than three; otherwise success, with
    the new axes appended to the input shape.  No other exception is raised,
    and the entries of the input shape are never looked at. *)
Theorem ExpandDims_configure_outcome (s : shape) (a : int_or_tuple) (c : component) :
  c = H_ExpandDims a \/ c = O_ExpandDims a ->
  (configure_component c s = Raise ValueError
   <-> tuple_of a = [] \/ Exists (fun d => d < 1) (tuple_of a))
  /\ (configure_component c s = Raise NotImplementedError
      <-> tuple_of a <> [] /\ valid_shape (tuple_of a) /\ 3 < len s + len (tuple_of a))
  /\ (forall o, configure_component c s = Ok o
      <-> tuple_of a <> [] /\ valid_shape (tuple_of a)
          /\ len s + len (tuple_of a) <= 3 /\ o = Some (s ++ tuple_of a))
  /\ (forall e, configure_component c s = Raise e ->
      e = ValueError \/ e = NotImplementedError).
Proof.
  intros Hc. rewrite (ExpandDims_configure s a c Hc). unfold num_dims.
  destruct (len (tuple_of a) =? 0) eqn:E0.
  { apply len_zero_iff in E0. outcome. }
  assert (Hne : tuple_of a <> []) by (intros Hnil; rewrite Hnil in E0; discriminate).
  destruct (existsb (fun s0 => s0 <? 1) (tuple_of a)) eqn:E1.
  { apply existsb_lt1_Exists in E1.
    assert (Hnv : ~ valid_shape (tuple_of a)) by (intros Hv; now apply valid_not_Exists in Hv).
    outcome. }
  assert (Hv : valid_shape (tuple_of a)) by now apply valid_existsb_lt1.
  assert (Hnex : ~ Exists (fun d => d < 1) (tuple_of a)) by now apply valid_not_Exists.
  destruct (Z.ltb_spec 3 (len s + len (tuple_of a))); outcome.
Qed.

(** What [configure] of ReorderHandler and Reorder does, exactly: it succeeds
    if and only if the input has at least two axes, [order] has one entry per
    axis and every entry is in [-n, n); it raises MisconfiguredOpError if and
    only if the input has fewer than two axes or the lengths differ, and
    IndexError if and only if the lengths agree and an entry is out of range.
    Nothing else is raised; in particular a repeated entry is accepted. *)
Theorem Reorder_configure_outcome (s order : list Z) (c : component) :
  c = H_Reorder order \/ c = O_Reorder order ->
  ((exists o, configure_component c s = Ok o)
   <-> 2 <= len s /\ len order = len s
       /\ Forall (fun idx => - len s <= idx < len s) order)
  /\ (configure_component c s = Raise MisconfiguredOpError
      <-> len s < 2 \/ len order <> len s)
  /\ (configure_component c s = Raise IndexError
      <-> 2 <= len s /\ len order = len s /\ Exists (out_of_range (len s)) order)
  /\ (forall e, configure_component c s = Raise e ->
      e = MisconfiguredOpError \/ e = IndexError).
Proof.
  intros Hc. rewrite (Reorder_configure s order c Hc). unfold num_dims.
  destruct (Z.ltb_spec (len s) 2); [outcome|].
  destruct (Z.eqb_spec (len order) (len s)) as [Hl|Hl]; cbn [negb]; [|outcome].
  destruct (existsb (out_of_bounds (len s)) order) eqn:Eb.
  - assert (Hex : Exists (out_of_range (len s)) order).
    { apply existsb_exists in Eb. destruct Eb as [x [Hin Hx]].
      apply Exists_exists. exists x. split; [exact Hin|].
      apply out_of_bounds_spec in Hx; [exact Hx | apply len_nonneg]. }
    assert (Hnall : ~ Forall (fun idx => - len s <= idx < len s) order).
    { intros Hall. apply (in_range_validated _ _ (len_nonneg s)) in Hall. congruence. }
    outcome.
  - pose proof (validated_in_range _ _ (len_nonneg s) Eb) as Hin.
    assert (Hnex : ~ Exists (out_of_range (len s)) order).
    { intros Hex. apply (existsb_out_of_bounds _ _ (len_nonneg s)) in Hex. congruence. }
    destruct Hc as [-> | ->]; [destruct (validated_take s order Eb) as [o ->]|];
      outcome.
Qed.

(** ** Configuring again *)

(** One test or loop of a [configure] run. *)
Ltac configure_step :=
  first
    [ rewrite !for_each_raise_if
    | match goal with
      | |- context [raise_if ?b _ _] => destruct b eqn:?
      | |- context [if ?b then _ else _] => destruct b eqn:?
      | |- context [match ?r with Ok _ => _ | Raise _ => _ end] => destruct r eqn:?
      | |- context [match ?l with [] => _ | _ :: _ => _ end] => destruct l eqn:?
      end ];
  cbn -[np_delete np_take].

(** Configuring again: [configure] of the Keep, ReduceDims, ExpandDims and
    Reorder handlers and of the Weights, ReduceDims, ExpandDims and Reorder
    operations does not depend on the shapes an earlier [configure] left.  It
    raises or returns as on a fresh instance, and on success the instance is
    what a fresh one would have become. *)
Theorem configure_history_independent :
  history_independent (@ShapeHandlers.configure ShapeHandlers.KeepShape _)
  /\ history_independent (@ShapeHandlers.configure ShapeHandlers.ReduceDims _)
  /\ history_independent (@ShapeHandlers.configure ShapeHandlers.ExpandDims _)
  /\ history_independent (@ShapeHandlers.configure ShapeHandlers.Reorder _)
  /\ history_independent (@Operations.configure Operations.WeightsOp _)
  /\ history_independent (@Operations.configure Operations.ReduceDimsOp _)
  /\ history_independent (@Operations.configure Operations.ExpandDimsOp _)
  /\ history_independent (@Operations.configure Operations.ReorderOp _).
Proof.
  repeat match goal with |- _ /\ _ => split end;
    intros [p i o] s; unfold fresh;
    unfold ShapeHandlers.configure, Operations.configure,
      Operations.AbstractComputedShapeOperation_configure;
    cbn -[np_delete np_take];
    repeat configure_step; split; intros; try reflexivity; try discriminate.
Qed.

(** What a failed [configure] leaves behind.  For the ReduceDims, Reshape and
    Reorder handlers and operations the output shape is what it was before
    the call (a stale shape of an earlier [configure], if there was one).  The
    ReduceDims, ExpandDims, Reshape and Reorder operations have stored the
    refused input shape by then. *)
Theorem failed_configure_state :
  (keeps_output_on_failure (@ShapeHandlers.configure ShapeHandlers.ReduceDims _)
   /\ keeps_output_on_failure (@ShapeHandlers.configure ShapeHandlers.Reshape _)
   /\ keeps_output_on_failure (@ShapeHandlers.configure ShapeHandlers.Reorder _)
   /\ keeps_output_on_failure (@Operations.configure Operations.ReduceDimsOp _)
   /\ keeps_output_on_failure
        (@Operations.AbstractSpecifiedShapeOperation_configure Operations.ReshapeOp _)
   /\ keeps_output_on_failure (@Operations.configure Operations.ReorderOp _))
  /\ (stores_input_on_failure (@Operations.configure Operations.ReduceDimsOp _)
      /\ stores_input_on_failure (@Operations.configure Operations.ExpandDimsOp _)
      /\ stores_input_on_failure
           (@Operations.AbstractSpecifiedShapeOperation_configure Operations.ReshapeOp _)
      /\ stores_input_on_failure (@Operations.configure Operations.ReorderOp _)).
Proof.
  repeat match goal with |- _ /\ _ => split end;
    intros [p i o] s e;
    unfold ShapeHandlers.configure, Operations.configure,
      Operations.AbstractComputedShapeOperation_configure,
      Operations.AbstractSpecifiedShapeOperation_configure;
    cbn -[np_delete np_take];
    repeat configure_step; intros; try reflexivity; try discriminate.
Qed.

(** ExpandDims stores the output shape before it refuses it: after
    [configure] raised NotImplementedError, input and output shape are both
    set, so [assert_configured] of the handler passes and [compute_weights]
    of the operation goes on to [_compute_weights] instead of raising
    AssertionError. *)
Theorem ExpandDims_failed_configure_passes_guard :
  (forall (self : obj ShapeHandlers.ExpandDims) (s : shape),
     snd (ShapeHandlers.configure s self) = Raise NotImplementedError ->
     let self' := fst (ShapeHandlers.configure s self) in
     _input_shape self' = Some s
     /\ _output_shape self' = Some (s ++ ShapeHandlers._new_dims_shape (params self))
     /\ ShapeHandlers.assert_configured self' = (self', Ok tt))
  /\ (forall (self : obj Operations.ExpandDimsOp) (s : shape),
        snd (Operations.configure s self) = Raise NotImplementedError ->
        let self' := fst (Operations.configure s self) in
        _input_shape self' = Some s
        /\ _output_shape self' = Some (s ++ Operations.new_dims_shape (params self))
        /\ Operations.compute_weights self' = Operations._compute_weights self').
Proof.
  split; intros [[n] i o] s;
    unfold ShapeHandlers.configure, Operations.configure,
      Operations.AbstractComputedShapeOperation_configure;
    cbn -[np_delete np_take];
    repeat configure_step; intros; try discriminate;
    repeat split; try reflexivity;
    match goal with
    | H : (num_dims s =? 0) = true |- _ => apply len_zero_nil in H; now subst s
    end.
Qed.

(** Expanding (2, 3) by (4, 5) is refused, and [compute_weights] then
    returns a 120 x 6 matrix. *)
Example ExpandDims_23_45_after_failure :
  let self' := fst (Operations.configure [2; 3] (Operations.ExpandDims (PyTuple [4; 5]))) in
  snd (Operations.configure [2; 3] (Operations.ExpandDims (PyTuple [4; 5])))
  = Raise NotImplementedError
  /\ exists m, snd (Operations.compute_weights self') = Ok m /\ nd_shape m = [120; 6].
Proof.
  split; [reflexivity|]. eexists. split; [vm_compute; reflexivity | reflexivity].
Qed.

(** Reducing axes 0 and -1 of (2, 3, 4) is accepted and leaves a non-empty
    shape of at most three axes. *)
Lemma ReduceDims_configure_outcome_witness :
  exists o,
    configure_component (O_ReduceDims (PyTuple [0; -1]) (Some Operations.SUM)) [2; 3; 4]
    = Ok (Some o)
    /\ o <> [] /\ len o <= len [2; 3; 4].
Proof.
  apply (ReduceDims_configure_outcome [2; 3; 4] (PyTuple [0; -1]) (Some Operations.SUM) _
           (or_intror eq_refl));
    [ discriminate
    | discriminate
    | vm_compute; discriminate
    | repeat constructor; cbn; lia ].
Defined.

(** Reducing axes 0 and 2 of (2, 3, 4): 8 * 3 = 24. *)
Lemma ReduceDims_conserves_neurons_witness :
  num_neurons (reduced_sizes [2; 3; 4] (tuple_of (PyTuple [0; 2]))) * num_neurons [3]
  = num_neurons [2; 3; 4].
Proof.
  apply (ReduceDims_conserves_neurons [2; 3; 4] [3] (PyTuple [0; 2]) None
           (H_ReduceDims (PyTuple [0; 2])));
    [ left; reflexivity | reflexivity ].
Defined.

(** Expanding (2,) by (3, 4) gives (2, 3, 4); expanding (2, 3) by (4, 5)
    raises NotImplementedError. *)
Lemma ExpandDims_configure_outcome_witness :
  configure_component (O_ExpandDims (PyTuple [3; 4])) [2] = Ok (Some [2; 3; 4])
  /\ configure_component (H_ExpandDims (PyTuple [4; 5])) [2; 3] = Raise NotImplementedError.
Proof.
  split.
  - apply (ExpandDims_configure_outcome [2] (PyTuple [3; 4]) _ (or_intror eq_refl)).
    repeat split; [discriminate | repeat constructor; lia | vm_compute; discriminate].
  - apply (ExpandDims_configure_outcome [2; 3] (PyTuple [4; 5]) _ (or_introl eq_refl)).
    repeat split; [discriminate | repeat constructor; lia].
Defined.

(** The order (2, 0, -2) is accepted on (2, 3, 4); the order (0, 1) is
    refused there with MisconfiguredOpError. *)
Lemma Reorder_configure_outcome_witness :
  (exists o, configure_component (H_Reorder [2; 0; -2]) [2; 3; 4] = Ok o)
  /\ configure_component (O_Reorder [0; 1]) [2; 3; 4] = Raise MisconfiguredOpError.
Proof.
  split.
  - apply (Reorder_configure_outcome [2; 3; 4] [2; 0; -2] _ (or_introl eq_refl)).
    repeat split; try (vm_compute; discriminate); repeat constructor; cbn; lia.
  - apply (Reorder_configure_outcome [2; 3; 4] [0; 1] _ (or_intror eq_refl)).
    right. vm_compute. discriminate.
Defined.

(** After the refused expansion of (2, 3) by (4, 5) the operation holds the
    shapes (2, 3) and (2, 3, 4, 5), and [compute_weights] runs the projection. *)
Lemma ExpandDims_failed_configure_passes_guard_witness :
  let self' := fst (Operations.configure [2; 3] (Operations.ExpandDims (PyTuple [4; 5]))) in
  _input_shape self' = Some [2; 3]
  /\ _output_shape self' = Some [2; 3; 4; 5]
  /\ Operations.compute_weights self' = Operations._compute_weights self'.
Proof.
  apply (proj2 ExpandDims_failed_configure_passes_guard
           (Operations.ExpandDims (PyTuple [4; 5])) [2; 3]).
  reflexivity.
Defined.

(** ** The projection engine on paired axes *)

Lemma gather_length (d : Z) (ax l : list Z) : length (gather d ax l) = length ax.
Proof. unfold gather. apply length_map. Qed.

Lemma gather_app_l (d : Z) (ax l r : list Z) :
  Forall (fun a => 0 <= a < len l) ax -> gather d ax (l ++ r) = gather d ax l.
Proof.
  intros H. unfold gather. apply map_ext_in. intros a Ha.
  rewrite Forall_forall in H. apply H in Ha. apply app_nth1. unfold len in Ha. lia.
Qed.

Lemma gather_app_r (d : Z) (ax l r : list Z) :
  Forall (fun a => 0 <= a) ax ->
  gather d (map (fun a => a + len l) ax) (l ++ r) = gather d ax r.
Proof.
  intros H. unfold gather. rewrite map_map. apply map_ext_in. intros a Ha.
  rewrite Forall_forall in H. apply H in Ha.
  replace (Z.to_nat (a + len l)) with (length l + Z.to_nat a)%nat by (unfold len; lia).
  apply app_nth2_plus.
Qed.

Lemma gather_in_box (ax u sh : list Z) :
  in_box u sh -> Forall (fun a => 0 <= a < len sh) ax ->
  in_box (gather (-1) ax u) (gather 0 ax sh).
Proof.
  intros Hu Hax.
  assert (Hn : forall n, (n < length sh)%nat -> 0 <= nth n u (-1) < nth n sh 0).
  { clear - Hu. induction Hu as [|x d u sh Hx Hu IH]; intros n Hn; cbn in Hn; [lia|].
    destruct n as [|n]; cbn; [exact Hx | apply IH; lia]. }
  induction Hax as [|a ax Ha Hax IH]; cbn; [constructor|].
  constructor; [|exact IH]. apply Hn. unfold len in Ha. lia.
Qed.

Section Pairs.
Variables (o i A B : list Z).
Hypothesis HA : Forall (fun a => 0 <= a < len o) A.
Hypothesis HB : Forall (fun b => 0 <= b < len i) B.
Hypothesis HAnd : NoDup A.
Hypothesis HBnd : NoDup B.
Hypothesis Hlen : length A = length B.
Hypothesis Hsizes : gather 0 A o = gather 0 B i.
Variable rest : list Z.

Local Abbreviation source := (A ++ map (fun b => b + len o) B).
Local Abbreviation conn := ((A ++ map (fun b => b + len o) B) ++ rest).
Local Abbreviation sizes := (gather 0 A o).
Local Abbreviation sh := (o ++ i).
Local Abbreviation pdiag u :=
  (fun m => eqb_list (gather (-1) A (firstn (length o) m)) u
            && eqb_list (gather (-1) B (skipn (length o) m)) u).

Lemma pairs_source_bound : Forall (fun x => 0 <= x < len sh) source.
Proof.
  apply Forall_app. split.
  - eapply Forall_impl; [|exact HA]. cbn. intros a Ha. rewrite len_app.
    pose proof (len_nonneg i). lia.
  - apply Forall_map. eapply Forall_impl; [|exact HB]. cbn. intros b Hb.
    rewrite len_app. pose proof (len_nonneg o). lia.
Qed.

Lemma pairs_source_NoDup : NoDup source.
Proof.
  apply NoDup_app.
  - exact HAnd.
  - apply NoDup_map_inj; [intros x y Hxy; lia | exact HBnd].
  - intros a Ha Hin. apply in_map_iff in Hin. destruct Hin as [b [<- Hb]].
    rewrite Forall_forall in HA, HB. apply HA in Ha. apply HB in Hb. lia.
Qed.

Lemma pairs_gather (d : Z) (uu v : list Z) :
  length uu = length o ->
  gather d source (uu ++ v) = gather d A uu ++ gather d B v.
Proof.
  intros Huu. unfold gather at 1. rewrite map_app. f_equal.
  - apply (gather_app_l d A uu v). unfold len in *. now rewrite Huu.
  - replace (len o) with (len uu) by (unfold len; now rewrite Huu).
    apply (gather_app_r d B uu v).
    eapply Forall_impl; [|exact HB]. cbn. intros; lia.
Qed.

Lemma pairs_setitem (u : list Z) (d : list Q) :
  in_box u sizes ->
  setitem (NdArray sh d) conn (u ++ u) 1%Q = Ok (NdArray sh (paint sh (pdiag u) d)).
Proof.
  intros Hu. pose proof (in_box_length _ _ Hu) as Hul. rewrite gather_length in Hul.
  unfold setitem. cbn [nd_shape nd_data].
  replace (len conn <? len (u ++ u)) with false.
  2:{ symmetry. apply Z.ltb_ge. unfold len.
      rewrite !length_app, length_map. lia. }
  replace (combine (u ++ u) conn) with (combine (u ++ u) source).
  2:{ symmetry. apply combine_front. rewrite !length_app, length_map. lia. }
  rewrite mapM_pins.
  2:{ change (map (fun ax => nth (Z.to_nat ax) sh 0) source) with (gather 0 source sh).
      rewrite pairs_gather by reflexivity. rewrite <- Hsizes.
      now apply in_box_app. }
  cbn [bind ret Monad_result]. f_equal. f_equal.
  apply paint_ext. intros t Ht.
  rewrite pinned_gather by (rewrite !length_app, length_map; lia).
  set (m := unravel sh (Z.of_nat t)).
  assert (Hm : length m = (length o + length i)%nat)
    by (subst m; now rewrite unravel_length, length_app).
  change (map (fun ax => nth (Z.to_nat ax) m (-1)) source) with (gather (-1) source m).
  rewrite <- (firstn_skipn (length o) m) at 1.
  rewrite pairs_gather by (rewrite length_firstn; lia).
  apply eqb_list_app. rewrite gather_length. lia.
Qed.

Lemma pairs_size (d : list Q) (j : nat) :
  (j < length A)%nat -> np_size (NdArray sh d) conn j = Ok (nth j sizes 0).
Proof.
  intros Hj. unfold np_size.
  rewrite <- app_assoc, nth_error_app1 by exact Hj.
  rewrite (nth_error_nth' A 0 Hj). cbn [nd_shape].
  unfold gather. rewrite (nth_map_in _ _ _ _ 0) by exact Hj.
  f_equal. apply app_nth1.
  rewrite Forall_forall in HA. pose proof (HA _ (nth_In A 0 Hj)) as Ha.
  unfold len in Ha. lia.
Qed.

Lemma paint_paired (S : list Z -> bool) (d : list Q) :
  valid_shape sh -> length d = Z.to_nat (size_of sh) ->
  (forall m, in_box (gather (-1) A (firstn (length o) m)) sizes ->
             S m = paired A B (length o) m) ->
  paint sh S d = paint sh (paired A B (length o)) d.
Proof.
  intros Hv Hd HS. apply paint_ext. intros t Ht. apply HS.
  apply gather_in_box; [|exact HA].
  apply (in_box_firstn _ o i). apply unravel_in_box; [exact Hv | lia].
Qed.

Lemma pairs_loop1 (s0 : Z) (d : list Q) :
  sizes = [s0] -> valid_shape sh -> length d = Z.to_nat (size_of sh) ->
  (size0 <- np_size (NdArray sh d) conn 0 ;;
   for_fold (range size0) (fun a weights => setitem weights conn [a; a] 1%Q)
            (NdArray sh d))
  = Ok (NdArray sh (paint sh (paired A B (length o)) d)).
Proof.
  intros Es Hv Hd.
  assert (HlA : length A = 1%nat) by (rewrite <- (gather_length 0 A o), Es; reflexivity).
  rewrite pairs_size by lia.
  cbn [bind Monad_result]. rewrite Es. cbn [nth].
  rewrite (for_fold_paint sh (fun a => pdiag [a])).
  - f_equal. f_equal. apply paint_paired; [exact Hv | exact Hd|].
    intros m Hm. cbn beta. unfold paired.
    remember (gather (-1) A (firstn (length o) m)) as uu eqn:Euu. clear Euu.
    remember (gather (-1) B (skipn (length o) m)) as sv eqn:Esv. clear Esv.
    rewrite Es in Hm. inversion Hm as [|x d0 uu' ds Hx Hnil]; subst.
    inversion Hnil; subst.
    collapse_diagonal.
  - intros a d' Ha. apply range_In in Ha.
    apply (pairs_setitem [a] d'). rewrite Es. repeat constructor; lia.
Qed.

Lemma pairs_loop2 (s0 s1 : Z) (d : list Q) :
  sizes = [s0; s1] -> valid_shape sh -> length d = Z.to_nat (size_of sh) ->
  (size0 <- np_size (NdArray sh d) conn 0 ;;
   for_fold (range size0) (fun a weights =>
     size1 <- np_size weights conn 1 ;;
     for_fold (range size1) (fun b weights =>
       setitem weights conn [a; b; a; b] 1%Q) weights)
     (NdArray sh d))
  = Ok (NdArray sh (paint sh (paired A B (length o)) d)).
Proof.
  intros Es Hv Hd.
  assert (HlA : length A = 2%nat) by (rewrite <- (gather_length 0 A o), Es; reflexivity).
  rewrite pairs_size by lia.
  cbn [bind Monad_result]. rewrite Es. cbn [nth].
  rewrite (for_fold_paint sh
             (fun a m => existsb (fun b => pdiag [a; b] m) (range s1))).
  - f_equal. f_equal. apply paint_paired; [exact Hv | exact Hd|].
    intros m Hm. cbn beta. unfold paired.
    remember (gather (-1) A (firstn (length o) m)) as uu eqn:Euu. clear Euu.
    remember (gather (-1) B (skipn (length o) m)) as sv eqn:Esv. clear Esv.
    rewrite Es in Hm. inversion Hm as [|x d0 u1 ds Hx Hrest]; subst.
    inversion Hrest as [|y d1 u2 ds1 Hy Hnil]; subst. inversion Hnil; subst.
    collapse_diagonal.
  - intros a d1 Ha. apply range_In in Ha.
    rewrite pairs_size by lia.
    cbn [bind Monad_result]. rewrite Es. cbn [nth].
    apply (for_fold_paint sh (fun b => pdiag [a; b])).
    intros b d2 Hb. apply range_In in Hb.
    apply (pairs_setitem [a; b] d2). rewrite Es. repeat constructor; lia.
Qed.

Lemma pairs_loop3 (s0 s1 s2 : Z) (d : list Q) :
  sizes = [s0; s1; s2] -> valid_shape sh -> length d = Z.to_nat (size_of sh) ->
  (size0 <- np_size (NdArray sh d) conn 0 ;;
   for_fold (range size0) (fun a weights =>
     size1 <- np_size weights conn 1 ;;
     for_fold (range size1) (fun b weights =>
       size2 <- np_size weights conn 2 ;;
       for_fold (range size2) (fun c weights =>
         setitem weights conn [a; b; c; a; b; c] 1%Q) weights) weights)
     (NdArray sh d))
  = Ok (NdArray sh (paint sh (paired A B (length o)) d)).
Proof.
  intros Es Hv Hd.
  assert (HlA : length A = 3%nat) by (rewrite <- (gather_length 0 A o), Es; reflexivity).
  rewrite pairs_size by lia.
  cbn [bind Monad_result]. rewrite Es. cbn [nth].
  rewrite (for_fold_paint sh
             (fun a m => existsb (fun b =>
                existsb (fun c => pdiag [a; b; c] m) (range s2)) (range s1))).
  - f_equal. f_equal. apply paint_paired; [exact Hv | exact Hd|].
    intros m Hm. cbn beta. unfold paired.
    remember (gather (-1) A (firstn (length o) m)) as uu eqn:Euu. clear Euu.
    remember (gather (-1) B (skipn (length o) m)) as sv eqn:Esv. clear Esv.
    rewrite Es in Hm. inversion Hm as [|x d0 u1 ds Hx Hrest]; subst.
    inversion Hrest as [|y d1 u2 ds1 Hy Hrest2]; subst.
    inversion Hrest2 as [|z d2 u3 ds2 Hz Hnil]; subst. inversion Hnil; subst.
    collapse_diagonal.
  - intros a d1 Ha. apply range_In in Ha.
    rewrite pairs_size by lia.
    cbn [bind Monad_result]. rewrite Es. cbn [nth].
    apply (for_fold_paint sh
             (fun b m => existsb (fun c => pdiag [a; b; c] m) (range s2))).
    intros b d2 Hb. apply range_In in Hb.
    rewrite pairs_size by lia.
    cbn [bind Monad_result]. rewrite Es. cbn [nth].
    apply (for_fold_paint sh (fun c => pdiag [a; b; c])).
    intros c d3 Hc. apply range_In in Hc.
    apply (pairs_setitem [a; b; c] d3). rewrite Es. repeat constructor; lia.
Qed.
End Pairs.

Lemma project_dims_pairs (i o A B : list Z) (oa ib : option (list Z)) :
  match oa with None => range (num_dims o) | Some t => t end = A ->
  match ib with None => range (num_dims i) | Some t => t end = B ->
  valid_shape i -> valid_shape o ->
  Forall (fun a => 0 <= a < len o) A -> Forall (fun b => 0 <= b < len i) B ->
  NoDup A -> NoDup B ->
  len A = Z.min (num_dims i) (num_dims o) -> length A = length B ->
  1 <= len A <= 3 ->
  gather 0 A o = gather 0 B i ->
  len (o ++ i) <= NPY_MAXDIMS ->
  Operations._project_dims i o oa ib
  = Ok (NdArray [num_neurons o; num_neurons i]
          (map (fun t => if paired A B (length o) (unravel (o ++ i) t)
                         then 1%Q else 0%Q)
               (range (size_of (o ++ i))))).
Proof.
  intros EA EB Hi Ho HA HB HAnd HBnd Hmin Hlen Hk Hsizes Hdims.
  assert (Hsh : valid_shape (o ++ i)) by now apply valid_shape_app.
  unfold Operations._project_dims. cbv zeta. rewrite EA, EB, <- Hmin.
  replace (len A =? 0) with false by (symmetry; apply Z.eqb_neq; lia).
  rewrite np_zeros_valid by assumption. cbn [bind Monad_result].
  unfold ndim. cbn [nd_shape].
  assert (Hlr : forall n, 0 <= n -> len (range n) = n)
    by (intros n Hn; unfold len; rewrite range_length; lia).
  assert (HlB : len (map (fun a => a + num_dims o) B) = len A)
    by (unfold len; rewrite length_map; lia).
  rewrite HlB, !Hlr by lia.
  rewrite <- range_app by lia.
  replace (len A + len A) with (len (A ++ map (fun b => b + len o) B))
    by (unfold len; rewrite length_app, length_map; lia).
  unfold num_dims at 1.
  rewrite np_moveaxis_front.
  2:{ now apply (pairs_source_bound o i A B). }
  2:{ now apply (pairs_source_NoDup o i A B). }
  2:{ unfold len. rewrite !length_app, length_map. unfold num_dims, len in *. lia. }
  cbn [bind Monad_result].
  set (rest := filter _ (range (len (o ++ i)))).
  assert (Hd : length (repeat 0%Q (Z.to_nat (size_of (o ++ i))))
               = Z.to_nat (size_of (o ++ i))) by apply repeat_length.
  assert (Hsize : (size_of [num_neurons o; num_neurons i] =? size_of (o ++ i)) = true).
  { apply Z.eqb_eq. rewrite size_of_app. unfold num_neurons, size_of. cbn. lia. }
  assert (Hgl : length (gather 0 A o) = length A) by apply gather_length.
  pose proof Hsizes as Hsz.
  destruct (gather 0 A o) as [|s0 [|s1 [|s2 [|s3 ss]]]] eqn:Es in Hgl, Hsz |- *;
    cbn [length] in Hgl; unfold len in Hk; try lia.
  - pose proof (pairs_loop1 o i A B HA HB Hlen Hsizes rest s0 _ Es Hsh Hd) as Hloop.
    cbn [bind Monad_result] in Hloop.
    replace (len A =? 1) with true by (symmetry; apply Z.eqb_eq; unfold len; lia).
    rewrite Hloop. unfold np_reshape. cbn [nd_shape nd_data]. rewrite Hsize.
    now rewrite paint_zeros, Z2Nat.id by (pose proof (size_of_valid _ Hsh); lia).
  - pose proof (pairs_loop2 o i A B HA HB Hlen Hsizes rest s0 s1 _ Es Hsh Hd) as Hloop.
    cbn [bind Monad_result] in Hloop.
    replace (len A =? 1) with false by (symmetry; apply Z.eqb_neq; unfold len; lia).
    replace (len A =? 2) with true by (symmetry; apply Z.eqb_eq; unfold len; lia).
    rewrite Hloop. unfold np_reshape. cbn [nd_shape nd_data]. rewrite Hsize.
    now rewrite paint_zeros, Z2Nat.id by (pose proof (size_of_valid _ Hsh); lia).
  - pose proof (pairs_loop3 o i A B HA HB Hlen Hsizes rest s0 s1 s2 _ Es Hsh Hd) as Hloop.
    cbn [bind Monad_result] in Hloop.
    replace (len A =? 1) with false by (symmetry; apply Z.eqb_neq; unfold len; lia).
    replace (len A =? 2) with false by (symmetry; apply Z.eqb_neq; unfold len; lia).
    replace (len A =? 3) with true by (symmetry; apply Z.eqb_eq; unfold len; lia).
    rewrite Hloop. unfold np_reshape. cbn [nd_shape nd_data]. rewrite Hsize.
    now rewrite paint_zeros, Z2Nat.id by (pose proof (size_of_valid _ Hsh); lia).
Qed.

(** ** Entries, rows and columns of a flat matrix *)

Lemma unravel_inj (sh : list Z) :
  valid_shape sh -> forall k k', 0 <= k < size_of sh -> 0 <= k' < size_of sh ->
  unravel sh k = unravel sh k' -> k = k'.
Proof.
  induction 1 as [|d sh Hd Hs IH]; intros k k' Hk Hk' Heq.
  - cbn in Hk, Hk'. lia.
  - pose proof (size_of_valid sh Hs) as Hpos.
    cbn [unravel] in Heq. injection Heq as Hq Hr.
    apply IH in Hr; try (apply Z.mod_pos_bound; lia).
    rewrite (Z.div_mod k (size_of sh)), (Z.div_mod k' (size_of sh)) by lia.
    now rewrite Hq, Hr.
Qed.

Lemma eqb_list_unravel (sh : list Z) (k k' : Z) :
  valid_shape sh -> 0 <= k < size_of sh -> 0 <= k' < size_of sh ->
  eqb_list (unravel sh k) (unravel sh k') = (k =? k').
Proof.
  intros Hv Hk Hk'. destruct (Z.eqb_spec k k') as [->|Hne].
  - now apply eqb_list_eq.
  - apply not_true_is_false. intros Heq. apply eqb_list_eq in Heq.
    apply Hne. now apply (unravel_inj sh Hv).
Qed.

Lemma paired_app (A B o i : list Z) (x y : Z) :
  valid_shape o -> 0 <= x < size_of o -> 0 <= y < size_of i ->
  paired A B (length o) (unravel (o ++ i) (x * size_of i + y))
  = eqb_list (gather (-1) B (unravel i y)) (gather (-1) A (unravel o x)).
Proof.
  intros Ho Hx Hy. rewrite unravel_app by assumption. unfold paired.
  rewrite <- (unravel_length o x) at 1 2.
  rewrite firstn_app, skipn_app, Nat.sub_diag, firstn_all, skipn_all.
  cbn. now rewrite app_nil_r.
Qed.

Lemma gather_range (d : Z) (l r : list Z) : gather d (range (len l)) (l ++ r) = l.
Proof. apply map_nth_range. Qed.

Lemma gather_range_all (d : Z) (l : list Z) : gather d (range (len l)) l = l.
Proof. rewrite <- (app_nil_r l) at 2. apply gather_range. Qed.

Lemma entry_flat (F : Z -> Q) (r c x y : Z) :
  0 <= x < r -> 0 <= y < c ->
  entry (NdArray [r; c] (map F (range (r * c)))) (Z.to_nat x) (Z.to_nat y)
  = F (x * c + y).
Proof.
  intros Hx Hy. unfold entry. rewrite rows_flat by lia.
  rewrite (nth_map_in _ _ _ _ 0) by (rewrite range_length; lia).
  rewrite range_nth by lia.
  rewrite (nth_map_in _ _ _ _ 0) by (rewrite range_length; lia).
  rewrite range_nth by lia. now rewrite !Z2Nat.id by lia.
Qed.

Lemma column_flat (F : Z -> Q) (r c : Z) (j : nat) :
  0 <= r -> (j < Z.to_nat c)%nat ->
  column (NdArray [r; c] (map F (range (r * c)))) j
  = map (fun x => F (x * c + Z.of_nat j)) (range r).
Proof.
  intros Hr Hj. unfold column. rewrite rows_flat by lia.
  rewrite map_map. apply map_ext. intros x.
  rewrite (nth_map_in _ _ _ _ 0) by (rewrite range_length; lia).
  now rewrite range_nth by lia.
Qed.

Lemma count_nonzero_indicator (p : Z -> bool) (L : list Z) :
  count_nonzero (map (fun y => if p y then 1%Q else 0%Q) L) = Z.to_nat (cnt p L).
Proof.
  unfold count_nonzero, cnt, len. rewrite Nat2Z.id.
  induction L as [|y L IH]; [reflexivity|].
  cbn [map filter]. destruct (p y); cbn; now rewrite IH.
Qed.

Lemma cnt_all (p : Z -> bool) (L : list Z) :
  (forall y, In y L -> p y = true) -> cnt p L = len L.
Proof.
  intros H. unfold cnt, len. induction L as [|y L IH]; [reflexivity|].
  cbn [filter]. rewrite H by now left. cbn [length].
  rewrite !Nat2Z.inj_succ, IH; [reflexivity|]. intros; apply H; now right.
Qed.

Lemma cnt_eqb_range (n c : Z) : 0 <= c < n -> cnt (fun y => y =? c) (range n) = 1.
Proof.
  intros Hc. replace n with (c + (1 + (n - c - 1))) by lia.
  rewrite range_app, cnt_app by lia.
  rewrite (cnt_none _ (range c)).
  2:{ intros y Hy. apply range_In in Hy. apply Z.eqb_neq. lia. }
  rewrite cnt_map, range_app, cnt_app by lia.
  rewrite (cnt_none _ (map _ _)).
  2:{ intros y Hy. apply in_map_iff in Hy. destruct Hy as [z [<- Hz]].
      apply range_In in Hz. apply Z.eqb_neq. lia. }
  rewrite cnt_all; [reflexivity|].
  intros y Hy. apply range_In in Hy. apply Z.eqb_eq. lia.
Qed.

(** ** The matrix that copies each input unit to [f] output units *)

Section Fanout.
Variables (c f : Z).
Hypothesis Hc : 1 <= c.
Hypothesis Hf : 1 <= f.

Local Abbreviation G := (fun t => if (t mod c =? (t / c) / f) then 1%Q else 0%Q).
Local Abbreviation M := (NdArray [c * f; c] (map G (range ((c * f) * c)))).

Lemma fanout_cell (x y : Z) : 0 <= y < c -> G (x * c + y) = if y =? x / f then 1%Q else 0%Q.
Proof.
  intros Hy. cbn beta.
  rewrite Z.add_comm, Z.mod_add, Z.mod_small by lia.
  now rewrite Z.add_comm, Z.div_add_l, (Z.div_small y c), Z.add_0_r by lia.
Qed.

Lemma fanout_entry (x y : Z) :
  0 <= x < c * f -> 0 <= y < c ->
  entry M (Z.to_nat x) (Z.to_nat y) = if y =? x / f then 1%Q else 0%Q.
Proof.
  intros Hx Hy. rewrite entry_flat by assumption. now apply fanout_cell.
Qed.

Lemma fanout_rows :
  Forall (fun row => count_nonzero row = 1%nat
                     /\ Forall (fun w => w = 1%Q \/ w = 0%Q) row) (rows M).
Proof.
  rewrite rows_flat by nia. apply Forall_map, Forall_forall. intros x Hx.
  apply range_In in Hx.
  assert (Hq : 0 <= x / f < c).
  { split; [apply Z.div_pos; lia | apply Z.div_lt_upper_bound; lia]. }
  rewrite (map_ext_in _ (fun y => if y =? x / f then 1%Q else 0%Q)).
  2:{ intros y Hy. apply range_In in Hy. now apply fanout_cell. }
  split.
  - rewrite count_nonzero_indicator, cnt_eqb_range by exact Hq. reflexivity.
  - apply Forall_map, Forall_forall. intros y _. destruct (y =? x / f); auto.
Qed.

Lemma fanout_columns (j : nat) :
  (j < Z.to_nat c)%nat -> count_nonzero (column M j) = Z.to_nat f.
Proof.
  intros Hj. rewrite column_flat by (nia || lia).
  rewrite (map_ext_in _ (fun x => if x / f =? Z.of_nat j then 1%Q else 0%Q)).
  2:{ intros x Hx. rewrite fanout_cell by lia. now rewrite Z.eqb_sym. }
  rewrite count_nonzero_indicator. f_equal.
  rewrite range_mul by lia.
  rewrite (cnt_flat_map_single _ _ _ (Z.of_nat j) f).
  - reflexivity.
  - apply range_NoDup.
  - apply range_In. lia.
  - rewrite cnt_all.
    + unfold len. rewrite length_map, range_length. lia.
    + intros y Hy. apply in_map_iff in Hy. destruct Hy as [z [<- Hz]].
      apply range_In in Hz. apply Z.eqb_eq.
      rewrite Z.div_add_l, Z.div_small by lia. lia.
  - intros q Hq Hne. apply cnt_none. intros y Hy.
    apply in_map_iff in Hy. destruct Hy as [z [<- Hz]].
    apply range_In in Hz. apply Z.eqb_neq.
    rewrite Z.div_add_l, Z.div_small by lia. lia.
Qed.
End Fanout.

Lemma gather_range_unravel_app (d : Z) (s r : list Z) (k : Z) :
  gather d (range (len s)) (unravel s k ++ r) = unravel s k.
Proof.
  replace (len s) with (len (unravel s k)) by (unfold len; now rewrite unravel_length).
  apply gather_range.
Qed.

Lemma gather_range_unravel (d : Z) (s : list Z) (k : Z) :
  gather d (range (len s)) (unravel s k) = unravel s k.
Proof. rewrite <- (app_nil_r (unravel s k)) at 1. apply gather_range_unravel_app. Qed.

Lemma ExpandDims_weights_form (s : shape) (a : int_or_tuple) (o : shape) :
  valid_shape s ->
  configure_component (O_ExpandDims a) s = Ok (Some o) ->
  weights_of (Operations.ExpandDims a) s
  = Ok (NdArray [num_neurons s * num_neurons (tuple_of a); num_neurons s]
          (map (fun t => if (t mod num_neurons s
                             =? (t / num_neurons s) / num_neurons (tuple_of a))
                         then 1%Q else 0%Q)
               (range ((num_neurons s * num_neurons (tuple_of a)) * num_neurons s)))).
Proof.
  intros Hs Hconf.
  rewrite (ExpandDims_configure s a _ (or_intror eq_refl)) in Hconf.
  destruct (len (tuple_of a) =? 0) eqn:E0; [discriminate|].
  destruct (existsb (fun s0 => s0 <? 1) (tuple_of a)) eqn:E1; [discriminate|].
  destruct (3 <? num_dims s + num_dims (tuple_of a)) eqn:E3; [discriminate|].
  injection Hconf as <-.
  unfold weights_of, Operations.configure, Operations.ExpandDims_methods,
    Operations.AbstractComputedShapeOperation_configure, Operations.ExpandDims,
    Operations.compute_weights.
  cbn -[Operations._project_dims range num_neurons].
  rewrite E0. cbn -[Operations._project_dims range num_neurons].
  rewrite E1. cbn -[Operations._project_dims range num_neurons].
  set (new := tuple_of a) in *.
  assert (Hnew : valid_shape new) by now apply valid_existsb_lt1.
  pose proof (size_of_valid _ Hs) as Hps. pose proof (size_of_valid _ Hnew) as Hpn.
  change num_neurons with size_of in *.
  destruct (num_dims s =? 0) eqn:Ed.
  - apply len_zero_nil in Ed. subst s.
    cbn -[Operations._project_dims range size_of].
    change (num_dims [] + num_dims new) with (len new) in E3. rewrite E3.
    cbn -[Operations._project_dims range size_of].
    unfold Operations._project_dims. cbv zeta.
    replace (Z.min (num_dims []) (num_dims new) =? 0) with true
      by (symmetry; apply Z.eqb_eq; unfold num_dims; pose proof (len_nonneg new);
          change (len []) with 0; lia).
    unfold np_ones, np_full. change num_neurons with size_of.
    change (size_of []) with 1.
    replace (existsb (fun d => d <? 0) [size_of new; 1]) with false
      by (symmetry; cbn; destruct (Z.ltb_spec (size_of new) 0); [lia | reflexivity]).
    change (NPY_MAXDIMS <? len [size_of new; 1]) with false.
    cbn [snd]. f_equal. rewrite !Z.mul_1_l. f_equal.
    replace (size_of [size_of new; 1]) with (size_of new * 1) by (cbn; lia).
    replace (repeat 1%Q (Z.to_nat (size_of new * 1)))
      with (map (fun _ : Z => 1%Q) (range (size_of new * 1)))
      by (now rewrite map_const, range_length).
    apply map_ext_in. intros t Ht. apply range_In in Ht.
      rewrite Z.mod_1_r, Z.div_1_r, Z.div_small by lia. reflexivity.
  - cbn -[Operations._project_dims range size_of].
    rewrite len_app. unfold num_dims in E3. rewrite E3.
    cbn -[Operations._project_dims range size_of].
    apply Z.eqb_neq in Ed, E0. apply Z.ltb_ge in E3. unfold num_dims in *.
    pose proof (len_nonneg s) as Hls. pose proof (len_nonneg new) as Hln.
    assert (Hlr : len (range (len s)) = len s)
      by (unfold len at 1; rewrite range_length; lia).
    rewrite (project_dims_pairs s (s ++ new) (range (len s)) (range (len s))).
    + change num_neurons with size_of. rewrite !size_of_app. f_equal. f_equal.
      apply map_ext_in. intros t Ht. apply range_In in Ht.
      assert (Hx : 0 <= t / size_of s < size_of s * size_of new).
      { split; [apply Z.div_pos; lia | apply Z.div_lt_upper_bound; lia]. }
      pose proof (Z.mod_pos_bound t (size_of s) ltac:(lia)) as Hy.
      rewrite (Z.div_mod t (size_of s)) at 1 by lia.
      rewrite (Z.mul_comm (size_of s) (t / size_of s)).
      rewrite paired_app
        by (try apply valid_shape_app; try rewrite size_of_app; assumption).
      set (x := t / size_of s) in *. set (y := t mod size_of s) in *.
      assert (Hq : 0 <= x / size_of new < size_of s).
      { split; [apply Z.div_pos; lia | apply Z.div_lt_upper_bound; lia]. }
      pose proof (Z.mod_pos_bound x (size_of new) ltac:(lia)) as Hr.
      rewrite (Z.div_mod x (size_of new)) at 1 by lia.
      rewrite (Z.mul_comm (size_of new) (x / size_of new)).
      rewrite unravel_app by assumption.
      rewrite gather_range_unravel, gather_range_unravel_app.
      now rewrite eqb_list_unravel by assumption.
    + reflexivity.
    + reflexivity.
    + exact Hs.
    + now apply valid_shape_app.
    + apply Forall_forall. intros x Hx. apply range_In in Hx. rewrite len_app. lia.
    + apply Forall_forall. intros x Hx. now apply range_In in Hx.
    + apply range_NoDup.
    + apply range_NoDup.
    + rewrite Hlr. unfold num_dims. rewrite len_app. lia.
    + reflexivity.
    + rewrite Hlr. lia.
    + rewrite gather_range, gather_range_all. reflexivity.
    + rewrite !len_app. unfold NPY_MAXDIMS. lia.
Qed.

(** The weights of ExpandDims in general.  For a valid input shape and a
    [new_dims_shape] that [configure] accepts, also for a zero-dimensional
    input: the matrix has one row per output unit and one column per input
    unit; output unit [x] is connected, with weight 1, to input unit
    [x / num_neurons(new_dims_shape)] and to no other; so every row has one
    nonzero entry, and the column of every input unit has
    [num_neurons(new_dims_shape)] of them, not [num_neurons(output_shape)]. *)
Theorem ExpandDims_weights (s : shape) (a : int_or_tuple) (o : shape) :
  valid_shape s ->
  configure_component (O_ExpandDims a) s = Ok (Some o) ->
  let copies := num_neurons (tuple_of a) in
  num_neurons o = num_neurons s * copies
  /\ exists m, weights_of (Operations.ExpandDims a) s = Ok m
       /\ nd_shape m = [num_neurons o; num_neurons s]
       /\ (forall x y : Z, 0 <= x < num_neurons o -> 0 <= y < num_neurons s ->
             entry m (Z.to_nat x) (Z.to_nat y) = if y =? x / copies then 1%Q else 0%Q)
       /\ Forall (fun row => count_nonzero row = 1%nat
                             /\ Forall (fun w => w = 1%Q \/ w = 0%Q) row)
                 (rows m)
       /\ (forall j : nat, (j < Z.to_nat (num_neurons s))%nat ->
             count_nonzero (column m j) = Z.to_nat copies).
Proof.
  intros Hs Hconf copies. subst copies.
  rewrite (ExpandDims_weights_form s a o Hs Hconf).
  rewrite (ExpandDims_configure s a _ (or_intror eq_refl)) in Hconf.
  destruct (len (tuple_of a) =? 0); [discriminate|].
  destruct (existsb (fun s0 => s0 <? 1) (tuple_of a)) eqn:E1; [discriminate|].
  destruct (3 <? num_dims s + num_dims (tuple_of a)); [discriminate|].
  injection Hconf as <-.
  assert (Hnew : valid_shape (tuple_of a)) by now apply valid_existsb_lt1.
  change num_neurons with size_of.
  pose proof (size_of_valid _ Hs) as Hps. pose proof (size_of_valid _ Hnew) as Hpn.
  rewrite size_of_app. split; [reflexivity|].
  eexists. split; [reflexivity|]. split; [reflexivity|].
  split; [|split].
  - intros x y Hx Hy. now apply fanout_entry.
  - now apply fanout_rows.
  - intros j Hj. now apply fanout_columns.
Qed.

(** Expanding (2, 3) by (4,): 24 output units, 6 input units, 4 copies of
    each input unit. *)
Lemma ExpandDims_weights_witness :
  num_neurons [2; 3; 4] = num_neurons [2; 3] * num_neurons [4]
  /\ exists m, weights_of (Operations.ExpandDims (PyInt 4)) [2; 3] = Ok m
       /\ nd_shape m = [num_neurons [2; 3; 4]; num_neurons [2; 3]]
       /\ (forall x y : Z, 0 <= x < num_neurons [2; 3; 4] -> 0 <= y < num_neurons [2; 3] ->
             entry m (Z.to_nat x) (Z.to_nat y)
             = if y =? x / num_neurons [4] then 1%Q else 0%Q)
       /\ Forall (fun row => count_nonzero row = 1%nat
                             /\ Forall (fun w => w = 1%Q \/ w = 0%Q) row)
                 (rows m)
       /\ (forall j : nat, (j < Z.to_nat (num_neurons [2; 3]%Z))%nat ->
             count_nonzero (column m j) = Z.to_nat (num_neurons [4])).
Proof.
  apply (ExpandDims_weights [2; 3] (PyInt 4) [2; 3; 4]);
    [ repeat constructor; lia | reflexivity ].
Defined.

(** ** ReduceDims beyond three axes *)

Lemma project_dims_reduce_beyond (i : list Z) (mask : list bool) :
  length mask = length i -> valid_shape i ->
  (3 < length (select mask i))%nat ->
  len (select mask i ++ i) <= NPY_MAXDIMS ->
  Operations._project_dims i (select mask i) None
    (Some (select mask (range (num_dims i))))
  = Raise NotImplementedError.
Proof.
  intros Hmask Hi Hk. remember (select mask i) as o eqn:Ho. symmetry in Ho.
  intros Hdims.
  assert (Hov : valid_shape o) by (rewrite <- Ho; now apply select_valid).
  assert (Hsh : valid_shape (o ++ i)) by now apply valid_shape_app.
  assert (Hle : (length o <= length i)%nat) by (rewrite <- Ho; apply select_length_le).
  assert (HK : select mask (range (num_dims i))
               = select mask (map Z.of_nat (seq 0 (length mask)))).
  { unfold range, num_dims, len. now rewrite Nat2Z.id, Hmask. }
  assert (HKlen : len (select mask (map Z.of_nat (seq 0 (length mask)))) = len o).
  { unfold len. now rewrite (K_length o i mask Hmask Ho). }
  assert (Hmin : Z.min (num_dims i) (num_dims o) = len o)
    by (unfold num_dims, len; lia).
  unfold Operations._project_dims. cbv zeta. rewrite Hmin.
  replace (len o =? 0) with false by (symmetry; apply Z.eqb_neq; unfold len; lia).
  rewrite np_zeros_valid by assumption. cbn [bind Monad_result].
  rewrite HK. unfold ndim. cbn [nd_shape]. unfold num_dims.
  assert (Hlr : len (range (len o)) = len o)
    by (unfold len; rewrite range_length; lia).
  rewrite !Hlr.
  replace (len (map (fun a => a + len o)
                    (select mask (map Z.of_nat (seq 0 (length mask))))))
    with (len o) by (rewrite <- HKlen; unfold len; now rewrite length_map).
  rewrite <- range_app by apply len_nonneg.
  rewrite (source_moveaxis o i mask Hmask Ho). cbn [bind Monad_result].
  replace (len o =? 1) with false by (symmetry; apply Z.eqb_neq; unfold len; lia).
  replace (len o =? 2) with false by (symmetry; apply Z.eqb_neq; unfold len; lia).
  replace (len o =? 3) with false by (symmetry; apply Z.eqb_neq; unfold len; lia).
  reflexivity.
Qed.

(** ReduceDims has no ceiling on the dimensionality in [configure]: a
    reduction that leaves more than three axes is accepted, and it is
    [compute_weights] that raises NotImplementedError, for SUM and MEAN, as
    long as NumPy can build the tensor of [_project_dims], which has the
    output and the input axes (with more axes than NumPy allows, [np.zeros]
    fails before that). *)
Theorem ReduceDims_beyond_three_axes (s : shape) (a : int_or_tuple)
    (method : option Operations.ReduceMethod) (o : shape) :
  valid_shape s ->
  configure_component (O_ReduceDims a method) s = Ok (Some o) ->
  3 < len o ->
  len o + len s <= NPY_MAXDIMS ->
  weights_of (Operations.ReduceDims a method) s = Raise NotImplementedError.
Proof.
  intros Hs Hconf Hlen Hdims.
  rewrite (ReduceDims_configure s a method _ (or_intror eq_refl)) in Hconf.
  destruct (num_dims s =? 0) eqn:E0; [discriminate|].
  destruct (len (tuple_of a) =? 0) eqn:E1; [discriminate|].
  destruct (len s <? len (tuple_of a)) eqn:E2; [discriminate|].
  destruct (existsb (out_of_bounds (len s)) (tuple_of a)) eqn:E3; [discriminate|].
  unfold np_delete in Hconf. cbn [bind ret Monad_result] in Hconf.
  destruct (mapM (normalize_index (len s)) (tuple_of a)) as [drop|] eqn:Hdrop;
    [|discriminate].
  cbn [bind ret Monad_result] in Hconf. rewrite drop_positions_select in Hconf.
  set (mask := mask_from drop 0 (length s)) in *.
  assert (Hmask : length mask = length s) by apply mask_from_length.
  destruct (select mask s) as [|o0 o'] eqn:Hsel; injection Hconf as <-;
    [unfold len in Hlen; cbn in Hlen; lia|].
  assert (HK : np_delete (range (num_dims s)) (tuple_of a)
               = Ok (select mask (range (num_dims s)))).
  { unfold np_delete. cbn [bind ret Monad_result].
    replace (len (range (num_dims s))) with (len s)
      by (unfold len, num_dims; rewrite range_length; unfold len; lia).
    rewrite Hdrop. rewrite drop_positions_select.
    unfold num_dims at 1. rewrite range_length. unfold len. now rewrite Nat2Z.id. }
  assert (Hproj := project_dims_reduce_beyond s mask Hmask Hs).
  rewrite Hsel in Hproj.
  specialize (Hproj ltac:(unfold len in Hlen; lia)).
  specialize (Hproj ltac:(now rewrite len_app)).
  unfold weights_of, Operations.configure, Operations.ReduceDims_methods,
    Operations.AbstractComputedShapeOperation_configure, Operations.ReduceDims,
    Operations.compute_weights.
  cbn -[np_delete Operations._project_dims range num_neurons np_div].
  rewrite E0. cbn -[np_delete Operations._project_dims range num_neurons np_div].
  rewrite E1. cbn -[np_delete Operations._project_dims range num_neurons np_div].
  rewrite E2. cbn -[np_delete Operations._project_dims range num_neurons np_div].
  rewrite for_each_raise_if, E3.
  cbn -[np_delete Operations._project_dims range num_neurons np_div].
  unfold np_delete at 1. cbn [bind ret Monad_result]. rewrite Hdrop.
  rewrite drop_positions_select. fold mask. rewrite Hsel.
  cbn -[np_delete Operations._project_dims range num_neurons np_div].
  rewrite HK. cbn -[np_delete Operations._project_dims range num_neurons np_div].
  rewrite Hproj. reflexivity.
Qed.

(** Reducing one axis of an input with 33 axes of size 1: the tensor would
    have 32 + 33 axes. *)
Example ReduceDims_too_many_axes :
  configure_component (O_ReduceDims (PyInt 0) None) (repeat 1 33)
  = Ok (Some (repeat 1 32))
  /\ weights_of (Operations.ReduceDims (PyInt 0) None) (repeat 1 33) = Raise ValueError.
Proof. split; vm_compute; reflexivity. Qed.

(** Reducing the last axis of (2, 2, 2, 2, 2) leaves four axes. *)
Lemma ReduceDims_beyond_three_axes_witness :
  weights_of (Operations.ReduceDims (PyInt (-1)) (Some Operations.MEAN)) [2; 2; 2; 2; 2]
  = Raise NotImplementedError.
Proof.
  apply (ReduceDims_beyond_three_axes [2; 2; 2; 2; 2] (PyInt (-1))
           (Some Operations.MEAN) [2; 2; 2; 2]);
    [ repeat constructor; lia | reflexivity | reflexivity | vm_compute; discriminate ].
Defined.

(** ** Reorder: what [compute_weights] makes of an accepted order *)

Lemma mapM_normalize_axis_signed (nd : Z) (l : list Z) :
  Forall (fun x => - nd <= x < nd) l ->
  mapM (normalize_axis_index nd) l = Ok (map (fun x => if x <? 0 then x + nd else x) l).
Proof.
  induction 1 as [|x l Hx Hl IH]; cbn [mapM map]; [reflexivity|].
  unfold normalize_axis_index at 1.
  destruct (Z.ltb_spec x (- nd)); [lia|]. destruct (Z.leb_spec nd x); [lia|].
  cbn -[mapM]. now rewrite IH.
Qed.

Lemma has_duplicate_false (l : list Z) : has_duplicate l = false -> NoDup l.
Proof.
  induction l as [|x l IH]; cbn; intros H; [constructor|].
  apply orb_false_iff in H. destruct H as [Hx Hl].
  constructor; [|now apply IH].
  intros Hin. apply mem_In in Hin. congruence.
Qed.

Lemma NoDup_app_disjoint {A : Type} (l1 l2 : list A) (x : A) :
  NoDup (l1 ++ l2) -> In x l1 -> In x l2 -> False.
Proof.
  induction l1 as [|y l1 IH]; intros Hnd H1 H2; [destruct H1|].
  cbn in Hnd. inversion Hnd as [|y' l' Hy Hrest]; subst.
  destruct H1 as [-> | H1].
  - apply Hy. apply in_or_app. now right.
  - now apply IH.
Qed.

Lemma Reorder_accepted (s order : list Z) (o : option shape) :
  configure_component (O_Reorder order) s = Ok o ->
  2 <= len s /\ len order = len s
  /\ Forall (fun idx => - len s <= idx < len s) order /\ o = Some s.
Proof.
  rewrite (Reorder_configure s order _ (or_intror eq_refl)). unfold num_dims.
  destruct (Z.ltb_spec (len s) 2); [discriminate|].
  destruct (Z.eqb_spec (len order) (len s)); cbn [negb]; [|discriminate].
  destruct (existsb (out_of_bounds (len s)) order) eqn:Eb; [discriminate|].
  intros [= <-]. repeat split; try assumption.
  now apply validated_in_range; [apply len_nonneg|].
Qed.

Lemma Reorder_weights_of (s order : list Z) (o : option shape) :
  configure_component (O_Reorder order) s = Ok o ->
  weights_of (Operations.Reorder order) s
  = Operations._project_dims s s (Some order) None.
Proof.
  rewrite (Reorder_configure s order _ (or_intror eq_refl)).
  destruct (num_dims s <? 2) eqn:E2; [discriminate|].
  destruct (negb (len order =? num_dims s)) eqn:El; [discriminate|].
  destruct (existsb (out_of_bounds (len s)) order) eqn:Eb; [discriminate|].
  intros _.
  unfold weights_of, Operations.configure, Operations.Reorder_methods,
    Operations.Reorder_validate_user_inputs, Operations.Reorder,
    Operations.compute_weights.
  cbn -[Operations._project_dims].
  rewrite E2. cbn -[Operations._project_dims].
  rewrite El. cbn -[Operations._project_dims].
  rewrite for_each_raise_if, Eb. cbn -[Operations._project_dims].
  reflexivity.
Qed.

(** [configure] of Reorder accepts negative and repeated entries of [order],
    and [compute_weights] cannot use them: [np.moveaxis] counts a negative
    entry from the end of the combined output and input axes, where it meets
    an input axis, and refuses an axis named twice.  The call raises
    ValueError. *)
Theorem Reorder_weights_negative_or_repeated (s order : list Z) (o : option shape) :
  configure_component (O_Reorder order) s = Ok o ->
  Exists (fun idx => idx < 0) order \/ ~ NoDup order ->
  weights_of (Operations.Reorder order) s = Raise ValueError.
Proof.
  intros Hconf Hbad. rewrite (Reorder_weights_of s order o Hconf).
  destruct (Reorder_accepted s order o Hconf) as [Hn [Hlen [Hin _]]].
  unfold Operations._project_dims. cbv zeta. unfold num_dims.
  rewrite Z.min_id.
  replace (len s =? 0) with false by (symmetry; apply Z.eqb_neq; lia).
  unfold np_zeros, np_full.
  destruct (existsb (fun d => d <? 0) (s ++ s)); [reflexivity|].
  destruct (NPY_MAXDIMS <? len (s ++ s)); [reflexivity|].
  cbn [bind Monad_result]. unfold ndim. cbn [nd_shape].
  unfold np_moveaxis, normalize_axis_tuple. rewrite len_app.
  rewrite mapM_normalize_axis_signed.
  2:{ apply Forall_app. split.
      - eapply Forall_impl; [|exact Hin]. cbn. intros; lia.
      - apply Forall_map, Forall_forall. intros x Hx. apply range_In in Hx. lia. }
  cbn [bind Monad_result].
  match goal with |- context [has_duplicate ?l] => destruct (has_duplicate l) eqn:Ed end;
    [reflexivity|].
  exfalso. apply has_duplicate_false in Ed. rewrite map_app in Ed.
  destruct Hbad as [Hneg | Hdup].
  - apply Exists_exists in Hneg. destruct Hneg as [idx [Hidx Hlt]].
    rewrite Forall_forall in Hin. pose proof (Hin _ Hidx) as Hb.
    apply (NoDup_app_disjoint _ _ (idx + (len s + len s)) Ed).
    + apply in_map_iff. exists idx. split; [|exact Hidx].
      destruct (Z.ltb_spec idx 0); [reflexivity | lia].
    + apply in_map_iff. exists (idx + len s + len s). split.
      * destruct (Z.ltb_spec (idx + len s + len s) 0); lia.
      * apply in_map_iff. exists (idx + len s). split; [reflexivity|].
        apply range_In. lia.
  - apply Hdup. apply NoDup_app_remove_r in Ed. now apply NoDup_map_inv in Ed.
Qed.

(** The order (1, -2) is accepted on (2, 3). *)
Lemma Reorder_weights_negative_or_repeated_witness :
  weights_of (Operations.Reorder [1; -2]) [2; 3] = Raise ValueError.
Proof.
  apply (Reorder_weights_negative_or_repeated [2; 3] [1; -2] (Some [2; 3]));
    [ reflexivity | left; apply Exists_cons_tl, Exists_cons_hd; lia ].
Defined.

(** *** Loops that raise *)

Lemma combine_app_eq {A B : Type} (l1 l2 : list A) (r1 r2 : list B) :
  length l1 = length r1 ->
  combine (l1 ++ l2) (r1 ++ r2) = combine l1 r1 ++ combine l2 r2.
Proof.
  revert r1. induction l1 as [|x l1 IH]; intros [|y r1] Hlen; cbn in Hlen; try lia;
    [reflexivity|].
  cbn. now rewrite IH by lia.
Qed.

Lemma mapM_app {A B : Type} (f : A -> result B) (l1 l2 : list A) :
  mapM f (l1 ++ l2)
  = match mapM f l1 with
    | Ok y1 => match mapM f l2 with
               | Ok y2 => Ok (y1 ++ y2)
               | Raise e => Raise e
               end
    | Raise e => Raise e
    end.
Proof.
  induction l1 as [|x l1 IH]; cbn [app mapM].
  - destruct (mapM f l2); reflexivity.
  - destruct (f x) as [y|e]; cbn [bind Monad_result]; [|reflexivity].
    rewrite IH. destruct (mapM f l1); cbn [bind ret Monad_result]; [|reflexivity].
    destruct (mapM f l2); reflexivity.
Qed.

Lemma mapM_pins_exn (sh : list Z) (l : list (Z * Z)) (e : exn) :
  mapM (fun '(i, ax) =>
          j <- normalize_index (nth (Z.to_nat ax) sh 0) i ;; ret (ax, j)) l
  = Raise e -> e = IndexError.
Proof.
  induction l as [|[x ax] l IH]; cbn [mapM]; [discriminate|].
  unfold normalize_index at 1.
  destruct ((x <? - nth (Z.to_nat ax) sh 0) || (nth (Z.to_nat ax) sh 0 <=? x));
    cbn [bind ret Monad_result]; [now intros [= <-]|].
  destruct (mapM _ l); cbn [bind ret Monad_result]; [discriminate|].
  intros [= <-]. now apply IH.
Qed.

Lemma mapM_pins_raise (sh : list Z) (axes : list Z) :
  forall vals, length vals = length axes -> Forall (fun x => 0 <= x) vals ->
  ~ in_box vals (map (fun ax => nth (Z.to_nat ax) sh 0) axes) ->
  mapM (fun '(i, ax) =>
          j <- normalize_index (nth (Z.to_nat ax) sh 0) i ;; ret (ax, j))
       (combine vals axes)
  = Raise IndexError.
Proof.
  induction axes as [|ax axes IH]; intros [|x vals] Hlen Hpos Hout; cbn in Hlen; try lia.
  - exfalso. apply Hout. constructor.
  - inversion Hpos as [|x' vals' Hx Hvals]; subst.
    cbn [combine mapM]. unfold normalize_index at 1.
    destruct (Z.ltb_spec x (- nth (Z.to_nat ax) sh 0)); [reflexivity|].
    destruct (Z.leb_spec (nth (Z.to_nat ax) sh 0) x); [reflexivity|].
    cbn [orb bind ret Monad_result].
    rewrite IH; [reflexivity | lia | exact Hvals |].
    intros Hin. apply Hout. cbn [map]. constructor; [lia | exact Hin].
Qed.

Lemma in_box_nonneg (u sh : list Z) : in_box u sh -> Forall (fun x => 0 <= x) u.
Proof. induction 1 as [|x d u sh Hx Hu IH]; constructor; [lia | exact IH]. Qed.

Lemma for_fold_ok_or {A : Type} (sh : list Z) (e : exn)
    (body : A -> ndarray -> result ndarray) (xs : list A) :
  (forall x d, In x xs ->
     (exists d', body x (NdArray sh d) = Ok (NdArray sh d'))
     \/ body x (NdArray sh d) = Raise e) ->
  forall d,
    (exists d', for_fold xs body (NdArray sh d) = Ok (NdArray sh d'))
    \/ for_fold xs body (NdArray sh d) = Raise e.
Proof.
  induction xs as [|x xs IH]; intros Hbody d; cbn [for_fold].
  - left. now exists d.
  - destruct (Hbody x d (or_introl eq_refl)) as [[d' ->] | ->];
      cbn [bind Monad_result]; [|now right].
    apply IH. intros; apply Hbody; now right.
Qed.

Lemma for_fold_raise {A : Type} (sh : list Z) (e : exn)
    (body : A -> ndarray -> result ndarray) (xs : list A) (x0 : A) :
  (forall x d, In x xs ->
     (exists d', body x (NdArray sh d) = Ok (NdArray sh d'))
     \/ body x (NdArray sh d) = Raise e) ->
  In x0 xs -> (forall d, body x0 (NdArray sh d) = Raise e) ->
  forall d, for_fold xs body (NdArray sh d) = Raise e.
Proof.
  induction xs as [|x xs IH]; intros Hbody Hin Hx0 d; [destruct Hin|].
  cbn [for_fold].
  destruct (Hbody x d (or_introl eq_refl)) as [[d' Hok] | ->];
    cbn [bind Monad_result]; [|reflexivity].
  rewrite Hok. cbn [bind Monad_result].
  destruct Hin as [-> | Hin]; [rewrite Hx0 in Hok; discriminate|].
  apply IH; [intros; apply Hbody; now right | exact Hin | exact Hx0].
Qed.

Section PairsRaise.
Variables (o i A B : list Z).
Hypothesis HA : Forall (fun a => 0 <= a < len o) A.
Hypothesis HB : Forall (fun b => 0 <= b < len i) B.
Hypothesis Hlen : length A = length B.
Variable rest : list Z.

Local Abbreviation source := (A ++ map (fun b => b + len o) B).
Local Abbreviation conn := ((A ++ map (fun b => b + len o) B) ++ rest).
Local Abbreviation sizes := (gather 0 A o).
Local Abbreviation sh := (o ++ i).

Local Abbreviation settles r :=
  ((exists d', r = Ok (NdArray sh d')) \/ r = Raise IndexError).

Lemma pairs_setitem_ok_or (u : list Z) (d : list Q) :
  length u = length A -> settles (setitem (NdArray sh d) conn (u ++ u) 1%Q).
Proof.
  intros Hu. unfold setitem. cbn [nd_shape nd_data].
  replace (len conn <? len (u ++ u)) with false.
  2:{ symmetry. apply Z.ltb_ge. unfold len.
      rewrite !length_app, length_map. lia. }
  match goal with |- context [mapM ?f ?l] => destruct (mapM f l) as [pins|e] eqn:E end;
    cbn [bind ret Monad_result].
  - left. now eexists.
  - right. apply mapM_pins_exn in E. now subst.
Qed.

Lemma pairs_setitem_raise (u : list Z) (d : list Q) :
  in_box u sizes -> ~ in_box u (gather 0 B i) ->
  setitem (NdArray sh d) conn (u ++ u) 1%Q = Raise IndexError.
Proof.
  intros Hu Hout. pose proof (in_box_length _ _ Hu) as Hul. rewrite gather_length in Hul.
  unfold setitem. cbn [nd_shape nd_data].
  replace (len conn <? len (u ++ u)) with false.
  2:{ symmetry. apply Z.ltb_ge. unfold len.
      rewrite !length_app, length_map. lia. }
  replace (combine (u ++ u) conn) with (combine (u ++ u) source).
  2:{ symmetry. apply combine_front. rewrite !length_app, length_map. lia. }
  rewrite combine_app_eq by lia. rewrite mapM_app.
  rewrite mapM_pins.
  2:{ change (map (fun ax => nth (Z.to_nat ax) sh 0) A) with (gather 0 A sh).
      now rewrite gather_app_l by exact HA. }
  rewrite mapM_pins_raise; [reflexivity | rewrite length_map; lia | |].
  - now apply in_box_nonneg in Hu.
  - change (map (fun ax => nth (Z.to_nat ax) sh 0) (map (fun b => b + len o) B))
      with (gather 0 (map (fun b => b + len o) B) sh).
    rewrite gather_app_r; [exact Hout|].
    eapply Forall_impl; [|exact HB]. cbn. intros; lia.
Qed.

Lemma pairs_loop1_raise (s0 u0 : Z) (d : list Q) :
  sizes = [s0] -> in_box [u0] sizes -> ~ in_box [u0] (gather 0 B i) ->
  (size0 <- np_size (NdArray sh d) conn 0 ;;
   for_fold (range size0) (fun a weights => setitem weights conn [a; a] 1%Q)
            (NdArray sh d))
  = Raise IndexError.
Proof.
  intros Es Hu Hout.
  assert (HlA : length A = 1%nat) by (rewrite <- (gather_length 0 A o), Es; reflexivity).
  rewrite (pairs_size o i A B HA) by lia.
  cbn [bind Monad_result]. rewrite Es in *. cbn [nth].
  inversion Hu as [|x0 d0 ? ? Hu0 _]; subst.
  apply (for_fold_raise sh IndexError _ _ u0).
  - intros a d' _. apply (pairs_setitem_ok_or [a] d'). now rewrite HlA.
  - apply range_In. lia.
  - intros d'. apply (pairs_setitem_raise [u0] d'); [now rewrite Es | exact Hout].
Qed.

Lemma pairs_loop2_raise (s0 s1 u0 u1 : Z) (d : list Q) :
  sizes = [s0; s1] -> in_box [u0; u1] sizes -> ~ in_box [u0; u1] (gather 0 B i) ->
  (size0 <- np_size (NdArray sh d) conn 0 ;;
   for_fold (range size0) (fun a weights =>
     size1 <- np_size weights conn 1 ;;
     for_fold (range size1) (fun b weights =>
       setitem weights conn [a; b; a; b] 1%Q) weights)
     (NdArray sh d))
  = Raise IndexError.
Proof.
  intros Es Hu Hout.
  assert (HlA : length A = 2%nat) by (rewrite <- (gather_length 0 A o), Es; reflexivity).
  rewrite (pairs_size o i A B HA) by lia.
  cbn [bind Monad_result]. rewrite Es in Hu |- *. cbn [nth].
  inversion Hu as [|x0 d0 ? ? Hu0 Hu']; subst.
  inversion Hu' as [|x1 d1 ? ? Hu1 _]; subst.
  apply (for_fold_raise sh IndexError _ _ u0).
  - intros a d1 _. rewrite (pairs_size o i A B HA) by lia.
    cbn [bind Monad_result]. apply for_fold_ok_or.
    intros b d2 _. apply (pairs_setitem_ok_or [a; b] d2). now rewrite HlA.
  - apply range_In. lia.
  - intros d1. rewrite (pairs_size o i A B HA) by lia.
    cbn [bind Monad_result]. rewrite Es. cbn [nth].
    apply (for_fold_raise sh IndexError _ _ u1).
    + intros b d2 _. apply (pairs_setitem_ok_or [u0; b] d2). now rewrite HlA.
    + apply range_In. lia.
    + intros d2. apply (pairs_setitem_raise [u0; u1] d2); [now rewrite Es | exact Hout].
Qed.

Lemma pairs_loop3_raise (s0 s1 s2 u0 u1 u2 : Z) (d : list Q) :
  sizes = [s0; s1; s2] -> in_box [u0; u1; u2] sizes ->
  ~ in_box [u0; u1; u2] (gather 0 B i) ->
  (size0 <- np_size (NdArray sh d) conn 0 ;;
   for_fold (range size0) (fun a weights =>
     size1 <- np_size weights conn 1 ;;
     for_fold (range size1) (fun b weights =>
       size2 <- np_size weights conn 2 ;;
       for_fold (range size2) (fun c weights =>
         setitem weights conn [a; b; c; a; b; c] 1%Q) weights) weights)
     (NdArray sh d))
  = Raise IndexError.
Proof.
  intros Es Hu Hout.
  assert (HlA : length A = 3%nat) by (rewrite <- (gather_length 0 A o), Es; reflexivity).
  rewrite (pairs_size o i A B HA) by lia.
  cbn [bind Monad_result]. rewrite Es in Hu |- *. cbn [nth].
  inversion Hu as [|x0 d0 ? ? Hu0 Hu']; subst.
  inversion Hu' as [|x1 d1 ? ? Hu1 Hu'']; subst.
  inversion Hu'' as [|x2 d2 ? ? Hu2 _]; subst.
  apply (for_fold_raise sh IndexError _ _ u0).
  - intros a d1 _. rewrite (pairs_size o i A B HA) by lia.
    cbn [bind Monad_result]. apply for_fold_ok_or.
    intros b d2 _. rewrite (pairs_size o i A B HA) by lia.
    cbn [bind Monad_result]. apply for_fold_ok_or.
    intros c d3 _. apply (pairs_setitem_ok_or [a; b; c] d3). now rewrite HlA.
  - apply range_In. lia.
  - intros d1. rewrite (pairs_size o i A B HA) by lia.
    cbn [bind Monad_result]. rewrite Es. cbn [nth].
    apply (for_fold_raise sh IndexError _ _ u1).
    + intros b d2 _. rewrite (pairs_size o i A B HA) by lia.
      cbn [bind Monad_result]. apply for_fold_ok_or.
      intros c d3 _. apply (pairs_setitem_ok_or [u0; b; c] d3). now rewrite HlA.
    + apply range_In. lia.
    + intros d2. rewrite (pairs_size o i A B HA) by lia.
      cbn [bind Monad_result]. rewrite Es. cbn [nth].
      apply (for_fold_raise sh IndexError _ _ u2).
      * intros c d3 _. apply (pairs_setitem_ok_or [u0; u1; c] d3). now rewrite HlA.
      * apply range_In. lia.
      * intros d3.
        apply (pairs_setitem_raise [u0; u1; u2] d3); [now rewrite Es | exact Hout].
Qed.
End PairsRaise.

Section PairsView.
Variables (i o A B : list Z) (oa ib : option (list Z)).
Hypothesis EA : match oa with None => range (num_dims o) | Some t => t end = A.
Hypothesis EB : match ib with None => range (num_dims i) | Some t => t end = B.
Hypothesis Hi : valid_shape i.
Hypothesis Ho : valid_shape o.
Hypothesis HA : Forall (fun a => 0 <= a < len o) A.
Hypothesis HB : Forall (fun b => 0 <= b < len i) B.
Hypothesis HAnd : NoDup A.
Hypothesis HBnd : NoDup B.
Hypothesis Hmin : len A = Z.min (num_dims i) (num_dims o).
Hypothesis Hlen : length A = length B.
Hypothesis Hpos : 1 <= len A.
Hypothesis Hdims : len (o ++ i) <= NPY_MAXDIMS.

(** Up to the loops: the zero tensor and the view with the paired axes in
    front. *)
Lemma project_dims_view :
  Operations._project_dims i o oa ib
  = let weights := NdArray (o ++ i) (repeat 0%Q (Z.to_nat (size_of (o ++ i)))) in
    let conn := (A ++ map (fun b => b + len o) B)
                ++ filter (fun n => negb (mem n (A ++ map (fun b => b + len o) B)))
                          (range (len (o ++ i))) in
    weights <-
      (if len A =? 1 then
         size0 <- np_size weights conn 0 ;;
         for_fold (range size0) (fun a weights =>
           setitem weights conn [a; a] 1%Q) weights
       else if len A =? 2 then
         size0 <- np_size weights conn 0 ;;
         for_fold (range size0) (fun a weights =>
           size1 <- np_size weights conn 1 ;;
           for_fold (range size1) (fun b weights =>
             setitem weights conn [a; b; a; b] 1%Q) weights) weights
       else if len A =? 3 then
         size0 <- np_size weights conn 0 ;;
         for_fold (range size0) (fun a weights =>
           size1 <- np_size weights conn 1 ;;
           for_fold (range size1) (fun b weights =>
             size2 <- np_size weights conn 2 ;;
             for_fold (range size2) (fun c weights =>
               setitem weights conn [a; b; c; a; b; c] 1%Q) weights) weights) weights
       else Raise NotImplementedError) ;;
    np_reshape weights [num_neurons o; num_neurons i].
Proof.
  assert (Hsh : valid_shape (o ++ i)) by now apply valid_shape_app.
  unfold Operations._project_dims. cbv zeta. rewrite EA, EB, <- Hmin.
  replace (len A =? 0) with false by (symmetry; apply Z.eqb_neq; lia).
  rewrite np_zeros_valid by assumption. cbn [bind Monad_result].
  unfold ndim. cbn [nd_shape].
  assert (Hlr : forall n, 0 <= n -> len (range n) = n)
    by (intros n Hn; unfold len; rewrite range_length; lia).
  assert (HlB : len (map (fun a => a + num_dims o) B) = len A)
    by (unfold len; rewrite length_map; lia).
  rewrite HlB, !Hlr by lia.
  rewrite <- range_app by lia.
  replace (len A + len A) with (len (A ++ map (fun b => b + len o) B))
    by (unfold len; rewrite length_app, length_map; lia).
  unfold num_dims at 1.
  rewrite np_moveaxis_front.
  2:{ now apply (pairs_source_bound o i A B). }
  2:{ now apply (pairs_source_NoDup o i A B). }
  2:{ unfold len. rewrite !length_app, length_map. unfold num_dims, len in *. lia. }
  reflexivity.
Qed.

Lemma project_dims_pairs_beyond :
  3 < len A -> Operations._project_dims i o oa ib = Raise NotImplementedError.
Proof.
  intros Hk. rewrite project_dims_view. cbv zeta.
  replace (len A =? 1) with false by (symmetry; apply Z.eqb_neq; lia).
  replace (len A =? 2) with false by (symmetry; apply Z.eqb_neq; lia).
  replace (len A =? 3) with false by (symmetry; apply Z.eqb_neq; lia).
  reflexivity.
Qed.

Lemma project_dims_pairs_raise (u : list Z) :
  len A <= 3 -> in_box u (gather 0 A o) -> ~ in_box u (gather 0 B i) ->
  Operations._project_dims i o oa ib = Raise IndexError.
Proof.
  intros Hk Hu Hout. rewrite project_dims_view. cbv zeta.
  set (rest := filter _ (range (len (o ++ i)))).
  pose proof (in_box_length _ _ Hu) as Hul.
  assert (Hgl : length (gather 0 A o) = length A) by apply gather_length.
  destruct (gather 0 A o) as [|s0 [|s1 [|s2 [|s3 ss]]]] eqn:Es in Hgl, Hul;
    cbn [length] in Hgl, Hul; unfold len in Hk, Hpos; try lia.
  - destruct u as [|u0 [|? ?]]; cbn [length] in Hul; try lia.
    replace (len A =? 1) with true by (symmetry; apply Z.eqb_eq; unfold len; lia).
    now rewrite (pairs_loop1_raise o i A B HA HB Hlen rest s0 u0 _ Es Hu Hout).
  - destruct u as [|u0 [|u1 [|? ?]]]; cbn [length] in Hul; try lia.
    replace (len A =? 1) with false by (symmetry; apply Z.eqb_neq; unfold len; lia).
    replace (len A =? 2) with true by (symmetry; apply Z.eqb_eq; unfold len; lia).
    now rewrite (pairs_loop2_raise o i A B HA HB Hlen rest s0 s1 u0 u1 _ Es Hu Hout).
  - destruct u as [|u0 [|u1 [|u2 [|? ?]]]]; cbn [length] in Hul; try lia.
    replace (len A =? 1) with false by (symmetry; apply Z.eqb_neq; unfold len; lia).
    replace (len A =? 2) with false by (symmetry; apply Z.eqb_neq; unfold len; lia).
    replace (len A =? 3) with true by (symmetry; apply Z.eqb_eq; unfold len; lia).
    now rewrite (pairs_loop3_raise o i A B HA HB Hlen rest s0 s1 s2 u0 u1 u2 _ Es Hu Hout).
Qed.
End PairsView.

From Stdlib Require Import Permutation.

(** *** Orders that are permutations *)

Lemma order_Permutation (n : Z) (order : list Z) :
  NoDup order -> Forall (fun a => 0 <= a < n) order -> len order = n ->
  Permutation order (range n).
Proof.
  intros Hnd Hb Hlen. apply NoDup_Permutation; [exact Hnd | apply range_NoDup|].
  assert (Hincl : incl order (range n)).
  { intros x Hx. apply range_In. rewrite Forall_forall in Hb. now apply Hb. }
  intros x. split; [apply Hincl|].
  apply (NoDup_length_incl Hnd); [|exact Hincl].
  rewrite range_length. unfold len in Hlen. lia.
Qed.

Lemma sum_Permutation (l l' : list Z) :
  Permutation l l' -> fold_right Z.add 0 l = fold_right Z.add 0 l'.
Proof. induction 1; cbn; lia. Qed.

Lemma le_sum_eq (l l' : list Z) :
  Forall2 Z.le l l' -> fold_right Z.add 0 l = fold_right Z.add 0 l' -> l = l'.
Proof.
  intros H.
  assert (Hle : fold_right Z.add 0 l <= fold_right Z.add 0 l')
    by (induction H; cbn; lia).
  induction H as [|x y l l' Hxy Hl IH]; intros Hsum; [reflexivity|].
  assert (Hle' : fold_right Z.add 0 l <= fold_right Z.add 0 l')
    by (clear - Hl; induction Hl; cbn; lia).
  cbn in Hsum. assert (x = y) as -> by lia. f_equal. apply IH; [exact Hle' | lia].
Qed.

Lemma box_gap (l : list Z) :
  forall l', length l = length l' -> valid_shape l -> valid_shape l' ->
  (exists u, in_box u l /\ ~ in_box u l') \/ Forall2 Z.le l l'.
Proof.
  induction l as [|d l IH]; intros [|d' l'] Hlen Hl Hl'; cbn in Hlen; try lia.
  - right. constructor.
  - inversion Hl as [|? ? Hd Hv]; subst. inversion Hl' as [|? ? Hd' Hv']; subst.
    destruct (Z_lt_le_dec d' d) as [Hlt | Hle].
    + left. exists (d' :: map (fun _ => 0) l). split.
      * constructor; [lia|]. clear - Hv. induction Hv; cbn; constructor; [lia | assumption].
      * intros Hin. inversion Hin; subst. lia.
    + destruct (IH l' ltac:(lia) Hv Hv') as [[u [Hu Hout]] | Hall].
      * left. exists (0 :: u). split; [constructor; [lia | exact Hu]|].
        intros Hin. inversion Hin; subst. contradiction.
      * right. now constructor.
Qed.

Lemma np_take_gather (s order : list Z) :
  Forall (fun a => 0 <= a < len s) order -> np_take s order = Ok (gather 0 order s).
Proof.
  unfold np_take, gather. induction 1 as [|a order Ha Hrest IH]; cbn [mapM map];
    [reflexivity|].
  unfold normalize_index at 1.
  destruct (Z.ltb_spec a (- len s)); [lia|]. destruct (Z.leb_spec (len s) a); [lia|].
  destruct (Z.ltb_spec a 0); [lia|]. cbn [orb bind ret Monad_result] in IH |- *.
  now rewrite IH.
Qed.

Lemma gather_valid (s order : list Z) :
  valid_shape s -> Forall (fun a => 0 <= a < len s) order ->
  valid_shape (gather 0 order s).
Proof.
  intros Hs Hb. unfold valid_shape, gather. apply Forall_map.
  eapply Forall_impl; [|exact Hb]. cbn. intros a Ha.
  unfold valid_shape in Hs. rewrite Forall_forall in Hs. apply Hs, nth_In.
  unfold len in Ha. lia.
Qed.

Lemma gather_Permutation_eq (s order : list Z) :
  valid_shape s -> NoDup order -> Forall (fun a => 0 <= a < len s) order ->
  len order = len s ->
  gather 0 order s <> s ->
  exists u, in_box u (gather 0 order s) /\ ~ in_box u s.
Proof.
  intros Hs Hnd Hb Hlen Hne.
  destruct (box_gap (gather 0 order s) s) as [Hex | Hall];
    [rewrite gather_length; unfold len in Hlen; lia | now apply gather_valid | exact Hs
    | exact Hex |].
  exfalso. apply Hne. apply le_sum_eq; [exact Hall|].
  rewrite <- (gather_range_all 0 s) at 2.
  apply sum_Permutation. unfold gather. apply Permutation_map.
  now apply order_Permutation.
Qed.

Section ReorderPairs.
Variables (s order : list Z).
Hypothesis Hs : valid_shape s.
Hypothesis Hn : 2 <= len s.
Hypothesis Hlen : len order = len s.
Hypothesis Hb : Forall (fun a => 0 <= a < len s) order.
Hypothesis Hnd : NoDup order.

Lemma Reorder_project_beyond :
  3 < len s -> len s + len s <= NPY_MAXDIMS ->
  Operations._project_dims s s (Some order) None = Raise NotImplementedError.
Proof.
  intros Hk Hdims.
  apply (project_dims_pairs_beyond s s order (range (num_dims s))); try assumption;
    try reflexivity.
  - apply Forall_forall. intros x Hx. now apply range_In in Hx.
  - apply range_NoDup.
  - unfold num_dims. lia.
  - rewrite range_length. unfold num_dims, len in *. lia.
  - lia.
  - now rewrite len_app.
  - lia.
Qed.

Lemma Reorder_project_mismatch :
  len s <= 3 -> gather 0 order s <> s ->
  Operations._project_dims s s (Some order) None = Raise IndexError.
Proof.
  intros Hk Hne.
  destruct (gather_Permutation_eq s order Hs Hnd Hb Hlen Hne) as [u [Hu Hout]].
  apply (project_dims_pairs_raise s s order (range (num_dims s)) (Some order) None
           eq_refl eq_refl Hs Hs Hb) with (u := u); try assumption.
  - apply Forall_forall. intros x Hx. now apply range_In in Hx.
  - apply range_NoDup.
  - unfold num_dims. lia.
  - rewrite range_length. unfold num_dims, len in *. lia.
  - lia.
  - rewrite len_app. unfold NPY_MAXDIMS. lia.
  - lia.
  - unfold num_dims. now rewrite gather_range_all.
Qed.
End ReorderPairs.

(** *** Row-major positions *)

Lemma ravel_bound (sh : list Z) :
  valid_shape sh -> forall u, in_box u sh -> 0 <= ravel sh u < size_of sh.
Proof.
  induction 1 as [|d sh Hd Hs IH]; intros u Hu; inversion Hu as [|x d' u' sh' Hx Hu']; subst.
  - cbn. lia.
  - specialize (IH u' Hu'). cbn [ravel]. change (size_of (d :: sh)) with (d * size_of sh).
    nia.
Qed.

Lemma unravel_ravel (sh : list Z) :
  valid_shape sh -> forall u, in_box u sh -> unravel sh (ravel sh u) = u.
Proof.
  induction 1 as [|d sh Hd Hs IH]; intros u Hu; inversion Hu as [|x d' u' sh' Hx Hu']; subst.
  - reflexivity.
  - cbn [ravel]. rewrite unravel_cons by now apply ravel_bound.
    now rewrite IH.
Qed.

Lemma gather_inj (d : Z) (order u u' : list Z) :
  incl (range (len u)) order -> length u = length u' ->
  gather d order u = gather d order u' -> u = u'.
Proof.
  intros Hincl Hlen Heq. apply (nth_ext _ _ d d Hlen). intros k Hk.
  assert (Hin : In (Z.of_nat k) order) by (apply Hincl, range_In; unfold len; lia).
  apply (in_map (fun a => nth (Z.to_nat a) u d)) in Hin as Hin1.
  apply In_nth with (d := 0) in Hin. destruct Hin as [j [Hj Hnth]].
  assert (H1 : nth j (gather d order u) d = nth k u d).
  { unfold gather. rewrite (nth_map_in _ _ _ _ 0) by exact Hj.
    now rewrite Hnth, Nat2Z.id. }
  assert (H2 : nth j (gather d order u') d = nth k u' d).
  { unfold gather. rewrite (nth_map_in _ _ _ _ 0) by exact Hj.
    now rewrite Hnth, Nat2Z.id. }
  congruence.
Qed.

Lemma NoDup_map_inj_in {A B : Type} (f : A -> B) (l : list A) :
  (forall x y, In x l -> In y l -> f x = f y -> x = y) -> NoDup l -> NoDup (map f l).
Proof.
  intros Hf Hnd. induction Hnd as [|x l Hx Hl IH]; cbn; constructor.
  - rewrite in_map_iff. intros [y [Hy Hin]].
    apply Hf in Hy; [now subst | now right | now left].
  - apply IH. intros a b Ha Hb. apply Hf; now right.
Qed.

Lemma cnt_unique (p : Z -> bool) (L : list Z) (x0 : Z) :
  NoDup L -> In x0 L -> p x0 = true ->
  (forall x, In x L -> x <> x0 -> p x = false) -> cnt p L = 1.
Proof.
  intros Hnd Hin Hp Hrest.
  rewrite (cnt_ext_in p (fun x => x =? x0) L).
  - clear Hp Hrest. unfold cnt, len.
    induction Hnd as [|x L Hx Hl IH]; [destruct Hin|].
    cbn [filter]. destruct Hin as [-> | Hin].
    + rewrite Z.eqb_refl. cbn [length].
      replace (filter (fun x => x =? x0) L) with (@nil Z); [reflexivity|].
      symmetry. clear - Hx. induction L as [|y L IH]; [reflexivity|].
      cbn. destruct (Z.eqb_spec y x0) as [->|_]; [exfalso; apply Hx; now left|].
      apply IH. intros Hin. apply Hx. now right.
    + destruct (Z.eqb_spec x x0) as [->|_]; [contradiction|]. now apply IH.
  - intros x Hx. destruct (Z.eqb_spec x x0) as [->|Hne]; [exact Hp | now apply Hrest].
Qed.

(** ** The matrix that connects output unit [x] to input unit [f x] *)

Section Wiring.
Variables (r c : Z) (f : Z -> Z).
Hypothesis Hr : 0 <= r.
Hypothesis Hc : 1 <= c.
Hypothesis Hf : forall x, 0 <= x < r -> 0 <= f x < c.

Local Abbreviation G := (fun t => if (t mod c =? f (t / c)) then 1%Q else 0%Q).
Local Abbreviation M := (NdArray [r; c] (map G (range (r * c)))).

Lemma wiring_cell (x y : Z) : 0 <= y < c -> G (x * c + y) = if y =? f x then 1%Q else 0%Q.
Proof.
  intros Hy. cbn beta.
  rewrite Z.add_comm, Z.mod_add, Z.mod_small by lia.
  now rewrite Z.add_comm, Z.div_add_l, (Z.div_small y c), Z.add_0_r by lia.
Qed.

Lemma wiring_entry (x y : Z) :
  0 <= x < r -> 0 <= y < c ->
  entry M (Z.to_nat x) (Z.to_nat y) = if y =? f x then 1%Q else 0%Q.
Proof.
  intros Hx Hy. rewrite entry_flat by assumption. now apply wiring_cell.
Qed.

Lemma wiring_rows :
  Forall (fun row => count_nonzero row = 1%nat
                     /\ Forall (fun w => w = 1%Q \/ w = 0%Q) row) (rows M).
Proof.
  rewrite rows_flat by lia. apply Forall_map, Forall_forall. intros x Hx.
  apply range_In in Hx.
  rewrite (map_ext_in _ (fun y => if y =? f x then 1%Q else 0%Q)).
  2:{ intros y Hy. apply range_In in Hy. now apply wiring_cell. }
  split.
  - rewrite count_nonzero_indicator, cnt_eqb_range by now apply Hf. reflexivity.
  - apply Forall_map, Forall_forall. intros y _. destruct (y =? f x); auto.
Qed.

Lemma wiring_columns (j : nat) :
  r = c ->
  (forall x x', 0 <= x < r -> 0 <= x' < r -> f x = f x' -> x = x') ->
  (j < Z.to_nat c)%nat -> count_nonzero (column M j) = 1%nat.
Proof.
  intros Hrc Hinj Hj. rewrite column_flat by lia.
  rewrite (map_ext_in _ (fun x => if f x =? Z.of_nat j then 1%Q else 0%Q)).
  2:{ intros x Hx. rewrite wiring_cell by lia. now rewrite Z.eqb_sym. }
  rewrite count_nonzero_indicator.
  assert (Hsurj : In (Z.of_nat j) (map f (range r))).
  { apply (NoDup_length_incl (l := map f (range r)) (l' := range c)).
    - apply NoDup_map_inj_in; [|apply range_NoDup].
      intros x y Hx Hy. apply range_In in Hx, Hy. now apply Hinj.
    - rewrite length_map, !range_length. lia.
    - intros y Hy. apply in_map_iff in Hy. destruct Hy as [x [<- Hx]].
      apply range_In in Hx. apply range_In. now apply Hf.
    - apply range_In. lia. }
  apply in_map_iff in Hsurj. destruct Hsurj as [x0 [Hx0 Hin]].
  rewrite (cnt_unique _ _ x0); [reflexivity | apply range_NoDup | exact Hin | |].
  - now apply Z.eqb_eq.
  - intros x Hx Hne. apply Z.eqb_neq. intros Heq. apply Hne.
    apply range_In in Hx, Hin. apply Hinj; [assumption | assumption | congruence].
Qed.
End Wiring.

Lemma gather_indep (d d' : Z) (ax l : list Z) :
  Forall (fun a => 0 <= a < len l) ax -> gather d ax l = gather d' ax l.
Proof.
  intros H. unfold gather. apply map_ext_in. intros a Ha.
  rewrite Forall_forall in H. apply H in Ha. apply nth_indep. unfold len in Ha. lia.
Qed.

Lemma ReorderHandler_accepted (s order o' : list Z) :
  Forall (fun idx => 0 <= idx) order ->
  configure_component (H_Reorder order) s = Ok (Some o') ->
  2 <= len s /\ len order = len s
  /\ Forall (fun a => 0 <= a < len s) order
  /\ o' = gather 0 order s
  /\ configure_component (O_Reorder order) s = Ok (Some s).
Proof.
  intros Hpos.
  rewrite (Reorder_configure s order _ (or_introl eq_refl)),
          (Reorder_configure s order _ (or_intror eq_refl)). unfold num_dims.
  destruct (Z.ltb_spec (len s) 2); [discriminate|].
  destruct (Z.eqb_spec (len order) (len s)); cbn [negb]; [|discriminate].
  destruct (existsb (out_of_bounds (len s)) order) eqn:Eb; [discriminate|].
  assert (Hb : Forall (fun a => 0 <= a < len s) order).
  { apply (validated_in_range _ _ (len_nonneg s)) in Eb.
    rewrite Forall_forall in *. intros a Ha. specialize (Eb a Ha). specialize (Hpos a Ha).
    cbn in *. lia. }
  rewrite np_take_gather by exact Hb. intros [= <-]. repeat split; assumption.
Qed.

(** Reorder with a proper permutation as its order, and an input whose
    reordered shape (the output shape of ReorderHandler) is not the input
    shape: [compute_weights] raises IndexError, because the operation kept the
    input shape as its output shape and the loops walk the reordered sizes.
    With more than three axes it raises NotImplementedError, whatever the
    sizes, as long as NumPy can build the tensor of [_project_dims], which
    has every axis twice. *)
Theorem Reorder_weights_shape_mismatch (s order o' : list Z) :
  valid_shape s -> Forall (fun idx => 0 <= idx) order -> NoDup order ->
  configure_component (H_Reorder order) s = Ok (Some o') ->
  (3 < len s -> len s + len s <= NPY_MAXDIMS ->
   weights_of (Operations.Reorder order) s = Raise NotImplementedError)
  /\ (len s <= 3 -> o' <> s ->
      weights_of (Operations.Reorder order) s = Raise IndexError).
Proof.
  intros Hs Hpos Hnd Hconf.
  destruct (ReorderHandler_accepted s order o' Hpos Hconf) as [Hn [Hlen [Hb [-> Hop]]]].
  rewrite (Reorder_weights_of s order _ Hop). split.
  - intros Hk Hdims. now apply Reorder_project_beyond.
  - intros Hk Hne. now apply Reorder_project_mismatch.
Qed.

(** The order (1, 0) on (2, 3): the reordered shape is (3, 2). *)
Lemma Reorder_weights_shape_mismatch_witness :
  weights_of (Operations.Reorder [1; 0]) [2; 3] = Raise IndexError.
Proof.
  apply (Reorder_weights_shape_mismatch [2; 3] [1; 0] [3; 2]);
    [ repeat constructor; lia
    | repeat constructor; lia
    | repeat constructor; cbn; intuition lia
    | reflexivity
    | vm_compute; discriminate
    | discriminate ].
Defined.

Section ReorderWiring.
Variables (s order : list Z).
Hypothesis Hs : valid_shape s.
Hypothesis Hn : 2 <= len s.
Hypothesis Hk : len s <= 3.
Hypothesis Hlen : len order = len s.
Hypothesis Hb : Forall (fun a => 0 <= a < len s) order.
Hypothesis Hnd : NoDup order.
Hypothesis Hsame : gather 0 order s = s.

Local Abbreviation src := (fun x => ravel s (gather 0 order (unravel s x))).

Lemma Reorder_src_box (x : Z) :
  0 <= x < size_of s -> in_box (gather 0 order (unravel s x)) s.
Proof.
  intros Hx. rewrite <- Hsame at 2.
  rewrite (gather_indep 0 (-1)) by (unfold len; now rewrite unravel_length).
  apply gather_in_box; [now apply unravel_in_box | exact Hb].
Qed.

Lemma Reorder_src_bound (x : Z) : 0 <= x < size_of s -> 0 <= src x < size_of s.
Proof. intros Hx. apply ravel_bound; [exact Hs | now apply Reorder_src_box]. Qed.

Lemma Reorder_src_inj (x x' : Z) :
  0 <= x < size_of s -> 0 <= x' < size_of s -> src x = src x' -> x = x'.
Proof.
  intros Hx Hx' Heq.
  apply (f_equal (unravel s)) in Heq.
  rewrite !unravel_ravel in Heq by (exact Hs || now apply Reorder_src_box).
  apply gather_inj in Heq.
  - now apply (unravel_inj s Hs).
  - intros a Ha. apply range_In in Ha. unfold len in Ha. rewrite unravel_length in Ha.
    apply (Permutation_in a (Permutation_sym (order_Permutation (len s) order Hnd Hb Hlen))).
    apply range_In. exact Ha.
  - now rewrite !unravel_length.
Qed.

Lemma Reorder_project_same :
  Operations._project_dims s s (Some order) None
  = Ok (NdArray [size_of s; size_of s]
          (map (fun t => if (t mod size_of s =? src (t / size_of s)) then 1%Q else 0%Q)
               (range (size_of s * size_of s)))).
Proof.
  pose proof (size_of_valid _ Hs) as Hps.
  rewrite (project_dims_pairs s s order (range (num_dims s))); try assumption;
    try reflexivity.
  - change num_neurons with size_of. rewrite size_of_app. f_equal. f_equal.
    apply map_ext_in. intros t Ht. apply range_In in Ht.
    assert (Hx : 0 <= t / size_of s < size_of s).
    { split; [apply Z.div_pos; lia | apply Z.div_lt_upper_bound; lia]. }
    pose proof (Z.mod_pos_bound t (size_of s) ltac:(lia)) as Hy.
    rewrite (Z.div_mod t (size_of s)) at 1 by lia.
    rewrite (Z.mul_comm (size_of s) (t / size_of s)).
    rewrite paired_app by assumption.
    unfold num_dims. rewrite gather_range_unravel.
    rewrite (gather_indep (-1) 0) by (unfold len; now rewrite unravel_length).
    rewrite <- (unravel_ravel s Hs (gather 0 order (unravel s (t / size_of s)))) at 1
      by now apply Reorder_src_box.
    rewrite eqb_list_unravel; [reflexivity | exact Hs | exact Hy |].
    now apply Reorder_src_bound.
  - apply Forall_forall. intros x Hx. now apply range_In in Hx.
  - apply range_NoDup.
  - unfold num_dims. lia.
  - rewrite range_length. unfold num_dims, len in *. lia.
  - lia.
  - unfold num_dims. now rewrite gather_range_all.
  - rewrite len_app. unfold NPY_MAXDIMS. lia.
Qed.
End ReorderWiring.

(** Reorder where the reordered shape is the input shape (as on a square or
    a cube), with a proper permutation of at most three axes as its order:
    [compute_weights] returns a permutation matrix.  Output unit [x], with
    multi-index [u], is connected with weight 1 to the input unit whose
    multi-index is [(u[order[0]], u[order[1]], ...)], and to no other; every
    row and every column has exactly one nonzero entry. *)
Theorem Reorder_weights_same_shape (s order : list Z) :
  valid_shape s -> Forall (fun idx => 0 <= idx) order -> NoDup order -> len s <= 3 ->
  configure_component (H_Reorder order) s = Ok (Some s) ->
  exists m, weights_of (Operations.Reorder order) s = Ok m
    /\ nd_shape m = [num_neurons s; num_neurons s]
    /\ (forall x y : Z, 0 <= x < num_neurons s -> 0 <= y < num_neurons s ->
          entry m (Z.to_nat x) (Z.to_nat y)
          = if y =? ravel s (gather 0 order (unravel s x)) then 1%Q else 0%Q)
    /\ Forall (fun row => count_nonzero row = 1%nat
                          /\ Forall (fun w => w = 1%Q \/ w = 0%Q) row)
              (rows m)
    /\ (forall j : nat, (j < Z.to_nat (num_neurons s))%nat ->
          count_nonzero (column m j) = 1%nat).
Proof.
  intros Hs Hpos Hnd Hk Hconf.
  destruct (ReorderHandler_accepted s order s Hpos Hconf) as [Hn [Hlen [Hb [Hsame Hop]]]].
  symmetry in Hsame.
  rewrite (Reorder_weights_of s order _ Hop).
  rewrite (Reorder_project_same s order Hs Hn Hk Hlen Hb Hnd Hsame).
  change num_neurons with size_of. pose proof (size_of_valid _ Hs) as Hps.
  eexists. split; [reflexivity|]. split; [reflexivity|].
  pose proof (Reorder_src_bound s order Hs Hb Hsame) as Hbound.
  split; [|split].
  - intros x y Hx Hy.
    apply (wiring_entry (size_of s) (size_of s)
             (fun x => ravel s (gather 0 order (unravel s x)))); try lia; exact Hbound.
  - apply (wiring_rows (size_of s) (size_of s)
             (fun x => ravel s (gather 0 order (unravel s x)))); try lia; exact Hbound.
  - intros j Hj.
    apply (wiring_columns (size_of s) (size_of s)
             (fun x => ravel s (gather 0 order (unravel s x)))); try lia;
      try exact Hbound; try exact Hj.
    intros x x' Hx Hx'. now apply (Reorder_src_inj s order Hs Hlen Hb Hnd Hsame).
Qed.

(** The order (1, 0) on the square (2, 2): the transposition. *)
Lemma Reorder_weights_same_shape_witness :
  exists m, weights_of (Operations.Reorder [1; 0]) [2; 2] = Ok m
    /\ nd_shape m = [num_neurons [2; 2]; num_neurons [2; 2]]
    /\ (forall x y : Z, 0 <= x < num_neurons [2; 2] -> 0 <= y < num_neurons [2; 2] ->
          entry m (Z.to_nat x) (Z.to_nat y)
          = if y =? ravel [2; 2] (gather 0 [1; 0] (unravel [2; 2] x)) then 1%Q else 0%Q)
    /\ Forall (fun row => count_nonzero row = 1%nat
                          /\ Forall (fun w => w = 1%Q \/ w = 0%Q) row)
              (rows m)
    /\ (forall j : nat, (j < Z.to_nat (num_neurons [2; 2]%Z))%nat ->
          count_nonzero (column m j) = 1%nat).
Proof.
  apply (Reorder_weights_same_shape [2; 2] [1; 0]);
    [ repeat constructor; lia
    | repeat constructor; lia
    | repeat constructor; cbn; intuition lia
    | vm_compute; discriminate
    | reflexivity ].
Defined.

(** ** GaussPattern: the [mean] and [stddev] parameters *)

Lemma validate_param_scalar (shape : list Z) (name : String.string) (x : Q) :
  GaussPattern._validate_param shape name (PyFloat x)
  = GaussPattern._validate_param shape name (PyList [x]).
Proof. reflexivity. Qed.

Lemma validate_param_one (shape : list Z) (name : String.string) (x : Q) :
  GaussPattern._validate_param shape name (PyList [x]) = Ok (repeat x (length shape)).
Proof.
  unfold GaussPattern._validate_param. cbn.
  rewrite map_const, range_length. unfold len. now rewrite Nat2Z.id.
Qed.

Lemma validate_param_long (shape : list Z) (name : String.string) (l : list Q) :
  (1 < length l)%nat ->
  GaussPattern._validate_param shape name (PyList l)
  = if Nat.eqb (length l) (length shape) then Ok l else Raise ValueError.
Proof.
  intros Hlen. unfold GaussPattern._validate_param. unfold len.
  destruct (Z.eqb_spec (Z.of_nat (length l)) 1); [lia|].
  destruct (Z.ltb_spec 1 (Z.of_nat (length l))); [|lia].
  destruct (Nat.eqb_spec (length l) (length shape)) as [->|Hne].
  - now rewrite Z.eqb_refl.
  - destruct (Z.eqb_spec (Z.of_nat (length l)) (Z.of_nat (length shape))); [lia|].
    reflexivity.
Qed.

Lemma validate_param_values (shape : list Z) (name : String.string) (param : float_or_list) :
  exists l, GaussPattern._validate_param shape name param
            = GaussPattern._validate_param shape name (PyList l).
Proof. destruct param as [x|l]; [exists [x] | exists l]; reflexivity. Qed.

Lemma validate_param_length (shape : list Z) (name : String.string)
    (param : float_or_list) (r : list Q) :
  GaussPattern._validate_param shape name param = Ok r -> length r = length shape.
Proof.
  destruct (validate_param_values shape name param) as [l ->].
  destruct l as [|x [|y l]].
  - discriminate.
  - rewrite validate_param_one. intros [= <-]. apply repeat_length.
  - rewrite validate_param_long by (cbn; lia).
    destruct (Nat.eqb_spec (length (x :: y :: l)) (length shape)); [|discriminate].
    now intros [= <-].
Qed.

(** What [_validate_param] makes of a parameter, on a shape of any
    dimensionality: a float, an int or a list of one value is repeated once
    per dimension; a longer list is returned as it is when it has one entry
    per dimension and raises ValueError when it has not; the empty list raises
    ValueError.  So the result, when there is one, has one entry per
    dimension, and ValueError is the only exception. *)
Theorem GaussPattern_validate_param_outcome (shape : list Z) (name : String.string) :
  (forall x, GaussPattern._validate_param shape name (PyFloat x)
             = Ok (repeat x (length shape)))
  /\ (forall x, GaussPattern._validate_param shape name (PyList [x])
                = Ok (repeat x (length shape)))
  /\ GaussPattern._validate_param shape name (PyList []) = Raise ValueError
  /\ (forall l, (1 < length l)%nat ->
        GaussPattern._validate_param shape name (PyList l)
        = if Nat.eqb (length l) (length shape) then Ok l else Raise ValueError)
  /\ (forall param r, GaussPattern._validate_param shape name param = Ok r ->
        length r = length shape)
  /\ (forall param e, GaussPattern._validate_param shape name param = Raise e ->
        e = ValueError).
Proof.
  split; [intros x; rewrite validate_param_scalar; apply validate_param_one|].
  split; [apply validate_param_one|]. split; [reflexivity|].
  split; [apply validate_param_long|].
  split; [apply validate_param_length|].
  intros param e. destruct (validate_param_values shape name param) as [l ->].
  destruct l as [|x [|y l]].
  - now intros [= <-].
  - rewrite validate_param_one. discriminate.
  - rewrite validate_param_long by (cbn; lia).
    destruct (Nat.eqb (length (x :: y :: l)) (length shape)); [discriminate|].
    now intros [= <-].
Qed.

(** Validating again what [_validate_param] returned, as a setter does with
    a value read from the getter: on a shape with at least one dimension the
    value is returned unchanged; on the zero-dimensional shape every accepted
    parameter has become the empty list, which is refused. *)
Theorem GaussPattern_validate_param_again (shape : list Z) (name name' : String.string)
    (param : float_or_list) (r : list Q) :
  GaussPattern._validate_param shape name param = Ok r ->
  GaussPattern._validate_param shape name' (PyList r)
  = if Nat.eqb (length shape) 0 then Raise ValueError else Ok r.
Proof.
  intros Hr. pose proof (validate_param_length shape name param r Hr) as Hlen.
  destruct (validate_param_values shape name param) as [l Hl]. rewrite Hl in Hr.
  destruct r as [|x [|y r]]; cbn [length] in Hlen.
  - now rewrite <- Hlen.
  - rewrite validate_param_one, <- Hlen. reflexivity.
  - rewrite validate_param_long by (cbn; lia). rewrite <- Hlen.
    cbn [length]. now rewrite Nat.eqb_refl.
Qed.

(** The mean 1/2 on a two-dimensional shape becomes (1/2, 1/2), and stays so. *)
Lemma GaussPattern_validate_param_again_witness :
  GaussPattern._validate_param [30; 40] "mean"%string (PyList [1 # 2; 1 # 2]%Q)
  = Ok [1 # 2; 1 # 2]%Q.
Proof.
  apply (GaussPattern_validate_param_again [30; 40] "mean"%string "mean"%string
           (PyFloat (1 # 2)) [1 # 2; 1 # 2]%Q).
  reflexivity.
Defined.

(** ** ReduceDims: which output unit an input unit feeds *)

Lemma select_in_box (mask : list bool) :
  forall u sh, in_box u sh -> in_box (select mask u) (select mask sh).
Proof.
  induction mask as [|b mask IH]; intros u sh H; [destruct u, sh; constructor|].
  inversion H as [|x d u' sh' Hx Hrest]; subst; cbn; [constructor|].
  destruct b; [constructor; [exact Hx|] |]; now apply IH.
Qed.

Lemma np_delete_same_length {A B : Type} (arr : list A) (arr' : list B) (r drop : list Z) :
  length arr' = length arr ->
  mapM (normalize_index (len arr)) r = Ok drop ->
  np_delete arr' r = Ok (select (mask_from drop 0 (length arr)) arr').
Proof.
  intros Hlen Hdrop. unfold np_delete.
  replace (len arr') with (len arr) by (unfold len; now rewrite Hlen).
  rewrite Hdrop. cbn [bind ret Monad_result].
  now rewrite drop_positions_select, Hlen.
Qed.

Lemma ReduceDims_weights_form (s : shape) (a : int_or_tuple)
    (method : option Operations.ReduceMethod) (o : shape) (drop : list Z) :
  valid_shape s ->
  mapM (normalize_index (len s)) (tuple_of a) = Ok drop ->
  select (mask_from drop 0 (length s)) s = o -> o <> [] -> len o <= 3 ->
  len o + len s <= NPY_MAXDIMS ->
  configure_component (O_ReduceDims a method) s = Ok (Some o) ->
  weights_of (Operations.ReduceDims a method) s
  = Ok (NdArray [num_neurons o; num_neurons s]
          (map (fun t =>
                  let q := if on_diagonal o (mask_from drop 0 (length s))
                                (unravel (o ++ s) t)
                           then 1%Q else 0%Q in
                  match method with
                  | Some Operations.MEAN => (q / inject_Z (num_neurons s))%Q
                  | _ => q
                  end)
               (range (size_of (o ++ s))))).
Proof.
  intros Hs Hdrop Hdel Hne Hlen Hdims Hconf.
  set (mask := mask_from drop 0 (length s)) in *.
  assert (Hmask : length mask = length s) by apply mask_from_length.
  assert (HK : np_delete (range (num_dims s)) (tuple_of a)
               = Ok (select mask (range (num_dims s)))).
  { apply (np_delete_same_length s); [|exact Hdrop].
    unfold num_dims. rewrite range_length. unfold len. now rewrite Nat2Z.id. }
  assert (Hproj := project_dims_reduce s mask Hmask Hs).
  rewrite Hdel in Hproj.
  specialize (Hproj ltac:(destruct o; [contradiction | unfold len in Hlen; cbn in *; lia])).
  specialize (Hproj ltac:(now rewrite len_app)).
  rewrite (ReduceDims_configure s a method _ (or_intror eq_refl)) in Hconf.
  destruct (num_dims s =? 0) eqn:E0; [discriminate|].
  destruct (len (tuple_of a) =? 0) eqn:E1; [discriminate|].
  destruct (len s <? len (tuple_of a)) eqn:E2; [discriminate|].
  destruct (existsb (out_of_bounds (len s)) (tuple_of a)) eqn:E3; [discriminate|].
  unfold weights_of, Operations.configure, Operations.ReduceDims_methods,
    Operations.AbstractComputedShapeOperation_configure, Operations.ReduceDims,
    Operations.compute_weights.
  cbn -[np_delete Operations._project_dims range num_neurons np_div].
  rewrite E0. cbn -[np_delete Operations._project_dims range num_neurons np_div].
  rewrite E1. cbn -[np_delete Operations._project_dims range num_neurons np_div].
  rewrite E2. cbn -[np_delete Operations._project_dims range num_neurons np_div].
  rewrite for_each_raise_if, E3.
  cbn -[np_delete Operations._project_dims range num_neurons np_div].
  unfold np_delete at 1. cbn [bind ret Monad_result]. rewrite Hdrop.
  rewrite drop_positions_select. fold mask. rewrite Hdel.
  destruct o as [|o0 o']; [contradiction|].
  cbn -[np_delete Operations._project_dims range num_neurons np_div].
  rewrite HK. cbn -[np_delete Operations._project_dims range num_neurons np_div].
  rewrite Hproj.
  destruct method as [[|]|];
    cbn -[np_delete Operations._project_dims range num_neurons np_div];
    try reflexivity.
  unfold np_div. cbn [nd_shape nd_data]. now rewrite map_map.
Qed.

Lemma count_nonzero_scaled (p : Z -> bool) (L : list Z) (n : Z) :
  1 <= n ->
  count_nonzero (map (fun y => ((if p y then 1 else 0) / inject_Z n)%Q) L)
  = Z.to_nat (cnt p L).
Proof.
  intros Hn. unfold count_nonzero, cnt, len. rewrite Nat2Z.id.
  destruct n as [|k|k]; try lia.
  induction L as [|y L IH]; [reflexivity|].
  cbn [map filter]. destruct (p y); cbn -[filter]; now rewrite IH.
Qed.

(** The entries of ReduceDims in general.  For a valid input shape and a
    [reduce_dims] that [configure] accepts and that leaves between one and
    three axes, the output and input axes together being no more than NumPy
    allows for the tensor of [_project_dims]: input unit [y] feeds exactly one output unit, the one whose
    multi-index is that of [y] with the reduced axes deleted; the weight is 1
    with SUM and [1 / num_neurons(input_shape)] with MEAN, and every other
    entry of the column is zero. *)
Theorem ReduceDims_weights_entries (s : shape) (a : int_or_tuple)
    (method : option Operations.ReduceMethod) (o : shape) :
  valid_shape s ->
  np_delete s (tuple_of a) = Ok o -> o <> [] -> len o <= 3 ->
  len o + len s <= NPY_MAXDIMS ->
  configure_component (O_ReduceDims a method) s = Ok (Some o) ->
  let scale := fun q : Q =>
    match method with
    | Some Operations.MEAN => (q / inject_Z (num_neurons s))%Q
    | _ => q
    end in
  exists m, weights_of (Operations.ReduceDims a method) s = Ok m
    /\ (forall x y : Z, 0 <= x < num_neurons o -> 0 <= y < num_neurons s ->
          exists kept, np_delete (unravel s y) (tuple_of a) = Ok kept
            /\ entry m (Z.to_nat x) (Z.to_nat y)
               = scale (if x =? ravel o kept then 1%Q else 0%Q))
    /\ (forall j : nat, (j < Z.to_nat (num_neurons s))%nat ->
          count_nonzero (column m j) = 1%nat).
Proof.
  intros Hs Hdel Hne Hlen Hdims Hconf scale.
  unfold np_delete in Hdel. cbn [bind ret Monad_result] in Hdel.
  destruct (mapM (normalize_index (len s)) (tuple_of a)) as [drop|] eqn:Hdrop;
    [|discriminate].
  injection Hdel as Hdel. rewrite drop_positions_select in Hdel.
  rewrite (ReduceDims_weights_form s a method o drop Hs Hdrop Hdel Hne Hlen Hdims Hconf).
  set (mask := mask_from drop 0 (length s)) in *.
  assert (Hmask : length mask = length s) by apply mask_from_length.
  assert (Ho : valid_shape o) by (rewrite <- Hdel; now apply select_valid).
  change num_neurons with size_of in *.
  pose proof (size_of_valid _ Hs) as Hps. pose proof (size_of_valid _ Ho) as Hpo.
  rewrite size_of_app.
  assert (Hkept : forall y, 0 <= y < size_of s ->
            in_box (select mask (unravel s y)) o).
  { intros y Hy. rewrite <- Hdel. apply select_in_box. now apply unravel_in_box. }
  assert (Hcell : forall x y, 0 <= x < size_of o -> 0 <= y < size_of s ->
            (let q := if on_diagonal o mask (unravel (o ++ s) (x * size_of s + y))
                      then 1%Q else 0%Q in
             match method with
             | Some Operations.MEAN => (q / inject_Z (size_of s))%Q
             | _ => q
             end)
            = scale (if x =? ravel o (select mask (unravel s y)) then 1%Q else 0%Q)).
  { intros x y Hx Hy. cbv zeta. rewrite on_diagonal_app by assumption.
    replace (eqb_list (select mask (unravel s y)) (unravel o x))
      with (x =? ravel o (select mask (unravel s y))); [reflexivity|].
    rewrite Z.eqb_sym.
    rewrite <- (eqb_list_unravel o _ x Ho)
      by (try apply ravel_bound; try apply Hkept; assumption).
    now rewrite unravel_ravel by (try apply Hkept; assumption). }
  eexists. split; [reflexivity|]. split.
  - intros x y Hx Hy. exists (select mask (unravel s y)). split.
    + apply (np_delete_same_length s); [apply unravel_length | exact Hdrop].
    + rewrite entry_flat by assumption. now apply Hcell.
  - intros j Hj. rewrite column_flat by lia.
    rewrite (map_ext_in _ (fun x => scale (if x =? ravel o (select mask (unravel s (Z.of_nat j)))
                                          then 1%Q else 0%Q))).
    2:{ intros x Hx. apply range_In in Hx. apply Hcell; lia. }
    assert (Hx0 : 0 <= ravel o (select mask (unravel s (Z.of_nat j))) < size_of o)
      by (apply ravel_bound; [exact Ho | apply Hkept; lia]).
    subst scale. destruct method as [[|]|]; cbv beta iota.
    + now rewrite count_nonzero_indicator, cnt_eqb_range.
    + now rewrite count_nonzero_scaled, cnt_eqb_range.
    + now rewrite count_nonzero_indicator, cnt_eqb_range.
Qed.

(** Reducing axes 0 and 2 of (2, 3, 4) with MEAN. *)
Lemma ReduceDims_weights_entries_witness :
  exists m,
    weights_of (Operations.ReduceDims (PyTuple [0; 2]) (Some Operations.MEAN)) [2; 3; 4]
    = Ok m
    /\ (forall x y : Z, 0 <= x < num_neurons [3] -> 0 <= y < num_neurons [2; 3; 4] ->
          exists kept, np_delete (unravel [2; 3; 4] y) (tuple_of (PyTuple [0; 2])) = Ok kept
            /\ entry m (Z.to_nat x) (Z.to_nat y)
               = Qdiv (if x =? ravel [3] kept then 1%Q else 0%Q)
                      (inject_Z (num_neurons [2; 3; 4])))
    /\ (forall j : nat, (j < Z.to_nat (num_neurons [2; 3; 4]%Z))%nat ->
          count_nonzero (column m j) = 1%nat).
Proof.
  apply (ReduceDims_weights_entries [2; 3; 4] (PyTuple [0; 2]) (Some Operations.MEAN) [3]);
    [ repeat constructor; lia
    | reflexivity
    | discriminate
    | vm_compute; discriminate
    | vm_compute; discriminate
    | reflexivity ].
Defined.

(** ** The guard of [compute_weights] and [assert_configured] *)

(** A newly constructed operation or handler is guarded, and it stays so
    when its first [configure] fails: [compute_weights] of ReduceDims and
    Reorder, and of ExpandDims after a ValueError, raises AssertionError, and
    so does [assert_configured] of their handlers.  ReshapeHandler is the
    exception: it holds its output shape from the start, so after a refused
    [configure] its [assert_configured] passes. *)
Theorem guard_after_failed_configure :
  (forall w, guarded (Operations.Weights w))
  /\ (forall a m, guarded (Operations.ReduceDims a m))
  /\ (forall a, guarded (Operations.ExpandDims a))
  /\ (forall r, guarded (Operations.Reorder r))
  /\ (forall a m s e,
        snd (Operations.configure s (Operations.ReduceDims a m)) = Raise e ->
        guarded (fst (Operations.configure s (Operations.ReduceDims a m))))
  /\ (forall r s e,
        snd (Operations.configure s (Operations.Reorder r)) = Raise e ->
        guarded (fst (Operations.configure s (Operations.Reorder r))))
  /\ (forall a s,
        snd (Operations.configure s (Operations.ExpandDims a)) = Raise ValueError ->
        guarded (fst (Operations.configure s (Operations.ExpandDims a))))
  /\ (forall a s e,
        snd (ShapeHandlers.configure s (ShapeHandlers.ReduceDimsHandler a)) = Raise e ->
        handler_guarded (fst (ShapeHandlers.configure s (ShapeHandlers.ReduceDimsHandler a))))
  /\ (forall r s e,
        snd (ShapeHandlers.configure s (ShapeHandlers.ReorderHandler r)) = Raise e ->
        handler_guarded (fst (ShapeHandlers.configure s (ShapeHandlers.ReorderHandler r))))
  /\ (forall t s e,
        snd (ShapeHandlers.configure s (ShapeHandlers.ReshapeHandler t)) = Raise e ->
        ShapeHandlers.assert_configured
          (fst (ShapeHandlers.configure s (ShapeHandlers.ReshapeHandler t)))
        = (fst (ShapeHandlers.configure s (ShapeHandlers.ReshapeHandler t)), Ok tt)).
Proof.
  repeat match goal with |- _ /\ _ => split end;
    try (intros; reflexivity);
    intros;
    match goal with H : snd _ = _ |- _ => revert H end;
    unfold guarded, handler_guarded, Operations.ReduceDims, Operations.Reorder,
      Operations.ExpandDims, ShapeHandlers.ReduceDimsHandler,
      ShapeHandlers.ReorderHandler, ShapeHandlers.ReshapeHandler,
      ShapeHandlers.configure, Operations.configure,
      Operations.AbstractComputedShapeOperation_configure;
    cbn -[np_delete np_take];
    repeat configure_step; intros; try reflexivity; try discriminate.
Qed.
